(** * The real-time typing engine: test sessions, races and the rate limiter

    A shallow embedding of the socket layer of the typing-test server
    ([backend/src/utils/rateLimiter.js], [backend/src/utils/socketHelpers.js],
    [backend/src/sockets/testEvents.js], [backend/src/sockets/raceEvents.js])
    and the properties of its metrics, its token buckets and its race state
    machine.

    Conventions of the embedding.
    - A JavaScript number that the code computes with fractions (wpm,
      accuracy, consistency, client-supplied timestamps and statistics) is a
      binary64 value: Rocq's primitive [float], whose operations are the
      IEEE 754 ones JavaScript uses.
    - A number that only ever holds an integer (array lengths, [Date.now()]
      readings and their differences, token counts, ranks) is a [Z]; on such
      values below 2^53 double arithmetic is exact.
    - [Date.now()] / [new Date()] is an input of each handler: one reading
      [now] per handler run. The keystroke handler subtracts one reading of
      a run from another of the same run, so each of its readings is an
      input of its own ([Clock.t]).
    - A JavaScript [Map] whose iteration order is read (a race's roster) is an
      association list in insertion order; a [Map] that is only looked up (the
      registries, the buckets) is a [gmap].
    - A handler returns the new state and the list of messages it emitted, in
      order. A [TypeError] thrown half-way keeps the mutations made before it,
      as the [try]/[catch] of the handler does. *)

From stdpp Require Import base gmap strings list.
From Stdlib Require Import ZArith Floats Lia Permutation Sorted.

Local Open Scope Z_scope.

(** ** JavaScript numbers *)

Module JS.

(** The double nearest to an integer (exact below 2^53). *)
Definition Z2f (z : Z) : float :=
  SF2Prim (binary_normalize prec emax z 0 false).

(** [Math.round]: the integer closest to [x], ties towards +infinity;
    NaN, the infinities and the zeros are returned unchanged, and a
    negative argument that rounds to zero gives -0. *)
Definition Math_round (x : float) : float :=
  match Prim2SF x with
  | S754_finite s m e =>
      if 0 <=? e then x
      else
        let v := if s then Z.neg m else Z.pos m in
        let r := Z.shiftr (2 * v + 2 ^ (- e)) (1 - e) in
        if r =? 0 then (if s then (-0)%float else 0%float) else Z2f r
  | _ => x
  end.

(** [Math.max] and [Math.min] of two numbers: NaN is contagious and
    +0 is larger than -0. *)
Definition Math_max (x y : float) : float :=
  if is_nan x || is_nan y then nan
  else if (x <? y)%float then y
  else if (y <? x)%float then x
  else if get_sign x then y else x.

Definition Math_min (x y : float) : float :=
  if is_nan x || is_nan y then nan
  else if (x <? y)%float then x
  else if (y <? x)%float then y
  else if get_sign x then x else y.

(** [Math.pow(x, 2)]: the square, [x * x]. *)
Definition Math_pow2 (x : float) : float := (x * x)%float.

(** [a.reduce((acc, b) => f(acc, b), init)]. *)
Definition reduce {A B} (f : B -> A -> B) (init : B) (a : list A) : B :=
  fold_left f a init.

End JS.

(** ** socketHelpers.js: typing statistics *)

Module SocketHelpers.
Import JS.

(** One entry of [testSession.keystrokes], as the keystroke handler
    stores it. Every field but [serverTimestamp] is the client's. *)
Record keystroke := {
  timestamp : float;
  key : string;
  correct : bool;
  position : float;
  currentText : string;
  serverTimestamp : Z
}.

Record stats := {
  wpm : float;
  accuracy : float;
  consistency : float;
  errors : Z;
  correctChars : Z;
  incorrectChars : Z;
  stats_position : option Z   (* absent from the early return *)
}.

Definition windowSize : Z := 2000.

Definition in_window (windowStart windowEnd : Z) (k : keystroke) : bool :=
  (Z2f windowStart <=? timestamp k)%float && (timestamp k <? Z2f windowEnd)%float.

(** The body of the [for (windowStart = 0; windowStart < timeElapsed;
    windowStart += windowSize)] loop; [fuel] bounds the iterations. *)
Fixpoint windows_loop (fuel : nat) (keystrokes : list keystroke)
    (timeElapsed windowStart : Z) (windows : list float) : list float :=
  match fuel with
  | O => windows
  | S fuel' =>
      if windowStart <? timeElapsed then
        let windowEnd := windowStart + windowSize in
        let windowKeystrokes := List.filter (in_window windowStart windowEnd) keystrokes in
        let windows' :=
          if 0 <? Z.of_nat (length windowKeystrokes) then
            let windowWpm :=
              ((Z2f (Z.of_nat (length windowKeystrokes)) / 5)
               / (Z2f windowSize / (1000 * 60)))%float in
            windows ++ [windowWpm]
          else windows in
        windows_loop fuel' keystrokes timeElapsed (windowStart + windowSize) windows'
      else windows
  end.

(** The loop runs at most [timeElapsed / windowSize + 1] times. *)
Definition loop_fuel (timeElapsed : Z) : nat :=
  Z.to_nat (timeElapsed / windowSize + 1).

Definition time_windows (keystrokes : list keystroke) (timeElapsed : Z) : list float :=
  windows_loop (loop_fuel timeElapsed) keystrokes timeElapsed 0 [].

Definition mean_of (windows : list float) : float :=
  (reduce (fun a b => a + b) 0 windows / Z2f (Z.of_nat (length windows)))%float.

Definition variance_of (windows : list float) : float :=
  let mean := mean_of windows in
  (reduce (fun acc wpm => acc + Math_pow2 (wpm - mean)) 0 windows
     / Z2f (Z.of_nat (length windows)))%float.

Definition coefficientOfVariation (windows : list float) : float :=
  let mean := mean_of windows in
  let stdDev := PrimFloat.sqrt (variance_of windows) in
  if (0 <? mean)%float then (stdDev / mean)%float else 1%float.

Definition calculateConsistency (keystrokes : list keystroke) (timeElapsed : Z) : float :=
  if Z.of_nat (length keystrokes) <? 10 then 0%float
  else
    let windows := time_windows keystrokes timeElapsed in
    if Z.of_nat (length windows) <? 2 then 0%float
    else
      Math_max 0 (Math_min 100
        (Math_round (100 - coefficientOfVariation windows * 100)%float)).

Definition calculateTypingStats (keystrokes : list keystroke) (text : string)
    (timeElapsed : Z) : stats :=
  if (Z.of_nat (length keystrokes) =? 0) || (timeElapsed <=? 0) then
    {| wpm := 0; accuracy := 100; consistency := 0; errors := 0;
       correctChars := 0; incorrectChars := 0; stats_position := None |}
  else
    let totalKeystrokes := Z.of_nat (length keystrokes) in
    let correctKeystrokes := Z.of_nat (length (List.filter correct keystrokes)) in
    let incorrectKeystrokes := totalKeystrokes - correctKeystrokes in
    let charactersTyped := Z.max (Z.of_nat (length keystrokes)) 1 in
    let minutes := (Z2f timeElapsed / (1000 * 60))%float in
    let wpm := Math_round ((Z2f charactersTyped / 5) / minutes)%float in
    let accuracy :=
      Math_round ((Z2f correctKeystrokes / Z2f totalKeystrokes) * 100)%float in
    let consistency := calculateConsistency keystrokes timeElapsed in
    {| wpm := Math_max 0 wpm;
       accuracy := Math_max 0 (Math_min 100 accuracy);
       consistency := Math_max 0 (Math_min 100 consistency);
       errors := incorrectKeystrokes;
       correctChars := correctKeystrokes;
       incorrectChars := incorrectKeystrokes;
       stats_position := Some (Z.of_nat (length keystrokes)) |}.

End SocketHelpers.

(** ** rateLimiter.js: token buckets *)

Module Limit.
Record t := { tokens : Z; refillRate : Z; window : Z }.
End Limit.

Module Bucket.
Record t := { tokens : Z; lastRefill : Z; createdAt : Z }.
End Bucket.

Module RateLimiter.

Inductive limitType := connection | keystroke | raceProgress | chatMessage | general.

#[global] Instance limitType_eq_dec : EqDecision limitType.
Proof. solve_decision. Defined.

(** [this.limits]. *)
Definition limits (ty : limitType) : Limit.t :=
  match ty with
  | connection => {| Limit.tokens := 10; Limit.refillRate := 1; Limit.window := 60000 |}
  | keystroke => {| Limit.tokens := 20; Limit.refillRate := 20; Limit.window := 1000 |}
  | raceProgress => {| Limit.tokens := 10; Limit.refillRate := 10; Limit.window := 1000 |}
  | chatMessage => {| Limit.tokens := 5; Limit.refillRate := 1; Limit.window := 12000 |}
  | general => {| Limit.tokens := 100; Limit.refillRate := 1; Limit.window := 600 |}
  end.

Definition limitName (ty : limitType) : string :=
  match ty with
  | connection => "connection"
  | keystroke => "keystroke"
  | raceProgress => "raceProgress"
  | chatMessage => "chatMessage"
  | general => "general"
  end.

(** [`${limitType}:${key}`]. *)
Definition bucketKey (ty : limitType) (key : string) : string :=
  limitName ty +:+ ":" +:+ key.

Record result := {
  allowed : bool;
  remaining : Z;
  resetTime : Z;
  retryAfter : option Z
}.

(** Milliseconds per token, [limit.window / limit.refillRate]: an
    integer for each of the five classes. *)
Definition period (limit : Limit.t) : Z := Limit.window limit / Limit.refillRate limit.

(** [checkRate] on the bucket it found or created: the refill, then the
    decision. Returns the result and the bucket as it is left in the map. *)
Definition checkBucket (limit : Limit.t) (now : Z) (bucket : Bucket.t) : result * Bucket.t :=
  let elapsed := now - Bucket.lastRefill bucket in
  let tokensToAdd := elapsed / period limit in
  let bucket :=
    if 0 <? tokensToAdd then
      {| Bucket.tokens := Z.min (Limit.tokens limit) (Bucket.tokens bucket + tokensToAdd);
         Bucket.lastRefill := now;
         Bucket.createdAt := Bucket.createdAt bucket |}
    else bucket in
  if 0 <? Bucket.tokens bucket then
    let bucket :=
      {| Bucket.tokens := Bucket.tokens bucket - 1;
         Bucket.lastRefill := Bucket.lastRefill bucket;
         Bucket.createdAt := Bucket.createdAt bucket |} in
    ({| allowed := true;
        remaining := Bucket.tokens bucket;
        resetTime := Bucket.lastRefill bucket + Limit.window limit;
        retryAfter := None |}, bucket)
  else
    ({| allowed := false;
        remaining := 0;
        resetTime := Bucket.lastRefill bucket + Limit.window limit;
        retryAfter := Some (period limit - elapsed) |}, bucket).

Definition newBucket (limit : Limit.t) (now : Z) : Bucket.t :=
  {| Bucket.tokens := Limit.tokens limit;
     Bucket.lastRefill := now;
     Bucket.createdAt := now |}.

Definition checkRate (key : string) (limitType : limitType) (now : Z)
    (buckets : gmap string Bucket.t) : result * gmap string Bucket.t :=
  let limit := limits limitType in
  let bucketKey := bucketKey limitType key in
  let bucket :=
    match buckets !! bucketKey with
    | Some bucket => bucket
    | None => newBucket limit now
    end in
  let '(res, bucket) := checkBucket limit now bucket in
  (res, <[bucketKey := bucket]> buckets).

Definition checkKeystrokeRate (userId : string) := checkRate userId keystroke.
Definition checkRaceProgressRate (userId : string) := checkRate userId raceProgress.
Definition checkChatMessageRate (userId : string) := checkRate userId chatMessage.
Definition checkGeneralRate (userId : string) := checkRate userId general.

(** [cleanup], run every five minutes: a bucket created more than ten
    minutes ago is dropped (the next check on it starts from a full one). *)
Definition cleanup (now : Z) (buckets : gmap string Bucket.t) : gmap string Bucket.t :=
  filter (fun e : string * Bucket.t => ¬ (10 * 60 * 1000 < now - Bucket.createdAt (snd e)))
    buckets.

(** A log of rate checks, as the handlers issue them: who, on which
    class, when. [run] replays it and returns the decisions. *)
Record call := { call_key : string; call_type : limitType; call_now : Z }.

Fixpoint run (calls : list call) (buckets : gmap string Bucket.t)
    : list (call * bool) * gmap string Bucket.t :=
  match calls with
  | [] => ([], buckets)
  | c :: calls' =>
      let '(res, buckets') := checkRate (call_key c) (call_type c) (call_now c) buckets in
      let '(rest, buckets'') := run calls' buckets' in
      ((c, allowed res) :: rest, buckets'')
  end.

(** The accepted [limitType] events of [key] whose time lies in the
    window [lo, lo + width). *)
Definition accepted_in (key : string) (ty : limitType) (lo width : Z)
    (decisions : list (call * bool)) : Z :=
  Z.of_nat (length (List.filter
    (fun d : call * bool =>
       snd d && bool_decide (call_key (fst d) = key)
             && bool_decide (call_type (fst d) = ty)
             && (lo <=? call_now (fst d)) && (call_now (fst d) <? lo + width))
    decisions)).

(** The same replay seen from one bucket: the times of the checks that hit
    it, and the bucket ([None] until the first check creates it). *)
Fixpoint runBucket (limit : Limit.t) (times : list Z) (bucket : option Bucket.t)
    : list (Z * bool) :=
  match times with
  | [] => []
  | now :: times' =>
      let '(res, bucket') := checkBucket limit now (default (newBucket limit now) bucket) in
      (now, allowed res) :: runBucket limit times' (Some bucket')
  end.

(** The clock readings of a log never go back. *)
Fixpoint nondecreasing (times : list Z) : bool :=
  match times with
  | [] => true
  | t :: times' => forallb (Z.leb t) times' && nondecreasing times'
  end.

Definition hits (key : string) (ty : limitType) (c : call) : bool :=
  bool_decide (call_key c = key) && bool_decide (call_type c = ty).

Definition timesOf (key : string) (ty : limitType) (calls : list call) : list Z :=
  map call_now (List.filter (hits key ty) calls).

Definition acceptedWithin (lo width : Z) (d : Z * bool) : bool :=
  snd d && (lo <=? fst d) && (fst d <? lo + width).

Definition acceptedBucket (lo width : Z) (decisions : list (Z * bool)) : Z :=
  Z.of_nat (length (List.filter (acceptedWithin lo width) decisions)).

End RateLimiter.

(** ** Sockets, errors and the messages of a test session *)

Module Socket.
(** [socket.id], [socket.userId], [socket.userInfo.username]. *)
Record t := { id : string; userId : string; username : string }.
End Socket.

Inductive details :=
| NoDetails
| Text (s : string)
| RetryAfter (seconds : option Z).

Module Error.
(** The payload of [createErrorResponse] (the ISO timestamp left out). *)
Record t := { code : Z; type : string; message : string; details : details }.
End Error.

Inductive mode_t := mode_time | mode_words.

#[global] Instance mode_eq_dec : EqDecision mode_t.
Proof. solve_decision. Defined.

(** [finalStats] of [test:completed], and the statistics a result is built
    from: [providedStats || calculateTypingStats(...)]. *)
Module FinalStats.
Record t := {
  wpm : float;
  accuracy : float;
  consistency : option float;
  errors : float
}.
End FinalStats.

Module StatsUpdate.
Record t := {
  testId : string;
  wpm : float;
  accuracy : float;
  consistency : float;
  errors : Z;
  position : option Z;
  timeElapsed : Z;
  correctChars : Z;
  incorrectChars : Z
}.
End StatsUpdate.

Module TestResult.
Record t := {
  testId : string;
  wpm : float;
  accuracy : float;
  consistency : float;
  errors : float;
  timeElapsed : Z;
  mode : mode_t;
  wordCount : option float;
  duration : option float;
  completedAt : Z
}.
End TestResult.

Module TestJoined.
Record t := {
  testId : string;
  words : string;
  mode : mode_t;
  duration : float;
  wordCount : float;
  isActive : bool
}.
End TestJoined.

Module TestSession.
Record t := {
  testId : string;
  userId : string;
  mode : mode_t;
  duration : float;
  wordCount : float;
  words : string;
  keystrokes : list SocketHelpers.keystroke;
  startTime : option Z;
  endTime : option Z;
  isCompleted : bool;
  createdAt : Z;
  lastActivity : Z
}.

Definition set_startTime (v : option Z) (s : t) : t :=
  {| testId := testId s; userId := userId s; mode := mode s; duration := duration s;
     wordCount := wordCount s; words := words s; keystrokes := keystrokes s;
     startTime := v; endTime := endTime s; isCompleted := isCompleted s;
     createdAt := createdAt s; lastActivity := lastActivity s |}.

(** [keystrokes.push(k); lastActivity = now]. *)
Definition push_keystroke (k : SocketHelpers.keystroke) (now : Z) (s : t) : t :=
  {| testId := testId s; userId := userId s; mode := mode s; duration := duration s;
     wordCount := wordCount s; words := words s; keystrokes := keystrokes s ++ [k];
     startTime := startTime s; endTime := endTime s; isCompleted := isCompleted s;
     createdAt := createdAt s; lastActivity := now |}.

(** [endTime = now; isCompleted = true]. *)
Definition complete (now : Z) (s : t) : t :=
  {| testId := testId s; userId := userId s; mode := mode s; duration := duration s;
     wordCount := wordCount s; words := words s; keystrokes := keystrokes s;
     startTime := startTime s; endTime := Some now; isCompleted := true;
     createdAt := createdAt s; lastActivity := lastActivity s |}.
End TestSession.

(** ** Races: players, the race record and its messages *)

Module Player.
(** A roster entry. [position], [wpm], [accuracy], [errors] and a
    [race:finish] finish time are the client's numbers; [avatar] and the
    unused [keystrokes] array are left out. *)
Record t := {
  userId : string;
  username : string;
  position : float;
  wpm : float;
  accuracy : float;
  errors : float;
  isFinished : bool;
  finishTime : option float;
  rank : option Z;
  consistency : option float;
  joinedAt : Z
}.

Definition set_rank (v : option Z) (p : t) : t :=
  {| userId := userId p; username := username p; position := position p; wpm := wpm p;
     accuracy := accuracy p; errors := errors p; isFinished := isFinished p;
     finishTime := finishTime p; rank := v; consistency := consistency p;
     joinedAt := joinedAt p |}.

Definition set_finishTime (v : option float) (p : t) : t :=
  {| userId := userId p; username := username p; position := position p; wpm := wpm p;
     accuracy := accuracy p; errors := errors p; isFinished := isFinished p;
     finishTime := v; rank := rank p; consistency := consistency p;
     joinedAt := joinedAt p |}.

(** The player [race:create] and [race:join] build. *)
Definition fresh (userId username : string) (now : Z) : t :=
  {| userId := userId; username := username; position := 0; wpm := 0;
     accuracy := 100; errors := 0; isFinished := false; finishTime := None;
     rank := None; consistency := None; joinedAt := now |}.
End Player.

Inductive status_t := waiting | countdown | active | finished.

#[global] Instance status_eq_dec : EqDecision status_t.
Proof. solve_decision. Defined.

Module Race.
(** The race object. [maxPlayers] is the number the schema let through
    ([Joi.number().min(2).max(20)], whole or not). [countdownInterval] and
    [raceTimeout] are the timers [startRaceCountdown] holds in its closure: the interval with
    its [countdown] variable while it is live, and whether the race timeout
    has been set and has not fired. The fields no handler branches on
    ([roomCode], [name], [words], [wordListId], [isPrivate], [createdBy],
    [results]) are left out. *)
Record t := {
  id : string;
  mode : mode_t;
  duration : option float;
  maxPlayers : float;
  createdAt : Z;
  status : status_t;
  players : list (string * Player.t);
  startTime : option Z;
  endTime : option Z;
  countdownStarted : bool;
  countdownInterval : option nat;
  raceTimeout : bool
}.

Definition set_players (v : list (string * Player.t)) (r : t) : t :=
  {| id := id r; mode := mode r; duration := duration r; maxPlayers := maxPlayers r;
     createdAt := createdAt r; status := status r; players := v;
     startTime := startTime r; endTime := endTime r;
     countdownStarted := countdownStarted r;
     countdownInterval := countdownInterval r; raceTimeout := raceTimeout r |}.

Definition set_status (v : status_t) (r : t) : t :=
  {| id := id r; mode := mode r; duration := duration r; maxPlayers := maxPlayers r;
     createdAt := createdAt r; status := v; players := players r;
     startTime := startTime r; endTime := endTime r;
     countdownStarted := countdownStarted r;
     countdownInterval := countdownInterval r; raceTimeout := raceTimeout r |}.

Definition set_startTime (v : option Z) (r : t) : t :=
  {| id := id r; mode := mode r; duration := duration r; maxPlayers := maxPlayers r;
     createdAt := createdAt r; status := status r; players := players r;
     startTime := v; endTime := endTime r;
     countdownStarted := countdownStarted r;
     countdownInterval := countdownInterval r; raceTimeout := raceTimeout r |}.

Definition set_endTime (v : option Z) (r : t) : t :=
  {| id := id r; mode := mode r; duration := duration r; maxPlayers := maxPlayers r;
     createdAt := createdAt r; status := status r; players := players r;
     startTime := startTime r; endTime := v;
     countdownStarted := countdownStarted r;
     countdownInterval := countdownInterval r; raceTimeout := raceTimeout r |}.

Definition set_countdownStarted (v : bool) (r : t) : t :=
  {| id := id r; mode := mode r; duration := duration r; maxPlayers := maxPlayers r;
     createdAt := createdAt r; status := status r; players := players r;
     startTime := startTime r; endTime := endTime r;
     countdownStarted := v;
     countdownInterval := countdownInterval r; raceTimeout := raceTimeout r |}.

Definition set_countdownInterval (v : option nat) (r : t) : t :=
  {| id := id r; mode := mode r; duration := duration r; maxPlayers := maxPlayers r;
     createdAt := createdAt r; status := status r; players := players r;
     startTime := startTime r; endTime := endTime r;
     countdownStarted := countdownStarted r;
     countdownInterval := v; raceTimeout := raceTimeout r |}.

Definition set_raceTimeout (v : bool) (r : t) : t :=
  {| id := id r; mode := mode r; duration := duration r; maxPlayers := maxPlayers r;
     createdAt := createdAt r; status := status r; players := players r;
     startTime := startTime r; endTime := endTime r;
     countdownStarted := countdownStarted r;
     countdownInterval := countdownInterval r; raceTimeout := v |}.
End Race.

(** A JavaScript [Map] in insertion order. *)
Module JSMap.
Section Ops.
Context {V : Type}.

Definition get (k : string) (m : list (string * V)) : option V :=
  snd <$> List.find (fun e => String.eqb (fst e) k) m.

Definition has (k : string) (m : list (string * V)) : bool :=
  match get k m with Some _ => true | None => false end.

(** [m.set(k, v)]: an existing key keeps its place. *)
Fixpoint set (k : string) (v : V) (m : list (string * V)) : list (string * V) :=
  match m with
  | [] => [(k, v)]
  | e :: m' => if String.eqb (fst e) k then (k, v) :: m' else e :: set k v m'
  end.

Definition delete (k : string) (m : list (string * V)) : list (string * V) :=
  List.filter (fun e => negb (String.eqb (fst e) k)) m.

Definition size (m : list (string * V)) : Z := Z.of_nat (length m).

(** [Array.from(m.values())]. *)
Definition values (m : list (string * V)) : list V := map snd m.

Definition keys (m : list (string * V)) : list string := map fst m.

(** The entry of [m] under key [k]. *)
Definition entry (m : list (string * V)) (k : string) : option (string * V) :=
  (fun v => (k, v)) <$> get k m.
End Ops.
End JSMap.

(** ** Messages and effects *)

Module PlayerView.
(** A player as [serializeRace] and [race:progress_update] show it;
    [rank] is [p.rank] in the former and [p.rank || (size + 1)] in the
    latter. *)
Record t := {
  userId : string;
  username : string;
  position : float;
  wpm : float;
  accuracy : float;
  isFinished : bool;
  rank : option Z
}.
End PlayerView.

Module RaceView.
(** [serializeRace(race)]. *)
Record t := {
  id : string;
  mode : mode_t;
  duration : option float;
  maxPlayers : float;
  status : status_t;
  playerCount : Z;
  players : list PlayerView.t;
  createdAt : Z;
  startTime : option Z
}.
End RaceView.

Module Ranking.
(** One entry of [rankings] in [race:completed]. *)
Record t := {
  rank : option Z;
  userId : string;
  username : string;
  wpm : float;
  accuracy : float;
  consistency : float;
  errors : float;
  finishTime : option float;
  isFinished : bool
}.
End Ranking.

Module Results.
(** The payload of [race:completed]; [averageWpm] of [raceStats] is left
    out. *)
Record t := {
  raceId : string;
  winner : option string;
  rankings : list Ranking.t;
  totalPlayers : Z;
  finishedPlayers : Z;
  duration : Z
}.
End Results.

Module PlayerFinished.
Record t := {
  playerId : string;
  username : string;
  rank : option Z;
  wpm : float;
  accuracy : float;
  finishTime : option float
}.
End PlayerFinished.

Inductive message :=
| error (e : Error.t)
| test_joined (m : TestJoined.t)
| test_stats_update (m : StatsUpdate.t)
| test_result (m : TestResult.t)
| friend_test_completed (userId username : string) (wpm accuracy : float) (m : TestResult.t)
| race_created (race : RaceView.t)
| race_joined (race : RaceView.t) (player : Player.t)
| race_player_joined (player : Player.t)
| race_player_left (playerId username : string)
| race_start (raceId : string) (countdown : Z)
| race_countdown (seconds : Z)
| race_begin (startTime : Z)
| race_player_finished (m : PlayerFinished.t)
| race_progress_update (m : list PlayerView.t)
| race_completed (m : Results.t)
| race_message_received (username text : string) (timestamp : Z).

(** What a handler does to the outside, in order. *)
Inductive effect :=
| emit (socketId : string) (m : message)             (* socket.emit *)
| io_emit (m : message)                              (* io.emit *)
| io_to (room : string) (m : message)                (* io.to(room).emit *)
| socket_to (socketId room : string) (m : message)   (* socket.to(room).emit *)
| socket_join (socketId room : string)                    (* socket.join *)
| socket_leave (socketId room : string).                    (* socket.leave *)

(** [emitError]. *)
Definition emitError (socket : Socket.t) (code : Z) (type message : string)
    (d : details) : effect :=
  emit (Socket.id socket)
    (error {| Error.code := code; Error.type := type;
              Error.message := message; Error.details := d |}).

(** [Math.ceil(a / b)] on integers, [b] positive. *)
Definition ceil_div (a b : Z) : Z := - ((- a) / b).

(** [emitRateLimitError]: [retryAfter ? Math.ceil(retryAfter / 1000) : null]. *)
Definition emitRateLimitError (socket : Socket.t) (retryAfter : option Z) : effect :=
  emitError socket 4001 "RATE_LIMITED" "Rate limit exceeded"
    (RetryAfter
       match retryAfter with
       | Some r => if r =? 0 then None else Some (ceil_div r 1000)
       | None => None
       end).

(** The process-wide state: the limiter's buckets and the two registries. *)
Module Server.
Record t := {
  buckets : gmap string Bucket.t;
  activeTestSessions : gmap string TestSession.t;
  activeRaces : gmap string Race.t
}.

Definition set_buckets (v : gmap string Bucket.t) (s : t) : t :=
  {| buckets := v; activeTestSessions := activeTestSessions s;
     activeRaces := activeRaces s |}.

Definition set_tests (v : gmap string TestSession.t) (s : t) : t :=
  {| buckets := buckets s; activeTestSessions := v; activeRaces := activeRaces s |}.

Definition set_races (v : gmap string Race.t) (s : t) : t :=
  {| buckets := buckets s; activeTestSessions := activeTestSessions s;
     activeRaces := v |}.

Definition init : t :=
  {| buckets := ∅; activeTestSessions := ∅; activeRaces := ∅ |}.
End Server.

(** ** testEvents.js *)

Module TestJoin.
Record t := {
  testId : string;
  mode : option mode_t;
  duration : option float;
  wordCount : option float
}.
End TestJoin.

Module Keystroke.
(** The payload of [test:keystroke]. *)
Record t := {
  testId : string;
  timestamp : float;
  key : string;
  correct : bool;
  position : float;
  currentText : option string
}.
End Keystroke.

Module TestCompleted.
Record t := {
  testId : string;
  finalStats : FinalStats.t;
  timeElapsed : float
}.
End TestCompleted.

(** The readings of the clock in one run of [test:keystroke], in the order
    the handler takes them. *)
Module Clock.
Record t := {
  checked : Z;    (* Date.now() in checkRate *)
  started : Z;    (* new Date(): the start time a first keystroke sets *)
  stamped : Z;    (* Date.now(): serverTimestamp of the log entry *)
  touched : Z;    (* new Date(): lastActivity *)
  measured : Z;   (* Date.now(): the end of timeElapsed *)
  ended : Z       (* new Date(): endTime, in completeTestSession *)
}.

(** A run within one tick of the clock: every reading is [now]. *)
Definition instant (now : Z) : t :=
  {| checked := now; started := now; stamped := now; touched := now;
     measured := now; ended := now |}.
End Clock.

Module TestEvents.
Import JS.

(** A number within [lo, hi] (NaN is in no range). *)
Definition between (lo hi x : float) : bool := ((lo <=? x) && (x <=? hi))%float.

Definition optional {A} (check : A -> bool) (v : option A) : bool :=
  match v with Some a => check a | None => true end.

(** [Joi.string()]: the empty string is refused. *)
Definition nonempty (s : string) : bool := negb (String.eqb s EmptyString).

Definition testJoinSchema (data : TestJoin.t) : bool :=
  nonempty (TestJoin.testId data)
  && optional (between 15 300) (TestJoin.duration data)
  && optional (between 10 200) (TestJoin.wordCount data).

Definition keystrokeSchema (data : Keystroke.t) : bool :=
  nonempty (Keystroke.testId data)
  && (0 <=? Keystroke.timestamp data)%float
  && (Z.of_nat (String.length (Keystroke.key data)) =? 1)
  && (0 <=? Keystroke.position data)%float
  && optional nonempty (Keystroke.currentText data).

Definition testCompletedSchema (data : TestCompleted.t) : bool :=
  let s := TestCompleted.finalStats data in
  nonempty (TestCompleted.testId data)
  && (0 <=? FinalStats.wpm s)%float
  && between 0 100 (FinalStats.accuracy s)
  && optional (between 0 100) (FinalStats.consistency s)
  && (0 <=? FinalStats.errors s)%float
  && (0 <=? TestCompleted.timeElapsed data)%float.

(** [x || 0] on an optional number. *)
Definition or_zero (x : option float) : float :=
  match x with
  | Some v => if is_nan v || is_zero v then 0%float else v
  | None => 0%float
  end.

(** What [completeTestSession] reads of [calculateTypingStats]'s object. *)
Definition of_stats (s : SocketHelpers.stats) : FinalStats.t :=
  {| FinalStats.wpm := SocketHelpers.wpm s;
     FinalStats.accuracy := SocketHelpers.accuracy s;
     FinalStats.consistency := Some (SocketHelpers.consistency s);
     FinalStats.errors := Z2f (SocketHelpers.errors s) |}.

(** The [result] object of [completeTestSession]. *)
Definition resultOf (testSession : TestSession.t) (finalStats : FinalStats.t)
    (totalTime now : Z) : TestResult.t :=
  {| TestResult.testId := TestSession.testId testSession;
     TestResult.wpm := FinalStats.wpm finalStats;
     TestResult.accuracy := FinalStats.accuracy finalStats;
     TestResult.consistency := or_zero (FinalStats.consistency finalStats);
     TestResult.errors := FinalStats.errors finalStats;
     TestResult.timeElapsed := totalTime;
     TestResult.mode := TestSession.mode testSession;
     TestResult.wordCount :=
       match TestSession.mode testSession with
       | mode_words => Some (TestSession.wordCount testSession)
       | mode_time => None
       end;
     TestResult.duration :=
       match TestSession.mode testSession with
       | mode_time => Some (TestSession.duration testSession)
       | mode_words => None
       end;
     TestResult.completedAt := now |}.

(** The [statsUpdate] object of the keystroke handler. *)
Definition statsUpdateOf (testId : string) (stats : SocketHelpers.stats)
    (timeElapsed : Z) : StatsUpdate.t :=
  {| StatsUpdate.testId := testId;
     StatsUpdate.wpm := SocketHelpers.wpm stats;
     StatsUpdate.accuracy := SocketHelpers.accuracy stats;
     StatsUpdate.consistency := SocketHelpers.consistency stats;
     StatsUpdate.errors := SocketHelpers.errors stats;
     StatsUpdate.position := SocketHelpers.stats_position stats;
     StatsUpdate.timeElapsed := timeElapsed;
     StatsUpdate.correctChars := SocketHelpers.correctChars stats;
     StatsUpdate.incorrectChars := SocketHelpers.incorrectChars stats |}.

(** [completeTestSession]: the session as it is left, and what was sent.
    Reading [startTime.getTime()] of a session that never started throws;
    the [catch] answers SERVER_ERROR, the session stays marked completed. *)
Definition completeTestSession (socket : Socket.t) (now : Z)
    (testSession : TestSession.t) (providedStats : option FinalStats.t)
    : TestSession.t * list effect :=
  if TestSession.isCompleted testSession then (testSession, [])
  else
    let testSession := TestSession.complete now testSession in
    match TestSession.startTime testSession with
    | None =>
        (testSession,
         [emitError socket 5001 "SERVER_ERROR" "Failed to complete test session" NoDetails])
    | Some startTime =>
        let totalTime := now - startTime in
        let finalStats :=
          match providedStats with
          | Some s => s
          | None =>
              of_stats (SocketHelpers.calculateTypingStats
                          (TestSession.keystrokes testSession)
                          (TestSession.words testSession) totalTime)
          end in
        let result := resultOf testSession finalStats totalTime now in
        (testSession,
         [emit (Socket.id socket) (test_result result);
          io_emit (friend_test_completed (Socket.userId socket) (Socket.username socket)
                     (FinalStats.wpm finalStats) (FinalStats.accuracy finalStats) result)])
    end.

(** [test:join]; [words] is what [generateWords] drew. *)
Definition test_join (socket : Socket.t) (now : Z) (words : string)
    (data : TestJoin.t) (st : Server.t) : Server.t * list effect :=
  let '(rateLimitResult, buckets) :=
    RateLimiter.checkGeneralRate (Socket.userId socket) now (Server.buckets st) in
  let st := Server.set_buckets buckets st in
  if negb (RateLimiter.allowed rateLimitResult) then
    (st, [emitRateLimitError socket (RateLimiter.retryAfter rateLimitResult)])
  else if negb (testJoinSchema data) then
    (st, [emitError socket 3001 "VALIDATION_ERROR" "Invalid test join data" NoDetails])
  else
    let testId := TestJoin.testId data in
    let joined (testSession : TestSession.t) :=
      [socket_join (Socket.id socket) ("test:" +:+ testId);
       emit (Socket.id socket)
         (test_joined
            {| TestJoined.testId := testId;
               TestJoined.words := TestSession.words testSession;
               TestJoined.mode := TestSession.mode testSession;
               TestJoined.duration := TestSession.duration testSession;
               TestJoined.wordCount := TestSession.wordCount testSession;
               TestJoined.isActive :=
                 match TestSession.startTime testSession, TestSession.endTime testSession with
                 | Some _, None => true
                 | _, _ => false
                 end |})] in
    match Server.activeTestSessions st !! testId with
    | None =>
        let testSession :=
          {| TestSession.testId := testId;
             TestSession.userId := Socket.userId socket;
             TestSession.mode := default mode_time (TestJoin.mode data);
             TestSession.duration := default 60%float (TestJoin.duration data);
             TestSession.wordCount := default 50%float (TestJoin.wordCount data);
             TestSession.words := words;
             TestSession.keystrokes := [];
             TestSession.startTime := None;
             TestSession.endTime := None;
             TestSession.isCompleted := false;
             TestSession.createdAt := now;
             TestSession.lastActivity := now |} in
        (Server.set_tests (<[testId := testSession]> (Server.activeTestSessions st)) st,
         joined testSession)
    | Some testSession =>
        if negb (String.eqb (TestSession.userId testSession) (Socket.userId socket)) then
          (st, [emitError socket 3002 "ACCESS_DENIED"
                  "Cannot join another user's test session" NoDetails])
        else (st, joined testSession)
    end.

(** The entry [test:keystroke] appends to the log. *)
Definition keystrokeData (now : Z) (data : Keystroke.t) : SocketHelpers.keystroke :=
  {| SocketHelpers.timestamp := Keystroke.timestamp data;
     SocketHelpers.key := Keystroke.key data;
     SocketHelpers.correct := Keystroke.correct data;
     SocketHelpers.position := Keystroke.position data;
     SocketHelpers.currentText := default EmptyString (Keystroke.currentText data);
     SocketHelpers.serverTimestamp := now |}.

(** [shouldComplete]: the time is up, or the client's position has reached
    the end of the text. *)
Definition shouldComplete (testSession : TestSession.t) (position : float)
    (timeElapsed : Z) : bool :=
  match TestSession.mode testSession with
  | mode_time => (TestSession.duration testSession * 1000 <=? Z2f timeElapsed)%float
  | mode_words =>
      (Z2f (Z.of_nat (String.length (TestSession.words testSession))) <=? position)%float
  end.

(** [test:keystroke]. *)
Definition test_keystroke (socket : Socket.t) (clock : Clock.t) (data : Keystroke.t)
    (st : Server.t) : Server.t * list effect :=
  let '(rateLimitResult, buckets) :=
    RateLimiter.checkKeystrokeRate (Socket.userId socket) (Clock.checked clock)
      (Server.buckets st) in
  let st := Server.set_buckets buckets st in
  if negb (RateLimiter.allowed rateLimitResult) then
    (st, [emitRateLimitError socket (RateLimiter.retryAfter rateLimitResult)])
  else if negb (keystrokeSchema data) then
    (st, [emitError socket 3001 "VALIDATION_ERROR" "Invalid keystroke data" NoDetails])
  else
    let testId := Keystroke.testId data in
    match Server.activeTestSessions st !! testId with
    | None => (st, [emitError socket 3001 "TEST_NOT_FOUND" "Test session not found" NoDetails])
    | Some testSession =>
        if negb (String.eqb (TestSession.userId testSession) (Socket.userId socket)) then
          (st, [emitError socket 3002 "ACCESS_DENIED" "Not your test session" NoDetails])
        else if TestSession.isCompleted testSession then
          (st, [emitError socket 3003 "TEST_COMPLETED"
                  "Test session is already completed" NoDetails])
        else
          let startTime := default (Clock.started clock) (TestSession.startTime testSession) in
          let testSession := TestSession.set_startTime (Some startTime) testSession in
          let testSession :=
            TestSession.push_keystroke (keystrokeData (Clock.stamped clock) data)
              (Clock.touched clock) testSession in
          let timeElapsed := Clock.measured clock - startTime in
          let stats :=
            SocketHelpers.calculateTypingStats (TestSession.keystrokes testSession)
              (TestSession.words testSession) timeElapsed in
          let statsUpdate := statsUpdateOf testId stats timeElapsed in
          let '(testSession, completion) :=
            if shouldComplete testSession (Keystroke.position data) timeElapsed
            then completeTestSession socket (Clock.ended clock) testSession None
            else (testSession, []) in
          (Server.set_tests (<[testId := testSession]> (Server.activeTestSessions st)) st,
           emit (Socket.id socket) (test_stats_update statsUpdate) :: completion)
    end.

(** [test:completed]: no rate check; the client's [finalStats] are handed
    to [completeTestSession]. *)
Definition test_completed (socket : Socket.t) (now : Z) (data : TestCompleted.t)
    (st : Server.t) : Server.t * list effect :=
  if negb (testCompletedSchema data) then
    (st, [emitError socket 3001 "VALIDATION_ERROR" "Invalid test completion data" NoDetails])
  else
    let testId := TestCompleted.testId data in
    match Server.activeTestSessions st !! testId with
    | None => (st, [emitError socket 3001 "TEST_NOT_FOUND" "Test session not found" NoDetails])
    | Some testSession =>
        if negb (String.eqb (TestSession.userId testSession) (Socket.userId socket)) then
          (st, [emitError socket 3002 "ACCESS_DENIED" "Not your test session" NoDetails])
        else
          let '(testSession, effects) :=
            completeTestSession socket now testSession
              (Some (TestCompleted.finalStats data)) in
          (Server.set_tests (<[testId := testSession]> (Server.activeTestSessions st)) st,
           effects)
    end.

(** [test:leave] with a [testId]. *)
Definition test_leave (socket : Socket.t) (testId : string) (st : Server.t)
    : Server.t * list effect :=
  if negb (nonempty testId) then
    (st, [emitError socket 3001 "VALIDATION_ERROR" "testId is required" NoDetails])
  else
    let st' :=
      match Server.activeTestSessions st !! testId with
      | Some testSession =>
          if String.eqb (TestSession.userId testSession) (Socket.userId socket) then
            Server.set_tests (delete testId (Server.activeTestSessions st)) st
          else st
      | None => st
      end in
    (st', [socket_leave (Socket.id socket) ("test:" +:+ testId)]).

(** The events of one test session, as a client sends them. *)
Inductive request :=
| Join (words : string) (data : TestJoin.t)
| Key (data : Keystroke.t)
| Completed (data : TestCompleted.t)
| Leave (testId : string).

(** One request with the clock of its handler's run: [test:join] reads it
    for the rate check, [test:completed] for the end time. *)
Definition handle (socket : Socket.t) (clock : Clock.t) (req : request) (st : Server.t)
    : Server.t * list effect :=
  match req with
  | Join words data => test_join socket (Clock.checked clock) words data st
  | Key data => test_keystroke socket clock data st
  | Completed data => test_completed socket (Clock.ended clock) data st
  | Leave testId => test_leave socket testId st
  end.

(** A run: the requests of one connection, each with the clock readings of
    its handler. *)
Fixpoint run (socket : Socket.t) (reqs : list (Clock.t * request)) (st : Server.t)
    : Server.t * list effect :=
  match reqs with
  | [] => (st, [])
  | (clock, req) :: reqs' =>
      let '(st', out) := handle socket clock req st in
      let '(st'', out') := run socket reqs' st' in
      (st'', out ++ out')
  end.

(** What the server itself observes of a request: the client's own
    judgements (the [correct] flag of a keystroke, the [finalStats] of
    [test:completed]) erased. *)
Definition observed (req : request) : request :=
  match req with
  | Key data =>
      Key {| Keystroke.testId := Keystroke.testId data;
             Keystroke.timestamp := Keystroke.timestamp data;
             Keystroke.key := Keystroke.key data;
             Keystroke.correct := true;
             Keystroke.position := Keystroke.position data;
             Keystroke.currentText := Keystroke.currentText data |}
  | Completed data =>
      Completed {| TestCompleted.testId := TestCompleted.testId data;
                   TestCompleted.finalStats :=
                     {| FinalStats.wpm := 0; FinalStats.accuracy := 0;
                        FinalStats.consistency := None; FinalStats.errors := 0 |};
                   TestCompleted.timeElapsed := TestCompleted.timeElapsed data |}
  | _ => req
  end.

(** The metric messages among the effects of a run. *)
Definition metrics (effects : list effect) : list message :=
  omap (fun e =>
          match e with
          | emit _ (test_stats_update m) => Some (test_stats_update m)
          | emit _ (test_result m) => Some (test_result m)
          | _ => None
          end) effects.

End TestEvents.

(** ** raceEvents.js *)

Module RaceCreate.
Record t := {
  name : string;
  mode : mode_t;
  duration : option float;
  wordCount : option float;
  maxPlayers : option float
}.
End RaceCreate.

Module RaceProgress.
Record t := {
  raceId : string;
  position : float;
  wpm : float;
  accuracy : float;
  errors : float;
  isFinished : bool
}.
End RaceProgress.

Module RaceFinish.
(** [race:finish] with its [finalStats] flattened. *)
Record t := {
  raceId : string;
  wpm : float;
  accuracy : float;
  consistency : option float;
  errors : float;
  finishTime : float
}.
End RaceFinish.

Module RaceEvents.
Import JS.

(** [Array.prototype.sort(comparefn)]: stable, an element moves behind
    another only when [comparefn] of the pair is positive (NaN counts as
    0, as SortCompare reads it). *)
Fixpoint sort_insert {A} (comparefn : A -> A -> float) (x : A) (l : list A) : list A :=
  match l with
  | [] => [x]
  | y :: l' =>
      if (0 <? comparefn x y)%float then y :: sort_insert comparefn x l'
      else x :: y :: l'
  end.

Definition sort {A} (comparefn : A -> A -> float) (l : list A) : list A :=
  fold_right (sort_insert comparefn) [] l.

(** [ToNumber] of a finish time: [null] is 0. *)
Definition num (x : option float) : float := default 0%float x.

(** [(a, b) => a.finishTime - b.finishTime], on roster entries. *)
Definition byFinishTime (a b : string * Player.t) : float :=
  (num (Player.finishTime (snd a)) - num (Player.finishTime (snd b)))%float.

Definition isFinished (e : string * Player.t) : bool := Player.isFinished (snd e).

(** [!x] for an optional number: [null], 0 and NaN are falsy. *)
Definition falsy (x : option float) : bool :=
  match x with
  | Some v => is_nan v || is_zero v
  | None => true
  end.

Definition playerView (rank : Player.t -> option Z) (p : Player.t) : PlayerView.t :=
  {| PlayerView.userId := Player.userId p;
     PlayerView.username := Player.username p;
     PlayerView.position := Player.position p;
     PlayerView.wpm := Player.wpm p;
     PlayerView.accuracy := Player.accuracy p;
     PlayerView.isFinished := Player.isFinished p;
     PlayerView.rank := rank p |}.

Definition serializeRace (race : Race.t) : RaceView.t :=
  {| RaceView.id := Race.id race;
     RaceView.mode := Race.mode race;
     RaceView.duration := Race.duration race;
     RaceView.maxPlayers := Race.maxPlayers race;
     RaceView.status := Race.status race;
     RaceView.playerCount := JSMap.size (Race.players race);
     RaceView.players := map (playerView Player.rank) (JSMap.values (Race.players race));
     RaceView.createdAt := Race.createdAt race;
     RaceView.startTime := Race.startTime race |}.

Definition room (raceId : string) : string := "race:" +:+ raceId.

(** [startRaceCountdown]: the guard, the two assignments, [race:start],
    and the interval with [countdown = 5]. *)
Definition startRaceCountdown (race : Race.t) : Race.t * list effect :=
  if Race.countdownStarted race || negb (bool_decide (Race.status race = waiting)) then
    (race, [])
  else
    let race := Race.set_countdownStarted true race in
    let race := Race.set_status countdown race in
    let race := Race.set_countdownInterval (Some 5%nat) race in
    (race, [io_to (room (Race.id race)) (race_start (Race.id race) 5)]).

(** One firing of the countdown interval's callback. *)
Definition countdownTick (now : Z) (race : Race.t) : Race.t * list effect :=
  match Race.countdownInterval race with
  | None => (race, [])
  | Some (S n) =>
      (Race.set_countdownInterval (Some n) race,
       [io_to (room (Race.id race)) (race_countdown (Z.of_nat (S n)))])
  | Some O =>
      let race := Race.set_countdownInterval None race in
      let race := Race.set_status active race in
      let race := Race.set_startTime (Some now) race in
      let race := Race.set_raceTimeout true race in
      (race, [io_to (room (Race.id race)) (race_begin now)])
  end.

(** The ranks [endRace] writes: finished players by finish time, then the
    unfinished in roster order, numbered from 1. *)
Definition rankedPlayers (players : list (string * Player.t)) : list (string * Player.t) :=
  let finishedPlayers := sort byFinishTime (List.filter isFinished players) in
  let unfinishedPlayers := List.filter (fun e => negb (isFinished e)) players in
  imap (fun index e => (fst e, Player.set_rank (Some (Z.of_nat index + 1)) (snd e)))
    (finishedPlayers ++ unfinishedPlayers).

(** The entries in the order [endRace] ranks them. *)
Definition rankingOrder (players : list (string * Player.t)) : list (string * Player.t) :=
  sort byFinishTime (List.filter isFinished players)
  ++ List.filter (fun e => negb (isFinished e)) players.

Definition rankOf (e : string * Player.t) : option Z := Player.rank (snd e).

(** The ranks [k], [k + 1], ... of [n] players. *)
Definition ranksFrom (k n : nat) : list (option Z) :=
  map (fun i => Some (Z.of_nat i)) (seq k n).

(** The roster after the players in [updated] were mutated in place. *)
Definition writeBack (updated players : list (string * Player.t)) : list (string * Player.t) :=
  map (fun e => (fst e, default (snd e) (JSMap.get (fst e) updated))) players.

Definition ranking (p : Player.t) : Ranking.t :=
  {| Ranking.rank := Player.rank p;
     Ranking.userId := Player.userId p;
     Ranking.username := Player.username p;
     Ranking.wpm := Player.wpm p;
     Ranking.accuracy := Player.accuracy p;
     Ranking.consistency := TestEvents.or_zero (Player.consistency p);
     Ranking.errors := Player.errors p;
     Ranking.finishTime := Player.finishTime p;
     Ranking.isFinished := Player.isFinished p |}.

(** How a call ended: normally, or with a [TypeError] the handler's
    [catch] will report. *)
Inductive completion := returned | threw.

(** [endRace]. The status, the end time and the ranks are written before
    [race.startTime.getTime()] is read for [raceStats.duration]: on a race
    that never started that read throws and nothing is broadcast. *)
Definition endRace (now : Z) (race : Race.t) : Race.t * list effect * completion :=
  if bool_decide (Race.status race = finished) then (race, [], returned)
  else
    let race := Race.set_status finished race in
    let race := Race.set_endTime (Some now) race in
    let ranked := rankedPlayers (Race.players race) in
    let finishedPlayers := List.filter isFinished ranked in
    let race := Race.set_players (writeBack ranked (Race.players race)) race in
    let winner :=
      match finishedPlayers, Race.players race with
      | w :: _, _ => Some (Player.userId (snd w))
      | [], w :: _ => Some (Player.userId (snd w))
      | [], [] => None
      end in
    match Race.startTime race with
    | None => (race, [], threw)
    | Some startTime =>
        let results :=
          {| Results.raceId := Race.id race;
             Results.winner := winner;
             Results.rankings := map ranking (JSMap.values ranked);
             Results.totalPlayers := JSMap.size (Race.players race);
             Results.finishedPlayers := Z.of_nat (length finishedPlayers);
             Results.duration := now - startTime |} in
        (race, [io_to (room (Race.id race)) (race_completed results)], returned)
    end.

(** [checkRaceCompletion]: the time test is reached only when somebody is
    still typing, and reads [race.startTime.getTime()] first. *)
Definition checkRaceCompletion (now : Z) (race : Race.t)
    : Race.t * list effect * completion :=
  let finishedPlayers := List.filter isFinished (Race.players race) in
  let totalPlayers := JSMap.size (Race.players race) in
  if Z.of_nat (length finishedPlayers) =? totalPlayers then endRace now race
  else
    match Race.mode race with
    | mode_words => (race, [], returned)
    | mode_time =>
        match Race.startTime race with
        | None => (race, [], threw)
        | Some startTime =>
            let limit :=
              match Race.duration race with
              | Some d => (d * 1000)%float
              | None => nan
              end in
            if (limit <=? Z2f (now - startTime))%float then endRace now race
            else (race, [], returned)
        end
    end.

Definition raceCreateSchema (data : RaceCreate.t) : bool :=
  (1 <=? Z.of_nat (String.length (RaceCreate.name data)))
  && (Z.of_nat (String.length (RaceCreate.name data)) <=? 50)
  && TestEvents.optional (TestEvents.between 15 300) (RaceCreate.duration data)
  && TestEvents.optional (TestEvents.between 10 200) (RaceCreate.wordCount data)
  && match RaceCreate.mode data with
     | mode_time => bool_decide (is_Some (RaceCreate.duration data))
     | mode_words => bool_decide (is_Some (RaceCreate.wordCount data))
     end
  && TestEvents.optional (TestEvents.between 2 20) (RaceCreate.maxPlayers data).

Definition raceProgressSchema (data : RaceProgress.t) : bool :=
  TestEvents.nonempty (RaceProgress.raceId data)
  && (0 <=? RaceProgress.position data)%float
  && (0 <=? RaceProgress.wpm data)%float
  && TestEvents.between 0 100 (RaceProgress.accuracy data)
  && (0 <=? RaceProgress.errors data)%float.

Definition raceFinishSchema (data : RaceFinish.t) : bool :=
  TestEvents.nonempty (RaceFinish.raceId data)
  && (0 <=? RaceFinish.wpm data)%float
  && TestEvents.between 0 100 (RaceFinish.accuracy data)
  && TestEvents.optional (TestEvents.between 0 100) (RaceFinish.consistency data)
  && (0 <=? RaceFinish.errors data)%float
  && (0 <=? RaceFinish.finishTime data)%float.

Definition raceMessageSchema (raceId text : string) : bool :=
  TestEvents.nonempty raceId
  && (1 <=? Z.of_nat (String.length text))
  && (Z.of_nat (String.length text) <=? 200).

(** Writes [race] back under its id. *)
Definition store (race : Race.t) (st : Server.t) : Server.t :=
  Server.set_races (<[Race.id race := race]> (Server.activeRaces st)) st.

(** [race:create]; [raceId] is what [generateSessionId] drew. The checks of
    [validateRaceConfig] repeat those of the schema. *)
Definition race_create (socket : Socket.t) (now : Z) (raceId : string)
    (data : RaceCreate.t) (st : Server.t) : Server.t * list effect :=
  let '(rateLimitResult, buckets) :=
    RateLimiter.checkGeneralRate (Socket.userId socket) now (Server.buckets st) in
  let st := Server.set_buckets buckets st in
  if negb (RateLimiter.allowed rateLimitResult) then
    (st, [emitRateLimitError socket (RateLimiter.retryAfter rateLimitResult)])
  else if negb (raceCreateSchema data) then
    (st, [emitError socket 2001 "VALIDATION_ERROR" "Invalid race creation data" NoDetails])
  else
    let creatorPlayer := Player.fresh (Socket.userId socket) (Socket.username socket) now in
    let race :=
      {| Race.id := raceId;
         Race.mode := RaceCreate.mode data;
         Race.duration := RaceCreate.duration data;
         Race.maxPlayers := default 5%float (RaceCreate.maxPlayers data);
         Race.createdAt := now;
         Race.status := waiting;
         Race.players := JSMap.set (Socket.userId socket) creatorPlayer [];
         Race.startTime := None;
         Race.endTime := None;
         Race.countdownStarted := false;
         Race.countdownInterval := None;
         Race.raceTimeout := false |} in
    (store race st,
     [socket_join (Socket.id socket) (room raceId);
      emit (Socket.id socket) (race_created (serializeRace race));
      emit (Socket.id socket) (race_joined (serializeRace race) creatorPlayer)]).

(** [race:join]. *)
Definition race_join (socket : Socket.t) (now : Z) (raceId : string)
    (st : Server.t) : Server.t * list effect :=
  let '(rateLimitResult, buckets) :=
    RateLimiter.checkGeneralRate (Socket.userId socket) now (Server.buckets st) in
  let st := Server.set_buckets buckets st in
  if negb (RateLimiter.allowed rateLimitResult) then
    (st, [emitRateLimitError socket (RateLimiter.retryAfter rateLimitResult)])
  else if negb (TestEvents.nonempty raceId) then
    (st, [emitError socket 2001 "VALIDATION_ERROR" "Invalid race join data" NoDetails])
  else
    match Server.activeRaces st !! raceId with
    | None => (st, [emitError socket 2001 "RACE_NOT_FOUND" "Race not found" NoDetails])
    | Some race =>
        if (Race.maxPlayers race <=? Z2f (JSMap.size (Race.players race)))%float then
          (st, [emitError socket 2002 "RACE_FULL" "Race is full" NoDetails])
        else if bool_decide (Race.status race = active) then
          (st, [emitError socket 2003 "RACE_STARTED" "Race has already started" NoDetails])
        else if bool_decide (Race.status race = finished) then
          (st, [emitError socket 2004 "RACE_FINISHED" "Race has finished" NoDetails])
        else
          match JSMap.get (Socket.userId socket) (Race.players race) with
          | Some existing =>
              (st, [socket_join (Socket.id socket) (room raceId);
                    emit (Socket.id socket) (race_joined (serializeRace race) existing)])
          | None =>
              let player := Player.fresh (Socket.userId socket) (Socket.username socket) now in
              let race :=
                Race.set_players (JSMap.set (Socket.userId socket) player (Race.players race))
                  race in
              let joined :=
                [socket_join (Socket.id socket) (room raceId);
                 emit (Socket.id socket) (race_joined (serializeRace race) player);
                 socket_to (Socket.id socket) (room raceId) (race_player_joined player)] in
              let '(race, started) :=
                if (2 <=? JSMap.size (Race.players race)) && negb (Race.countdownStarted race)
                then startRaceCountdown race
                else (race, []) in
              (Server.set_races (<[raceId := race]> (Server.activeRaces st)) st,
               joined ++ started)
          end
    end.

(** [race:leave] with a [raceId]. *)
Definition race_leave (socket : Socket.t) (raceId : string) (st : Server.t)
    : Server.t * list effect :=
  if negb (TestEvents.nonempty raceId) then
    (st, [emitError socket 2001 "VALIDATION_ERROR" "raceId is required" NoDetails])
  else
    match Server.activeRaces st !! raceId with
    | None => (st, [])
    | Some race =>
        if JSMap.has (Socket.userId socket) (Race.players race) then
          let race :=
            Race.set_players (JSMap.delete (Socket.userId socket) (Race.players race)) race in
          let races :=
            if JSMap.size (Race.players race) =? 0
            then delete raceId (Server.activeRaces st)
            else <[raceId := race]> (Server.activeRaces st) in
          (Server.set_races races st,
           [socket_leave (Socket.id socket) (room raceId);
            socket_to (Socket.id socket) (room raceId)
              (race_player_left (Socket.userId socket) (Socket.username socket))])
        else (st, [])
    end.

(** The five assignments [race:progress] makes to the player. *)
Definition updateProgress (data : RaceProgress.t) (p : Player.t) : Player.t :=
  {| Player.userId := Player.userId p; Player.username := Player.username p;
     Player.position := RaceProgress.position data;
     Player.wpm := RaceProgress.wpm data;
     Player.accuracy := RaceProgress.accuracy data;
     Player.errors := RaceProgress.errors data;
     Player.isFinished := RaceProgress.isFinished data;
     Player.finishTime := Player.finishTime p; Player.rank := Player.rank p;
     Player.consistency := Player.consistency p; Player.joinedAt := Player.joinedAt p |}.

(** The six assignments [race:finish] makes to the player. *)
Definition markFinished (data : RaceFinish.t) (p : Player.t) : Player.t :=
  {| Player.userId := Player.userId p; Player.username := Player.username p;
     Player.position := Player.position p;
     Player.wpm := RaceFinish.wpm data;
     Player.accuracy := RaceFinish.accuracy data;
     Player.errors := RaceFinish.errors data;
     Player.isFinished := true;
     Player.finishTime := Some (RaceFinish.finishTime data);
     Player.rank := Player.rank p;
     Player.consistency := RaceFinish.consistency data;
     Player.joinedAt := Player.joinedAt p |}.

Definition playerFinished (p : Player.t) : PlayerFinished.t :=
  {| PlayerFinished.playerId := Player.userId p;
     PlayerFinished.username := Player.username p;
     PlayerFinished.rank := Player.rank p;
     PlayerFinished.wpm := Player.wpm p;
     PlayerFinished.accuracy := Player.accuracy p;
     PlayerFinished.finishTime := Player.finishTime p |}.

(** [p.rank || (race.players.size + 1)]. *)
Definition rankOr (size : Z) (p : Player.t) : option Z :=
  match Player.rank p with
  | Some r => if r =? 0 then Some (size + 1) else Some r
  | None => Some (size + 1)
  end.

Definition progressUpdate (race : Race.t) : effect :=
  io_to (room (Race.id race))
    (race_progress_update
       (map (playerView (rankOr (JSMap.size (Race.players race))))
          (JSMap.values (Race.players race)))).

(** [a.findIndex(pred)]: -1 when nothing matches. *)
Fixpoint findIndex {A} (pred : A -> bool) (a : list A) : Z :=
  match a with
  | [] => -1
  | x :: a' =>
      if pred x then 0
      else let i := findIndex pred a' in if i <? 0 then -1 else i + 1
  end.

(** [race:progress]. *)
Definition race_progress (socket : Socket.t) (now : Z) (data : RaceProgress.t)
    (st : Server.t) : Server.t * list effect :=
  let '(rateLimitResult, buckets) :=
    RateLimiter.checkRaceProgressRate (Socket.userId socket) now (Server.buckets st) in
  let st := Server.set_buckets buckets st in
  let failed := emitError socket 5001 "SERVER_ERROR" "Failed to update progress" NoDetails in
  if negb (RateLimiter.allowed rateLimitResult) then
    (st, [emitRateLimitError socket (RateLimiter.retryAfter rateLimitResult)])
  else if negb (raceProgressSchema data) then
    (st, [emitError socket 2001 "VALIDATION_ERROR" "Invalid race progress data" NoDetails])
  else
    let raceId := RaceProgress.raceId data in
    let userId := Socket.userId socket in
    let put race := Server.set_races (<[raceId := race]> (Server.activeRaces st)) st in
    match Server.activeRaces st !! raceId with
    | None => (st, [emitError socket 2001 "RACE_NOT_FOUND" "Race not found" NoDetails])
    | Some race =>
        match JSMap.get userId (Race.players race) with
        | None => (st, [emitError socket 2005 "NOT_IN_RACE" "You are not in this race" NoDetails])
        | Some player =>
            if negb (bool_decide (Race.status race = active)) then (st, [])
            else
              let player := updateProgress data player in
              let race := Race.set_players (JSMap.set userId player (Race.players race)) race in
              if RaceProgress.isFinished data && falsy (Player.finishTime player) then
                match Race.startTime race with
                | None => (put race, [failed])
                | Some startTime =>
                    let player := Player.set_finishTime (Some (Z2f (now - startTime))) player in
                    let players := JSMap.set userId player (Race.players race) in
                    let finishedPlayers := sort byFinishTime (List.filter isFinished players) in
                    let player :=
                      Player.set_rank (Some (Z.of_nat (length finishedPlayers))) player in
                    let race := Race.set_players (JSMap.set userId player players) race in
                    let notify := io_to (room raceId) (race_player_finished (playerFinished player)) in
                    match checkRaceCompletion now race with
                    | (race, completed, returned) =>
                        (put race, notify :: completed ++ [progressUpdate race])
                    | (race, completed, threw) =>
                        (put race, notify :: completed ++ [failed])
                    end
                end
              else (put race, [progressUpdate race])
        end
    end.

(** [race:finish]: no rate check and no test of the race's status. *)
Definition race_finish (socket : Socket.t) (now : Z) (data : RaceFinish.t)
    (st : Server.t) : Server.t * list effect :=
  if negb (raceFinishSchema data) then
    (st, [emitError socket 2001 "VALIDATION_ERROR" "Invalid race finish data" NoDetails])
  else
    let raceId := RaceFinish.raceId data in
    let userId := Socket.userId socket in
    let put race := Server.set_races (<[raceId := race]> (Server.activeRaces st)) st in
    match Server.activeRaces st !! raceId with
    | None => (st, [emitError socket 2001 "RACE_NOT_FOUND" "Race not found" NoDetails])
    | Some race =>
        match JSMap.get userId (Race.players race) with
        | None => (st, [emitError socket 2005 "NOT_IN_RACE" "You are not in this race" NoDetails])
        | Some player =>
            if Player.isFinished player then (st, [])
            else
              let player := markFinished data player in
              let players := JSMap.set userId player (Race.players race) in
              let finishedPlayers := sort byFinishTime (List.filter isFinished players) in
              let player :=
                Player.set_rank
                  (Some (findIndex (fun e => String.eqb (Player.userId (snd e)) userId)
                           finishedPlayers + 1))
                  player in
              let race := Race.set_players (JSMap.set userId player players) race in
              let notify :=
                socket_to (Socket.id socket) (room raceId)
                  (race_player_finished (playerFinished player)) in
              match checkRaceCompletion now race with
              | (race, completed, returned) => (put race, notify :: completed)
              | (race, completed, threw) =>
                  (put race,
                   notify :: completed
                     ++ [emitError socket 5001 "SERVER_ERROR" "Failed to finish race" NoDetails])
              end
        end
    end.

(** [message.trim()], on the ASCII white space. *)
Definition is_white (a : Ascii.ascii) : bool :=
  let n := Z.of_nat (Ascii.nat_of_ascii a) in
  (n =? 32) || ((9 <=? n) && (n <=? 13)).

Fixpoint trimStart (s : string) : string :=
  match s with
  | String a s' => if is_white a then trimStart s' else s
  | EmptyString => EmptyString
  end.

Definition trim (s : string) : string :=
  String.rev (trimStart (String.rev (trimStart s))).

(** [race:message]. *)
Definition race_message (socket : Socket.t) (now : Z) (raceId text : string)
    (st : Server.t) : Server.t * list effect :=
  let '(rateLimitResult, buckets) :=
    RateLimiter.checkChatMessageRate (Socket.userId socket) now (Server.buckets st) in
  let st := Server.set_buckets buckets st in
  if negb (RateLimiter.allowed rateLimitResult) then
    (st, [emitRateLimitError socket (RateLimiter.retryAfter rateLimitResult)])
  else if negb (raceMessageSchema raceId text) then
    (st, [emitError socket 2001 "VALIDATION_ERROR" "Invalid message data" NoDetails])
  else
    match Server.activeRaces st !! raceId with
    | None => (st, [emitError socket 2001 "RACE_NOT_FOUND" "Race not found" NoDetails])
    | Some race =>
        if negb (JSMap.has (Socket.userId socket) (Race.players race)) then
          (st, [emitError socket 2005 "NOT_IN_RACE" "You are not in this race" NoDetails])
        else
          (st, [io_to (room raceId)
                  (race_message_received (Socket.username socket) (trim text) now)])
    end.

(** The race timeout's callback: [if (race.status === 'active') endRace(race, io)].
    It runs outside any [try]. *)
Definition raceTimeoutFired (now : Z) (race : Race.t) : Race.t * list effect :=
  if Race.raceTimeout race then
    let race := Race.set_raceTimeout false race in
    if bool_decide (Race.status race = active) then
      let '(race, effects, _) := endRace now race in (race, effects)
    else (race, [])
  else (race, []).

(** [cleanupUserSessions], on disconnect: the user's test sessions go, the
    user leaves every roster, and a race left empty is deleted. The order in
    which the registries are walked is not modelled. *)
Definition leaveOnDisconnect (userId : string) (race : Race.t) : option Race.t :=
  if JSMap.has userId (Race.players race) then
    let race := Race.set_players (JSMap.delete userId (Race.players race)) race in
    if JSMap.size (Race.players race) =? 0 then None else Some race
  else Some race.

Definition cleanupUserSessions (socket : Socket.t) (st : Server.t) : Server.t * list effect :=
  let userId := Socket.userId socket in
  let mine (e : string * TestSession.t) : Prop := TestSession.userId (snd e) = userId in
  let tests := filter (fun e => ¬ mine e) (Server.activeTestSessions st) in
  let races := omap (leaveOnDisconnect userId) (Server.activeRaces st) in
  let left :=
    map (fun e : string * TestSession.t => socket_leave (Socket.id socket) ("test:" +:+ fst e))
      (map_to_list (filter mine (Server.activeTestSessions st)))
    ++ flat_map
         (fun e : string * Race.t =>
            if JSMap.has userId (Race.players (snd e)) then
              [socket_leave (Socket.id socket) (room (fst e));
               socket_to (Socket.id socket) (room (fst e))
                 (race_player_left userId (Socket.username socket))]
            else [])
         (map_to_list (Server.activeRaces st)) in
  (Server.set_races races (Server.set_tests tests st), left).

(** What happens to the races: a client's request, a disconnect, or a
    timer of race [raceId] firing. *)
Inductive event :=
| Create (socket : Socket.t) (raceId : string) (data : RaceCreate.t)
| Join (socket : Socket.t) (raceId : string)
| Leave (socket : Socket.t) (raceId : string)
| Progress (socket : Socket.t) (data : RaceProgress.t)
| Finish (socket : Socket.t) (data : RaceFinish.t)
| Message (socket : Socket.t) (raceId text : string)
| Disconnect (socket : Socket.t)
| CountdownTick (raceId : string)
| RaceTimeout (raceId : string).

(** A timer holds the race object itself; a race no longer in the registry
    is invisible to every handler, so its timers are left out. *)
Definition onTimer (f : Race.t -> Race.t * list effect) (raceId : string)
    (st : Server.t) : Server.t * list effect :=
  match Server.activeRaces st !! raceId with
  | Some race =>
      let '(race, effects) := f race in
      (Server.set_races (<[raceId := race]> (Server.activeRaces st)) st, effects)
  | None => (st, [])
  end.

Definition step (now : Z) (ev : event) (st : Server.t) : Server.t * list effect :=
  match ev with
  | Create socket raceId data => race_create socket now raceId data st
  | Join socket raceId => race_join socket now raceId st
  | Leave socket raceId => race_leave socket raceId st
  | Progress socket data => race_progress socket now data st
  | Finish socket data => race_finish socket now data st
  | Message socket raceId text => race_message socket now raceId text st
  | Disconnect socket => cleanupUserSessions socket st
  | CountdownTick raceId => onTimer (countdownTick now) raceId st
  | RaceTimeout raceId => onTimer (raceTimeoutFired now) raceId st
  end.

Fixpoint run (evs : list (Z * event)) (st : Server.t) : Server.t * list effect :=
  match evs with
  | [] => (st, [])
  | (now, ev) :: evs' =>
      let '(st', out) := step now ev st in
      let '(st'', out') := run evs' st' in
      (st'', out ++ out')
  end.

(** The status of race [raceId] after each event of a run ([None] while it
    is not in the registry). *)
Fixpoint statusTrace (raceId : string) (evs : list (Z * event)) (st : Server.t)
    : list (option status_t) :=
  match evs with
  | [] => []
  | (now, ev) :: evs' =>
      let st' := fst (step now ev st) in
      (Race.status <$> Server.activeRaces st' !! raceId) :: statusTrace raceId evs' st'
  end.

(** A roster as a [Map] can be: at least one entry, no key twice. *)
Definition wellFormed (race : Race.t) : Prop :=
  Race.players race <> [] /\ NoDup (JSMap.keys (Race.players race)).

(** Every race of the registry has a well-formed roster. *)
Definition rostersWellFormed (races : gmap string Race.t) : Prop :=
  forall id race, races !! id = Some race -> wellFormed race.


(** [ev] is a [race:create] that draws [raceId]. *)
Definition creates (raceId : string) (ev : event) : bool :=
  match ev with
  | Create _ raceId' _ => String.eqb raceId' raceId
  | _ => false
  end.






(** The [isFinished] flag and the finish time of player [userId] of race
    [raceId] after each event of a run. *)
Fixpoint playerTrace (raceId userId : string) (evs : list (Z * event)) (st : Server.t)
    : list (option (bool * option float)) :=
  match evs with
  | [] => []
  | (now, ev) :: evs' =>
      let st' := fst (step now ev st) in
      ((fun p => (Player.isFinished p, Player.finishTime p))
         <$> (Server.activeRaces st' !! raceId
                ≫= fun race => JSMap.get userId (Race.players race)))
        :: playerTrace raceId userId evs' st'
  end.

End RaceEvents.

(** ** The specification's formulas *)

Module Spec.
Import JS.

(** wpm as the specification words it: round((correct / 5) / (elapsed_ms /
    60000)) with [correct] the number of keystrokes judged correct, and 0
    for an empty log or no elapsed time. *)
Definition wpm (keystrokes : list SocketHelpers.keystroke) (elapsed_ms : Z) : float :=
  if (Z.of_nat (length keystrokes) =? 0) || (elapsed_ms =? 0) then 0%float
  else
    Math_round
      ((Z2f (Z.of_nat (length (List.filter SocketHelpers.correct keystrokes))) / 5)
       / (Z2f elapsed_ms / 60000))%float.

(** wpm as the code has it: every keystroke of the log counts, [n] of
    them, and the result is kept non-negative:
    max(0, round((n / 5) / (elapsed_ms / 60000))), and 0 when no time has
    elapsed. *)
Definition wpm_of (n elapsed_ms : Z) : float :=
  if elapsed_ms <=? 0 then 0%float
  else Math_max 0 (Math_round ((Z2f n / 5) / (Z2f elapsed_ms / 60000))%float).

(** Consistency, formula by formula. The windowed wpm samples: window [i]
    is the two seconds from [2000 i] ms; it counts the keystrokes whose
    (client) timestamp falls in it, and gives the sample
    (count / 5) / (2000 / 60000) when it holds any. The windows are those
    that start before the elapsed time. *)
Definition inWindow (i : nat) (k : SocketHelpers.keystroke) : bool :=
  (Z2f (2000 * Z.of_nat i) <=? SocketHelpers.timestamp k)%float
  && (SocketHelpers.timestamp k <? Z2f (2000 * Z.of_nat i + 2000))%float.

Definition sample (keystrokes : list SocketHelpers.keystroke) (i : nat) : option float :=
  match length (List.filter (inWindow i) keystrokes) with
  | O => None
  | S _ as count => Some ((Z2f (Z.of_nat count) / 5) / (2000 / 60000))%float
  end.

Definition windowCount (elapsed_ms : Z) : nat := Z.to_nat ((elapsed_ms + 1999) / 2000).

Definition samples (keystrokes : list SocketHelpers.keystroke) (elapsed_ms : Z) : list float :=
  omap (sample keystrokes) (seq 0 (windowCount elapsed_ms)).

(** x1 + x2 + ... + xn, added from the left, starting from [acc]. *)
Fixpoint sum_from (acc : float) (xs : list float) : float :=
  match xs with
  | [] => acc
  | x :: xs' => sum_from (acc + x)%float xs'
  end.

Definition sum (xs : list float) : float := sum_from 0 xs.

(** Mean, standard deviation and coefficient of variation of the samples;
    the coefficient is 1 when the mean is not positive. *)
Definition mu (xs : list float) : float := (sum xs / Z2f (Z.of_nat (length xs)))%float.

Definition sigma (xs : list float) : float :=
  PrimFloat.sqrt
    (sum (map (fun x => (x - mu xs) * (x - mu xs))%float xs) / Z2f (Z.of_nat (length xs)))%float.

Definition CV (xs : list float) : float :=
  if (0 <? mu xs)%float then (sigma xs / mu xs)%float else 1%float.

(** Consistency: max(0, min(100, round(100 - 100 CV))) over the samples,
    and 0 with fewer than 10 keystrokes, no elapsed time or fewer than 2
    samples. *)
Definition consistency (keystrokes : list SocketHelpers.keystroke) (elapsed_ms : Z) : float :=
  if (Z.of_nat (length keystrokes) <? 10) || (elapsed_ms <=? 0)
     || (Z.of_nat (length (samples keystrokes elapsed_ms)) <? 2)
  then 0%float
  else
    Math_max 0 (Math_min 100 (Math_round (100 - CV (samples keystrokes elapsed_ms) * 100)%float)).

End Spec.

(** ** Scenarios

    Concrete sockets, payloads and event logs the properties below are
    evaluated on. *)

Module Scenario.
Import RateLimiter.

Definition alice : Socket.t :=
  {| Socket.id := "s1"; Socket.userId := "alice"; Socket.username := "Alice" |}.

Definition bob : Socket.t :=
  {| Socket.id := "s2"; Socket.userId := "bob"; Socket.username := "Bob" |}.

Definition keystrokeCall (now : Z) : call :=
  {| call_key := "alice"; call_type := keystroke; call_now := now |}.


(** Alice's buckets after 20 keystrokes at time 0: the keystroke bucket is
    empty. *)
Definition drained : Server.t :=
  Server.set_buckets (snd (run (map (fun _ => keystrokeCall 0) (seq 0 20)) ∅)) Server.init.

(** A keystroke of Alice on test [T]. *)
Definition keystrokeA : Keystroke.t :=
  {| Keystroke.testId := "T"; Keystroke.timestamp := 0; Keystroke.key := "a";
     Keystroke.correct := true; Keystroke.position := 0;
     Keystroke.currentText := None |}.

(** A keystroke typed at [t] ms, judged [c] by the client. *)
Definition typed (t : Z) (c : bool) : SocketHelpers.keystroke :=
  {| SocketHelpers.timestamp := JS.Z2f t; SocketHelpers.key := "a";
     SocketHelpers.correct := c; SocketHelpers.position := 0;
     SocketHelpers.currentText := EmptyString; SocketHelpers.serverTimestamp := t |}.

(** Ten keystrokes, one every 400 ms, none of them correct. *)
Definition tenWrong : list SocketHelpers.keystroke :=
  map (fun i => typed (400 * Z.of_nat i) false) (seq 0 10).

Definition joinT : TestEvents.request :=
  TestEvents.Join "the of and to a in is it you that"
    {| TestJoin.testId := "T"; TestJoin.mode := None; TestJoin.duration := None;
       TestJoin.wordCount := None |}.

Definition keyT (claim : bool) : TestEvents.request :=
  TestEvents.Key
    {| Keystroke.testId := "T"; Keystroke.timestamp := 0; Keystroke.key := "t";
       Keystroke.correct := claim; Keystroke.position := 0;
       Keystroke.currentText := None |}.

Definition completedT (wpm accuracy : float) : TestEvents.request :=
  TestEvents.Completed
    {| TestCompleted.testId := "T";
       TestCompleted.finalStats :=
         {| FinalStats.wpm := wpm; FinalStats.accuracy := accuracy;
            FinalStats.consistency := None; FinalStats.errors := 0 |};
       TestCompleted.timeElapsed := 3000 |}.

(** Two sessions with the same keys at the same times, each handler run
    within one tick of the clock; the clients differ in what they claim. *)
Definition modestRun : list (Clock.t * TestEvents.request) :=
  [(Clock.instant 0, joinT); (Clock.instant 1000, keyT false);
   (Clock.instant 2000, keyT false); (Clock.instant 3000, completedT 24 0)].

Definition boastfulRun : list (Clock.t * TestEvents.request) :=
  [(Clock.instant 0, joinT); (Clock.instant 1000, keyT true);
   (Clock.instant 2000, keyT true); (Clock.instant 3000, completedT 250 100)].

(** Alice's test [T] after her first keystroke, and its session. *)
Definition startedT : Server.t :=
  fst (TestEvents.run alice [(Clock.instant 0, joinT); (Clock.instant 1000, keyT true)]
         Server.init).

Definition sessionT : TestSession.t :=
  default
    {| TestSession.testId := "T"; TestSession.userId := "alice";
       TestSession.mode := mode_time; TestSession.duration := 60;
       TestSession.wordCount := 50; TestSession.words := "the";
       TestSession.keystrokes := []; TestSession.startTime := None;
       TestSession.endTime := None; TestSession.isCompleted := false;
       TestSession.createdAt := 0; TestSession.lastActivity := 0 |}
    (Server.activeTestSessions startedT !! "T").

(** A words race for two. *)
Definition duel : RaceCreate.t :=
  {| RaceCreate.name := "duel"; RaceCreate.mode := mode_words;
     RaceCreate.duration := None; RaceCreate.wordCount := Some 10%float;
     RaceCreate.maxPlayers := Some 2%float |}.

(** Alice creates race [R], Bob joins: the roster is full and the
    countdown runs. *)
Definition fullRace : Server.t :=
  fst (RaceEvents.run [(0, RaceEvents.Create alice "R" duel);
                       (1000, RaceEvents.Join bob "R")] Server.init).

(** The six firings of the countdown interval, one per second from [t]. *)
Definition ticks (t : Z) : list (Z * RaceEvents.event) :=
  map (fun i => (t + 1000 * Z.of_nat i, RaceEvents.CountdownTick "R")) (seq 0 6).

Definition finishR (finishTime : float) : RaceFinish.t :=
  {| RaceFinish.raceId := "R"; RaceFinish.wpm := 80; RaceFinish.accuracy := 99;
     RaceFinish.consistency := None; RaceFinish.errors := 1;
     RaceFinish.finishTime := finishTime |}.

Definition progressR (isFinished : bool) : RaceProgress.t :=
  {| RaceProgress.raceId := "R"; RaceProgress.position := 10; RaceProgress.wpm := 50;
     RaceProgress.accuracy := 90; RaceProgress.errors := 0;
     RaceProgress.isFinished := isFinished |}.

(** Race [R] of a state, and a player of it. *)
Definition raceR (st : Server.t) : Race.t :=
  default
    {| Race.id := "R"; Race.mode := mode_words; Race.duration := None;
       Race.maxPlayers := 2; Race.createdAt := 0; Race.status := waiting;
       Race.players := []; Race.startTime := None; Race.endTime := None;
       Race.countdownStarted := false; Race.countdownInterval := None;
       Race.raceTimeout := false |}
    (Server.activeRaces st !! "R").

Definition playerR (userId : string) (st : Server.t) : Player.t :=
  default (Player.fresh userId userId 0) (JSMap.get userId (Race.players (raceR st))).

(** Race [R] running: both players in, the countdown over. *)
Definition activeRace : Server.t :=
  fst (RaceEvents.run (ticks 2000) fullRace).

(** Both players send [race:finish] while the countdown runs; the
    countdown then ends and, five minutes later, the race timeout fires. *)
Definition finishedEarly : list (Z * RaceEvents.event) :=
  [(0, RaceEvents.Create alice "R" duel);
   (1000, RaceEvents.Join bob "R");
   (1500, RaceEvents.Finish alice (finishR 10));
   (1600, RaceEvents.Finish bob (finishR 20))]
  ++ ticks 2000
  ++ [(307000, RaceEvents.RaceTimeout "R")].

(** In the running race Alice reports that she finished, then that she has
    not, then sends [race:finish]. *)
Definition finishedTwice : list (Z * RaceEvents.event) :=
  [(0, RaceEvents.Create alice "R" duel);
   (1000, RaceEvents.Join bob "R")]
  ++ ticks 2000
  ++ [(20000, RaceEvents.Progress alice (progressR true));
      (21000, RaceEvents.Progress alice (progressR false));
      (22000, RaceEvents.Finish alice (finishR 99))].

(** Alice alone in race [R] while its countdown runs: Bob joined, then
    left. *)
Definition aliceAlone : list (Z * RaceEvents.event) :=
  [(0, RaceEvents.Create alice "R" duel);
   (1000, RaceEvents.Join bob "R");
   (1500, RaceEvents.Leave bob "R")].

Definition carol : Socket.t :=
  {| Socket.id := "s3"; Socket.userId := "carol"; Socket.username := "Carol" |}.

End Scenario.

(** * More of the socket layer

    The validators of [socketHelpers.js], the limiter's statistics, and
    the vocabulary in which the lives of test sessions and races are
    described. *)

(** ** socketHelpers.js: the validators *)

Module Validators.

(** A JavaScript value, as far as [typeof] and the comparisons of the
    validators tell values apart. *)
Inductive value :=
| undefined
| null
| str (s : string)
| number (n : float)
| boolean (b : bool)
| object.

(** [v === undefined || v === null]. *)
Definition missing (v : value) : bool :=
  match v with undefined | null => true | _ => false end.

(** The object [validateKeystroke] is handed, by the five fields it
    reads. *)
Record keystrokeObject := {
  ko_testId : value;
  ko_timestamp : value;
  ko_key : value;
  ko_correct : value;
  ko_position : value
}.

Inductive validation := valid | invalid (error : string).

(** The [for (const field of required)] loop: the first field that is
    missing. *)
Fixpoint firstMissing (fields : list (string * value)) : option string :=
  match fields with
  | [] => None
  | (field, v) :: fields' => if missing v then Some field else firstMissing fields'
  end.

(** [typeof v !== 'number' || v < 0]. *)
Definition notNumberOrNegative (v : value) : bool :=
  match v with
  | number n => (n <? 0)%float
  | _ => true
  end.

Definition validateKeystroke (keystroke : keystrokeObject) : validation :=
  match firstMissing [("testId", ko_testId keystroke); ("timestamp", ko_timestamp keystroke);
                      ("key", ko_key keystroke); ("correct", ko_correct keystroke);
                      ("position", ko_position keystroke)] with
  | Some field => invalid ("Missing required field: " +:+ field)
  | None =>
      if negb match ko_testId keystroke with str _ => true | _ => false end then
        invalid "testId must be a string"
      else if notNumberOrNegative (ko_timestamp keystroke) then
        invalid "timestamp must be a positive number"
      else if match ko_key keystroke with
              | str s => negb (Z.of_nat (String.length s) =? 1)
              | _ => true
              end then
        invalid "key must be a single character string"
      else if negb match ko_correct keystroke with boolean _ => true | _ => false end then
        invalid "correct must be a boolean"
      else if notNumberOrNegative (ko_position keystroke) then
        invalid "position must be a non-negative number"
      else valid
  end.

(** The configuration [validateRaceConfig] reads: the value of the race
    creation schema, its [mode] as the string it is. *)
Record raceConfig := {
  rc_name : string;
  rc_mode : string;
  rc_duration : option float;
  rc_wordCount : option float;
  rc_maxPlayers : option float
}.

(** The five messages of [validateRaceConfig]. *)
Inductive configError :=
| NameError          (* Race name must be a string (max 50 characters) *)
| ModeError          (* Race mode must be either time or words *)
| DurationError      (* Race duration must be between 15 and 300 seconds *)
| WordCountError     (* Word count must be between 10 and 200 *)
| MaxPlayersError.   (* Max players must be between 2 and 20 *)

(** [!x || x < lo || x > hi] on an optional number. *)
Definition outside (lo hi : float) (x : option float) : bool :=
  match x with
  | Some v => is_nan v || is_zero v || (v <? lo)%float || (hi <? v)%float
  | None => true
  end.

Definition validateRaceConfig (config : raceConfig) : list configError :=
  let errors := [] in
  let errors :=
    if String.eqb (rc_name config) EmptyString
       || (50 <? Z.of_nat (String.length (rc_name config)))
    then errors ++ [NameError] else errors in
  let errors :=
    if negb (String.eqb (rc_mode config) "time" || String.eqb (rc_mode config) "words")
    then errors ++ [ModeError] else errors in
  let errors :=
    if String.eqb (rc_mode config) "time" && outside 15 300 (rc_duration config)
    then errors ++ [DurationError] else errors in
  let errors :=
    if String.eqb (rc_mode config) "words" && outside 10 200 (rc_wordCount config)
    then errors ++ [WordCountError] else errors in
  let errors :=
    if outside 2 20 (rc_maxPlayers config)
    then errors ++ [MaxPlayersError] else errors in
  errors.

Definition modeName (m : mode_t) : string :=
  match m with mode_time => "time" | mode_words => "words" end.

(** The [value] of [raceCreateSchema.validate(data)], which [race:create]
    hands to [validateRaceConfig]: [maxPlayers] defaults to 5. *)
Definition raceConfigOf (data : RaceCreate.t) : raceConfig :=
  {| rc_name := RaceCreate.name data;
     rc_mode := modeName (RaceCreate.mode data);
     rc_duration := RaceCreate.duration data;
     rc_wordCount := RaceCreate.wordCount data;
     rc_maxPlayers := Some (default 5%float (RaceCreate.maxPlayers data)) |}.

End Validators.

(** ** rateLimiter.js: statistics, and the view from one identity *)

Module Monitoring.
Import RateLimiter.

(** [key.split(':')[0]]: what precedes the first colon. *)
Fixpoint beforeColon (s : string) : string :=
  match s with
  | EmptyString => EmptyString
  | String a s' =>
      if Z.of_nat (Ascii.nat_of_ascii a) =? 58 then EmptyString
      else String a (beforeColon s')
  end.

Record bucketStats := { totalBuckets : Z; bucketsByType : gmap string Z }.

(** [getStats]. The counts do not depend on the order in which the keys
    are visited. [bucketsByType] is a plain object: the model covers the
    types that are no property of [Object.prototype], as the five class
    names are. *)
Definition getStats (buckets : gmap string Bucket.t) : bucketStats :=
  {| totalBuckets := Z.of_nat (size buckets);
     bucketsByType :=
       foldr (fun key byType =>
                let type := beforeColon key in
                <[type := default 0 (byType !! type) + 1]> byType)
         ∅ (map fst (map_to_list buckets)) |}.

(** How many of the keys [l] have type [t]. *)
Definition typeCount (t : string) (l : list string) : Z :=
  Z.of_nat (length (List.filter (fun k => String.eqb (beforeColon k) t) l)).

(** The identities a log checks on class [ty], each once. *)
Definition identities (ty : limitType) (calls : list call) : list string :=
  remove_dups (map call_key (List.filter (fun c => bool_decide (call_type c = ty)) calls)).

(** The decisions a replay gave to one identity on one class, with their
    times. *)
Definition decisionsOf (key : string) (ty : limitType) (decisions : list (call * bool))
    : list (Z * bool) :=
  map (fun d : call * bool => (call_now (fst d), snd d))
    (List.filter (fun d : call * bool => hits key ty (fst d)) decisions).

(** A bucket of some class, under that class's key, holding between 0 and
    capacity - 1 tokens. *)
Definition inRange (k : string) (b : Bucket.t) : Prop :=
  exists ty key, k = bucketKey ty key /\ 0 <= Bucket.tokens b < Limit.tokens (limits ty).

End Monitoring.

(** ** The life of a test session *)

Module TestLife.
Import TestEvents.

(** [s'] is [s] later in its life: the same test of the same user, the
    keystroke log only longer, the start time kept once set, and nothing
    changed once completed. *)
Definition extends (s s' : TestSession.t) : Prop :=
  TestSession.testId s' = TestSession.testId s
  /\ TestSession.userId s' = TestSession.userId s
  /\ TestSession.mode s' = TestSession.mode s
  /\ TestSession.words s' = TestSession.words s
  /\ (exists more, TestSession.keystrokes s' = TestSession.keystrokes s ++ more)
  /\ (forall t, TestSession.startTime s = Some t -> TestSession.startTime s' = Some t)
  /\ (TestSession.isCompleted s = true -> s' = s).

(** [req] is a [test:leave] of test [testId]. *)
Definition leaves (testId : string) (req : request) : bool :=
  match req with
  | Leave testId' => String.eqb testId' testId
  | _ => false
  end.

(** The wpm and the consistency a metric message carries. *)
Definition wpmOf (m : message) : option float :=
  match m with
  | test_stats_update u => Some (StatsUpdate.wpm u)
  | test_result r => Some (TestResult.wpm r)
  | _ => None
  end.

Definition consistencyOf (m : message) : option float :=
  match m with
  | test_stats_update u => Some (StatsUpdate.consistency u)
  | test_result r => Some (TestResult.consistency r)
  | _ => None
  end.

End TestLife.

(** ** The life of a race *)

Module RaceLife.
Import RaceEvents.

(** Racing or over: the status in which no join is taken. *)
Definition started (race : Race.t) : Prop :=
  Race.status race = active \/ Race.status race = finished.

(** How far a race has come: waiting, counting down, started. *)
Definition stage (race : Race.t) : Z :=
  match Race.status race with
  | waiting => 0
  | countdown => 1
  | active | finished => 2
  end.

(** The mutations the handlers and the timers make to a race object. *)
Inductive op (r : Race.t) : Race.t -> Prop :=
| op_join socket now :
    Race.status r <> active -> Race.status r <> finished ->
    (Race.maxPlayers r <=? JS.Z2f (JSMap.size (Race.players r)))%float = false ->
    JSMap.get (Socket.userId socket) (Race.players r) = None ->
    op r (Race.set_players
            (JSMap.set (Socket.userId socket)
               (Player.fresh (Socket.userId socket) (Socket.username socket) now)
               (Race.players r)) r)
| op_countdown : op r (fst (startRaceCountdown r))
| op_update k p p' :
    JSMap.get k (Race.players r) = Some p ->
    Player.userId p' = Player.userId p ->
    op r (Race.set_players (JSMap.set k p' (Race.players r)) r)
| op_leave k : op r (Race.set_players (JSMap.delete k (Race.players r)) r)
| op_end now : op r (fst (fst (endRace now r)))
| op_tick now : op r (fst (countdownTick now r))
| op_timeout : op r (Race.set_raceTimeout false r).

(** What a request or a timer does to the registry: nothing, one race
    changed by mutations as above, or one race deleted. *)
Definition registryStep (races races' : gmap string Race.t) : Prop :=
  races' = races
  \/ (exists id r r', races !! id = Some r /\ rtc op r r' /\ races' = <[id := r']> races)
  \/ (exists id, races' = delete id races).

(** The race [race:create] puts under [raceId]. *)
Definition created (raceId : string) (r : Race.t) : Prop :=
  Race.id r = raceId /\ Race.status r = waiting /\ Race.countdownStarted r = false
  /\ TestEvents.between 2 20 (Race.maxPlayers r) = true
  /\ exists socket now,
       Race.players r
       = [(Socket.userId socket,
           Player.fresh (Socket.userId socket) (Socket.username socket) now)].

(** A race as the registry holds it under [raceId]: its own id, a capacity
    the schema allows, a roster of which every smaller size passed the test
    of [race:join] ([size >= maxPlayers] was false of it), and every player
    stored under the player's own user id. *)
Definition sound (raceId : string) (r : Race.t) : Prop :=
  Race.id r = raceId
  /\ TestEvents.between 2 20 (Race.maxPlayers r) = true
  /\ (forall k, 1 <= k < JSMap.size (Race.players r) ->
                (Race.maxPlayers r <=? JS.Z2f k)%float = false)
  /\ Forall (fun e : string * Player.t => Player.userId (snd e) = fst e) (Race.players r).

(** [r'] is [r] later in its life. *)
Definition progresses (r r' : Race.t) : Prop :=
  Race.id r' = Race.id r
  /\ Race.maxPlayers r' = Race.maxPlayers r
  /\ Race.mode r' = Race.mode r
  /\ stage r <= stage r'
  /\ (Race.countdownStarted r = true -> Race.countdownStarted r' = true)
  /\ (started r ->
      forall k, In k (JSMap.keys (Race.players r')) -> In k (JSMap.keys (Race.players r))).

(** Who sends an event that only a member of the race may send. *)
Definition memberEvent (ev : event) : option Socket.t :=
  match ev with
  | Leave socket _ | Progress socket _ | Finish socket _ | Message socket _ _
  | Disconnect socket => Some socket
  | Create _ _ _ | Join _ _ | CountdownTick _ | RaceTimeout _ => None
  end.

(** The sender of an event that its handler checks against the rate
    limiter first, and the class it is checked on. *)
Definition throttleOf (ev : event) : option (Socket.t * RateLimiter.limitType) :=
  match ev with
  | Create socket _ _ | Join socket _ => Some (socket, RateLimiter.general)
  | Progress socket _ => Some (socket, RateLimiter.raceProgress)
  | Message socket _ _ => Some (socket, RateLimiter.chatMessage)
  | Leave _ _ | Finish _ _ | Disconnect _ | CountdownTick _ | RaceTimeout _ => None
  end.

(** An effect that only the connection [socket] sees: a message emitted
    to it, or its own subscription to a room. *)
Definition private (socket : Socket.t) (e : effect) : bool :=
  match e with
  | emit socketId _ | socket_join socketId _ => String.eqb socketId (Socket.id socket)
  | _ => false
  end.

(** The countdown interval firing at each of [times]. *)
Fixpoint tickAt (times : list Z) (race : Race.t) : Race.t * list effect :=
  match times with
  | [] => (race, [])
  | now :: times' =>
      let '(race, out) := countdownTick now race in
      let '(race, out') := tickAt times' race in
      (race, out ++ out')
  end.

End RaceLife.

(** ** More examples *)

Module Examples.
Import RateLimiter.

Definition chatCall (now : Z) : call :=
  {| call_key := "bob"; call_type := chatMessage; call_now := now |}.

(** Bob sends six chat messages at once, then one every twelve seconds. *)
Definition chatter : list call :=
  map (fun _ => chatCall 0) (seq 0 6)
  ++ map (fun i => chatCall (12000 * Z.of_nat i)) (seq 1 4).

(** Alice's twenty keystrokes at time 0, alone and after Bob's chatter. *)
Definition alone : list call := map (fun _ => Scenario.keystrokeCall 0) (seq 0 20).

Definition crowded : list call := chatter ++ alone.

(** Alice's keystroke bucket once the twenty are spent. *)
Definition spent : Bucket.t :=
  {| Bucket.tokens := 0; Bucket.lastRefill := 0; Bucket.createdAt := 0 |}.

(** A run of the keystroke handler during which the clock ticks: checked
    at 2000, measured at 2002, ended at 2003. *)
Definition slowClock : Clock.t :=
  {| Clock.checked := 2000; Clock.started := 2000; Clock.stamped := 2001;
     Clock.touched := 2001; Clock.measured := 2002; Clock.ended := 2003 |}.

(** The first keystroke's handler, the clock ticking once between the
    reading that sets the start time and the one the statistics take. *)
Definition firstTick : Clock.t :=
  {| Clock.checked := 1000; Clock.started := 1000; Clock.stamped := 1000;
     Clock.touched := 1000; Clock.measured := 1001; Clock.ended := 1001 |}.

(** Alice has joined test [T] and typed nothing yet. *)
Definition joinedT : Server.t :=
  fst (TestEvents.run Scenario.alice [(Clock.instant 0, Scenario.joinT)] Server.init).

Definition freshT : TestSession.t :=
  default Scenario.sessionT (Server.activeTestSessions joinedT !! "T").

(** Test [T] of the modest run, completed. *)
Definition completedT : Server.t :=
  fst (TestEvents.run Scenario.alice Scenario.modestRun Server.init).

Definition doneT : TestSession.t :=
  default Scenario.sessionT (Server.activeTestSessions completedT !! "T").

Definition completion : TestCompleted.t :=
  {| TestCompleted.testId := "T";
     TestCompleted.finalStats :=
       {| FinalStats.wpm := 300; FinalStats.accuracy := 100;
          FinalStats.consistency := None; FinalStats.errors := 0 |};
     TestCompleted.timeElapsed := 3000 |}.

Definition joinData : TestJoin.t :=
  {| TestJoin.testId := "T"; TestJoin.mode := None; TestJoin.duration := None;
     TestJoin.wordCount := None |}.

(** A time race with the default capacity of five. *)
Definition open5 : RaceCreate.t :=
  {| RaceCreate.name := "open"; RaceCreate.mode := mode_time;
     RaceCreate.duration := Some 60%float; RaceCreate.wordCount := None;
     RaceCreate.maxPlayers := None |}.

(** Alice creates race [R] for five and Bob joins: two of the five places
    are taken and the countdown runs; then the countdown is over. *)
Definition roomyRace : Server.t :=
  fst (RaceEvents.run [(0, RaceEvents.Create Scenario.alice "R" open5);
                       (1000, RaceEvents.Join Scenario.bob "R")] Server.init).

Definition roomyActive : Server.t :=
  fst (RaceEvents.run (Scenario.ticks 2000) roomyRace).







(** Race [R] as Alice created it, nobody else in. *)
Definition waitingRace : Server.t :=
  fst (RaceEvents.run [(0, RaceEvents.Create Scenario.alice "R" Scenario.duel)] Server.init).

(** The running race, Alice's ten progress tokens of this second spent. *)
Definition hammered : Server.t :=
  Server.set_buckets
    (snd (run (map (fun _ => {| call_key := "alice"; call_type := raceProgress;
                                call_now := 8000 |}) (seq 0 10)) ∅))
    Scenario.activeRace.

(** The running race ended at 9000, and Alice's entry in it. *)
Definition endedRace : Race.t :=
  fst (fst (RaceEvents.endRace 9000 (Scenario.raceR Scenario.activeRace))).

Definition aliceRanked : Player.t :=
  default (Player.fresh "alice" "Alice" 0) (JSMap.get "alice" (Race.players endedRace)).

End Examples.

(** * Properties *)

(** ** The rate limiter *)

Section RateLimiterFacts.
Import RateLimiter.

Lemma bucketKey_inj ty ty' k k' :
  bucketKey ty k = bucketKey ty' k' -> ty = ty' /\ k = k'.
Proof.
  unfold bucketKey.
  destruct ty, ty'; cbn; intros H; simplify_eq; done.
Qed.

Section OneBucket.
Variable l : Limit.t.
Hypothesis period_pos : 0 < period l.
Hypothesis capacity_pos : 0 < Limit.tokens l.

(** Tokens and refill time after the refill step of a check. *)
Definition refilled (now : Z) (b : Bucket.t) : Z :=
  if 0 <? (now - Bucket.lastRefill b) / period l
  then Z.min (Limit.tokens l) (Bucket.tokens b + (now - Bucket.lastRefill b) / period l)
  else Bucket.tokens b.

Lemma checkBucket_allowed now b :
  allowed (fst (checkBucket l now b)) = (0 <? refilled now b).
Proof.
  unfold checkBucket, refilled.
  destruct (0 <? (now - Bucket.lastRefill b) / period l); cbn;
    match goal with |- context [if ?c then _ else _] => destruct c end; reflexivity.
Qed.

Lemma checkBucket_tokens now b :
  Bucket.tokens (snd (checkBucket l now b))
  = if 0 <? refilled now b then refilled now b - 1 else refilled now b.
Proof.
  unfold checkBucket, refilled.
  destruct (0 <? (now - Bucket.lastRefill b) / period l); cbn;
    match goal with |- context [if ?c then _ else _] => destruct c end; reflexivity.
Qed.

Lemma checkBucket_lastRefill now b :
  Bucket.lastRefill (snd (checkBucket l now b))
  = if 0 <? (now - Bucket.lastRefill b) / period l then now else Bucket.lastRefill b.
Proof.
  unfold checkBucket.
  destruct (0 <? (now - Bucket.lastRefill b) / period l); cbn;
    match goal with |- context [if ?c then _ else _] => destruct c end; reflexivity.
Qed.

Lemma runBucket_cons now times ob :
  runBucket l (now :: times) ob
  = (now, allowed (fst (checkBucket l now (default (newBucket l now) ob))))
      :: runBucket l times (Some (snd (checkBucket l now (default (newBucket l now) ob)))).
Proof. cbn [runBucket]. destruct (checkBucket _ _ _); reflexivity. Qed.

Lemma acceptedBucket_cons lo width d ds :
  acceptedBucket lo width (d :: ds)
  = (if acceptedWithin lo width d then 1 else 0) + acceptedBucket lo width ds.
Proof.
  unfold acceptedBucket. cbn [List.filter].
  destruct (acceptedWithin lo width d); cbn [length]; lia.
Qed.

Lemma acceptedBucket_nonneg lo width ds : 0 <= acceptedBucket lo width ds.
Proof. unfold acceptedBucket. lia. Qed.

Lemma acceptedBucket_late lo width times ob :
  Forall (fun t => lo + width <= t) times ->
  acceptedBucket lo width (runBucket l times ob) = 0.
Proof.
  intros H. revert ob. induction H as [|t times Ht _ IH]; intros ob.
  - reflexivity.
  - rewrite runBucket_cons, acceptedBucket_cons, IH.
    unfold acceptedWithin. cbn [fst snd].
    replace (t <? lo + width) with false by lia.
    rewrite andb_false_r. reflexivity.
Qed.

Lemma div_sum_le a b : 0 <= a -> 0 <= b -> a / period l + b / period l <= (a + b) / period l.
Proof.
  intros Ha Hb. apply Z.div_le_lower_bound; [lia|].
  pose proof (Z.mul_div_le a (period l) period_pos).
  pose proof (Z.mul_div_le b (period l) period_pos). lia.
Qed.

(** What a bucket can still grant before [hi]: its tokens and the refills
    due until then. *)
Lemma potential lo width times b :
  StronglySorted Z.le times ->
  Forall (fun t => Bucket.lastRefill b <= t) times ->
  0 <= Bucket.tokens b ->
  acceptedBucket lo width (runBucket l times (Some b))
  <= Bucket.tokens b + Z.max 0 ((lo + width - 1 - Bucket.lastRefill b) / period l).
Proof.
  intros Hs. revert b. induction Hs as [|t times Hs IH Hle]; intros b Hlr Htok.
  - cbn. unfold acceptedBucket. cbn. lia.
  - apply Forall_cons in Hlr as [Ht Hlr].
    destruct (Z_lt_le_dec t (lo + width)) as [Hin|Hout].
    + rewrite runBucket_cons, acceptedBucket_cons.
      change (default (newBucket l t) (Some b)) with b.
      set (b' := snd (checkBucket l t b)).
      assert (Hk : 0 <= (t - Bucket.lastRefill b) / period l)
        by (apply Z.div_pos; lia).
      assert (Hsum := div_sum_le (t - Bucket.lastRefill b) (lo + width - 1 - t)
                        ltac:(lia) ltac:(lia)).
      replace (t - Bucket.lastRefill b + (lo + width - 1 - t))
        with (lo + width - 1 - Bucket.lastRefill b) in Hsum by lia.
      assert (Hrest : 0 <= (lo + width - 1 - t) / period l) by (apply Z.div_pos; lia).
      assert (Htok' : 0 <= Bucket.tokens b').
      { subst b'. rewrite checkBucket_tokens. unfold refilled.
        destruct (0 <? (t - Bucket.lastRefill b) / period l) eqn:E;
          match goal with |- context [if ?c then _ else _] => destruct c eqn:E' end; lia. }
      assert (Hlr' : Forall (fun t0 => Bucket.lastRefill b' <= t0) times).
      { subst b'. rewrite checkBucket_lastRefill.
        destruct (0 <? _); [exact Hle | exact Hlr]. }
      specialize (IH b' Hlr' Htok').
      unfold acceptedWithin. cbn [fst snd]. rewrite checkBucket_allowed.
      subst b'. rewrite checkBucket_tokens, checkBucket_lastRefill in IH.
      revert IH. unfold refilled.
      destruct (0 <? (t - Bucket.lastRefill b) / period l) eqn:E;
        match goal with |- context [if ?c then _ - 1 else _] => destruct c eqn:E' end;
        cbn [andb]; intros IH;
        repeat match goal with |- context [if ?c then _ else _] => destruct c end; lia.
    + rewrite acceptedBucket_late.
      * lia.
      * constructor; [lia|]. eapply Forall_impl; [exact Hle|]. cbn. intros; lia.
Qed.

Variables lo width : Z.
Hypothesis width_pos : 0 < width.

(** A bucket in the map has been checked at least once: it is never full. *)
Definition checked (times : list Z) (ob : option Bucket.t) : Prop :=
  match ob with
  | Some b =>
      0 <= Bucket.tokens b <= Limit.tokens l - 1
      /\ Forall (fun t => Bucket.lastRefill b <= t) times
  | None => True
  end.

Definition windowBound : Z :=
  Z.max (Limit.tokens l + (width - 1) / period l)
        (Limit.tokens l - 1 + (width + period l - 2) / period l).

Lemma checked_step t times ob :
  StronglySorted Z.le (t :: times) ->
  checked (t :: times) ob ->
  checked times (Some (snd (checkBucket l t (default (newBucket l t) ob)))).
Proof.
  intros Hs Hc. apply StronglySorted_inv in Hs as [_ Hle].
  assert (Hb : 0 <= Bucket.tokens (default (newBucket l t) ob) <= Limit.tokens l
               /\ Bucket.lastRefill (default (newBucket l t) ob) <= t
               /\ Forall (fun t0 => Bucket.lastRefill (default (newBucket l t) ob) <= t0) times).
  { destruct ob as [b|]; cbn in *.
    - destruct Hc as [? Hf]. apply Forall_cons in Hf as [? ?]. repeat split; auto; lia.
    - repeat split; try lia. exact Hle. }
  destruct Hb as (Htok & Hlr & Hf).
  set (b := default (newBucket l t) ob) in *. clearbody b.
  assert (Hk : 0 <= (t - Bucket.lastRefill b) / period l) by (apply Z.div_pos; lia).
  split.
  - rewrite checkBucket_tokens. unfold refilled.
    destruct (0 <? (t - Bucket.lastRefill b) / period l);
      match goal with |- context [if ?c then _ else _] => destruct c eqn:E end; lia.
  - rewrite checkBucket_lastRefill. destruct (0 <? _); [exact Hle | exact Hf].
Qed.

Lemma window_bound times ob :
  StronglySorted Z.le times ->
  checked times ob ->
  acceptedBucket lo width (runBucket l times ob) <= windowBound.
Proof.
  intros Hs. revert ob.
  assert (Hnn : 0 <= windowBound).
  { unfold windowBound. assert (0 <= (width - 1) / period l) by (apply Z.div_pos; lia). lia. }
  induction Hs as [|t times Hs IH Hle]; intros ob Hc.
  - cbn. exact Hnn.
  - pose proof (checked_step t times ob ltac:(constructor; assumption) Hc) as Hc'.
    destruct (Z_lt_le_dec t lo) as [Hbefore|Hlo].
    { rewrite runBucket_cons, acceptedBucket_cons.
      unfold acceptedWithin at 1. cbn [fst snd].
      replace (lo <=? t) with false by lia.
      rewrite andb_false_r. cbn [andb]. specialize (IH _ Hc'). lia. }
    destruct (Z_lt_le_dec t (lo + width)) as [Hin|Hout].
    2:{ rewrite acceptedBucket_late; [exact Hnn|].
        constructor; [lia|]. eapply Forall_impl; [exact Hle|]. cbn; intros; lia. }
    assert (Hmono : (lo + width - 1 - t) / period l <= (width - 1) / period l)
      by (apply Z.div_le_mono; lia).
    assert (Hrest : 0 <= (lo + width - 1 - t) / period l) by (apply Z.div_pos; lia).
    destruct ob as [b|].
    + destruct Hc as [Htok Hf]. apply Forall_cons in Hf as [Hlr Hf].
      destruct (0 <? (t - Bucket.lastRefill b) / period l) eqn:E.
      * (* a refill at [t]: at most a full bucket, then the refills of the window *)
        rewrite runBucket_cons, acceptedBucket_cons.
        change (default (newBucket l t) (Some b)) with b in *.
        destruct Hc' as [Htok' Hf'].
        pose proof (potential lo width times _ Hs Hf' ltac:(lia)) as Hp.
        rewrite checkBucket_lastRefill, E in Hp.
        unfold windowBound.
        destruct (acceptedWithin lo width _) eqn:Ha.
        -- unfold acceptedWithin in Ha. cbn [fst snd] in Ha.
           rewrite checkBucket_allowed in Ha.
           rewrite checkBucket_tokens in Hp, Htok'.
           destruct (0 <? refilled t b) eqn:Er; [|discriminate].
           unfold refilled in *. rewrite E in *. lia.
        -- rewrite checkBucket_tokens in Hp, Htok'.
           unfold refilled in *. rewrite E in *.
           destruct (0 <? _) in Hp, Htok'; lia.
      * (* no refill at [t]: the last one was less than a period ago *)
        pose proof (potential lo width (t :: times) b
                      ltac:(constructor; assumption)
                      ltac:(constructor; assumption) ltac:(lia)) as Hp.
        assert (t - Bucket.lastRefill b < period l).
        { apply Z.ltb_ge in E.
          destruct (Z_lt_le_dec (t - Bucket.lastRefill b) (period l)); [assumption|].
          assert (1 <= (t - Bucket.lastRefill b) / period l)
            by (apply Z.div_le_lower_bound; lia). lia. }
        assert ((lo + width - 1 - Bucket.lastRefill b) / period l
                <= (width + period l - 2) / period l) by (apply Z.div_le_mono; lia).
        assert (0 <= (width + period l - 2) / period l) by (apply Z.div_pos; lia).
        unfold windowBound. lia.
    + (* the check at [t] creates the bucket, full *)
      pose proof (potential lo width (t :: times) (newBucket l t)
                    ltac:(constructor; assumption)
                    ltac:(constructor; [cbn; lia | exact Hle]) ltac:(cbn; lia)) as Hp.
      cbn [newBucket Bucket.tokens Bucket.lastRefill] in Hp.
      assert (Heq : runBucket l (t :: times) None
                    = runBucket l (t :: times) (Some (newBucket l t))) by reflexivity.
      rewrite Heq. unfold windowBound. lia.
Qed.

End OneBucket.

Lemma StronglySorted_filter_map {A} (f : A -> Z) (p : A -> bool) (xs : list A) :
  StronglySorted Z.le (map f xs) -> StronglySorted Z.le (map f (List.filter p xs)).
Proof.
  induction xs as [|x xs IH]; cbn; intros H; [constructor|].
  apply StronglySorted_inv in H as [Hs Hle].
  destruct (p x); cbn; [constructor|]; auto.
  rewrite List.Forall_forall in *. intros y Hy. apply Hle.
  apply in_map_iff in Hy as (z & <- & Hz). apply filter_In in Hz as [Hz _].
  apply in_map. exact Hz.
Qed.

Lemma run_cons c calls bs :
  run (c :: calls) bs
  = ((c, allowed (fst (checkRate (call_key c) (call_type c) (call_now c) bs)))
       :: fst (run calls (snd (checkRate (call_key c) (call_type c) (call_now c) bs))),
     snd (run calls (snd (checkRate (call_key c) (call_type c) (call_now c) bs)))).
Proof.
  cbn [run]. destruct (checkRate _ _ _ _) as [res bs']. cbn [fst snd].
  destruct (run calls bs'). reflexivity.
Qed.

Lemma checkRate_bucket key ty now bs :
  checkRate key ty now bs
  = (fst (checkBucket (limits ty) now
            (default (newBucket (limits ty) now) (bs !! bucketKey ty key))),
     <[bucketKey ty key :=
         snd (checkBucket (limits ty) now
                (default (newBucket (limits ty) now) (bs !! bucketKey ty key)))]> bs).
Proof.
  unfold checkRate. destruct (bs !! bucketKey ty key); cbn [default];
    destruct (checkBucket _ _ _); reflexivity.
Qed.

Lemma checkRate_other key ty key' ty' now bs :
  (key, ty) <> (key', ty') ->
  snd (checkRate key' ty' now bs) !! bucketKey ty key = bs !! bucketKey ty key.
Proof.
  intros Hne. rewrite checkRate_bucket. cbn [snd].
  apply lookup_insert_ne. intros H. apply bucketKey_inj in H as [? ?]. congruence.
Qed.

Lemma accepted_in_cons key ty lo width d ds :
  accepted_in key ty lo width (d :: ds)
  = (if snd d && hits key ty (fst d) && (lo <=? call_now (fst d))
          && (call_now (fst d) <? lo + width)
     then 1 else 0) + accepted_in key ty lo width ds.
Proof.
  unfold accepted_in, hits. cbn [List.filter]. rewrite !andb_assoc.
  destruct (_ && _ && _ && _ && _); cbn [length]; lia.
Qed.

(** The decisions on one identity's class are those of its bucket alone. *)
Lemma accepted_in_bucket key ty lo width calls bs :
  accepted_in key ty lo width (fst (run calls bs))
  = acceptedBucket lo width
      (runBucket (limits ty) (timesOf key ty calls) (bs !! bucketKey ty key)).
Proof.
  revert bs. induction calls as [|c calls IH]; intros bs; [reflexivity|].
  rewrite run_cons. cbn [fst]. rewrite accepted_in_cons, IH. cbn [fst snd].
  unfold timesOf. cbn [List.filter].
  destruct (hits key ty c) eqn:Eh.
  - unfold hits in Eh. apply andb_true_iff in Eh as [Ek Et].
    apply bool_decide_eq_true in Ek, Et. subst key ty. cbn [map].
    rewrite runBucket_cons, acceptedBucket_cons. unfold acceptedWithin at 1. cbn [fst snd].
    rewrite !checkRate_bucket. cbn [fst snd].
    rewrite lookup_insert_eq. rewrite !andb_true_r. reflexivity.
  - rewrite andb_false_r. cbn [andb].
    rewrite checkRate_other; [lia|].
    intros H. injection H as -> ->. unfold hits in Eh.
    rewrite !bool_decide_eq_true_2 in Eh by reflexivity. discriminate.
Qed.

End RateLimiterFacts.

Lemma nondecreasing_sorted times :
  RateLimiter.nondecreasing times = true -> StronglySorted Z.le times.
Proof.
  induction times as [|t times IH]; cbn; intros H; [constructor|].
  apply andb_true_iff in H as [Hall Hrest]. constructor; [auto|].
  rewrite forallb_forall in Hall. apply List.Forall_forall.
  intros x Hx. apply Z.leb_le, Hall, Hx.
Qed.





(** ** Typing statistics and the test session *)

Section StatsFacts.
Import JS SocketHelpers.

Lemma time_windows_enough fuel keystrokes timeElapsed windowStart windows extra :
  timeElapsed - windowStart <= windowSize * Z.of_nat fuel ->
  windows_loop (fuel + extra) keystrokes timeElapsed windowStart windows
  = windows_loop fuel keystrokes timeElapsed windowStart windows.
Proof.
  revert windowStart windows.
  induction fuel as [|fuel IH]; intros windowStart windows Hfuel.
  - cbn [Nat.add windows_loop]. destruct extra as [|extra]; [reflexivity|].
    cbn [windows_loop]. replace (windowStart <? timeElapsed) with false by lia. reflexivity.
  - cbn [Nat.add windows_loop]. destruct (windowStart <? timeElapsed) eqn:E; [|reflexivity].
    apply IH. unfold windowSize in *. lia.
Qed.

(** The loop's fuel is enough: with any more, the windows are the same. *)
Lemma time_windows_total keystrokes timeElapsed extra :
  windows_loop (loop_fuel timeElapsed + extra) keystrokes timeElapsed 0 []
  = time_windows keystrokes timeElapsed.
Proof.
  apply time_windows_enough. unfold loop_fuel, windowSize.
  destruct (Z_lt_le_dec timeElapsed 0) as [Hneg|Hpos].
  - lia.
  - pose proof (Z.mod_pos_bound timeElapsed 2000 ltac:(lia)).
    pose proof (Z.div_mod timeElapsed 2000 ltac:(lia)).
    assert (0 <= timeElapsed / 2000) by (apply Z.div_pos; lia).
    rewrite Z2Nat.id by lia. lia.
Qed.

Lemma same_length {A B} (f : A -> B) (xs ys : list A) :
  map f xs = map f ys -> length xs = length ys.
Proof. intros H. apply (f_equal length) in H. rewrite !length_map in H. exact H. Qed.

Lemma filter_length_ext {A} (p q : A -> bool) (xs ys : list A) :
  map p xs = map q ys -> length (List.filter p xs) = length (List.filter q ys).
Proof.
  revert ys. induction xs as [|x xs IH]; intros [|y ys] H; try discriminate; [reflexivity|].
  cbn in H. injection H as Hxy H. cbn [List.filter]. rewrite Hxy.
  destruct (q y); cbn [length]; rewrite (IH ys H); reflexivity.
Qed.

Lemma in_window_ext a b ks1 ks2 :
  map timestamp ks1 = map timestamp ks2 ->
  map (in_window a b) ks1 = map (in_window a b) ks2.
Proof.
  revert ks2. induction ks1 as [|k ks1 IH]; intros [|k2 ks2] H; try discriminate; [reflexivity|].
  cbn in H. injection H as Hk H. cbn [map]. unfold in_window at 1 3. rewrite Hk.
  f_equal. apply IH, H.
Qed.

Lemma windows_loop_ext fuel ks1 ks2 t start acc :
  map timestamp ks1 = map timestamp ks2 ->
  windows_loop fuel ks1 t start acc = windows_loop fuel ks2 t start acc.
Proof.
  intros H. revert start acc. induction fuel as [|fuel IH]; intros start acc; [reflexivity|].
  cbn [windows_loop]. destruct (start <? t); [|reflexivity].
  rewrite (filter_length_ext _ _ ks1 ks2 (in_window_ext _ _ _ _ H)). apply IH.
Qed.

(** The statistics read the log through its timestamps and its [correct]
    flags only. *)
Lemma calculateTypingStats_ext ks1 ks2 text1 text2 t :
  map timestamp ks1 = map timestamp ks2 ->
  map correct ks1 = map correct ks2 ->
  calculateTypingStats ks1 text1 t = calculateTypingStats ks2 text2 t.
Proof.
  intros Ht Hc. unfold calculateTypingStats, calculateConsistency, time_windows.
  rewrite (same_length _ _ _ Ht), (filter_length_ext _ _ _ _ Hc),
    (windows_loop_ext _ _ _ _ _ _ Ht).
  reflexivity.
Qed.

Lemma wpm_formula ks text t :
  wpm (calculateTypingStats ks text t)
  = if (Z.of_nat (length ks) =? 0) || (t <=? 0) then 0%float
    else Math_max 0 (Math_round ((Z2f (Z.of_nat (length ks)) / 5) / (Z2f t / 60000))%float).
Proof.
  unfold calculateTypingStats.
  destruct ((Z.of_nat (length ks) =? 0) || (t <=? 0)) eqn:E; [reflexivity|].
  cbn [wpm]. apply orb_false_iff in E as [E _]. apply Z.eqb_neq in E.
  rewrite Z.max_l by lia. reflexivity.
Qed.

Lemma position_formula ks text t :
  stats_position (calculateTypingStats ks text t)
  = if (Z.of_nat (length ks) =? 0) || (t <=? 0) then None
    else Some (Z.of_nat (length ks)).
Proof. unfold calculateTypingStats. destruct (_ || _); reflexivity. Qed.

Lemma float_neq (x y : float) :
  (x =? y)%float = false -> (y =? y)%float = true -> x <> y.
Proof. intros Hxy Hy ->. rewrite Hy in Hxy. discriminate. Qed.

Ltac no_branch t :=
  lazymatch t with
  | context [if _ then _ else _] => fail
  | _ => idtac
  end.

(** Case analysis on every comparison of floats the goal branches on. *)
Ltac float_cases :=
  cbv;
  repeat (match goal with
          | |- context [PrimFloat.eqb ?a ?b] =>
              no_branch a; no_branch b; destruct (PrimFloat.eqb a b) eqn:?
          | |- context [PrimFloat.ltb ?a ?b] =>
              no_branch a; no_branch b; destruct (PrimFloat.ltb a b) eqn:?
          end; cbv);
  try reflexivity; try discriminate.

(** Clamping to [0, 100] twice is clamping once. *)
Lemma clamp_idem r :
  Math_max 0 (Math_min 100 (Math_max 0 (Math_min 100 r))) = Math_max 0 (Math_min 100 r).
Proof. float_cases. Qed.

(** The loop of [calculateConsistency] visits the windows 0, 1, ... that
    start before the elapsed time, and keeps a sample for each that holds
    a keystroke. *)
Lemma window_open (timeElapsed : Z) (i : nat) :
  2000 * Z.of_nat i < timeElapsed <-> (i < Spec.windowCount timeElapsed)%nat.
Proof.
  unfold Spec.windowCount.
  destruct (Z_lt_le_dec (timeElapsed + 1999) 0) as [Hneg|Hpos].
  - assert ((timeElapsed + 1999) / 2000 < 0) by (apply Z.div_lt_upper_bound; lia). lia.
  - pose proof (Z.div_mod (timeElapsed + 1999) 2000 ltac:(lia)).
    pose proof (Z.mod_pos_bound (timeElapsed + 1999) 2000 ltac:(lia)).
    assert (0 <= (timeElapsed + 1999) / 2000) by (apply Z.div_pos; lia).
    lia.
Qed.

Lemma omap_cons_sample keystrokes (i : nat) (l : list nat) :
  omap (Spec.sample keystrokes) (i :: l)
  = match Spec.sample keystrokes i with
    | Some w => w :: omap (Spec.sample keystrokes) l
    | None => omap (Spec.sample keystrokes) l
    end.
Proof. reflexivity. Qed.

Lemma windows_loop_samples fuel keystrokes timeElapsed i windows :
  windows_loop fuel keystrokes timeElapsed (2000 * Z.of_nat i) windows
  = windows
    ++ omap (Spec.sample keystrokes)
         (seq i (Nat.min fuel (Spec.windowCount timeElapsed - i))).
Proof.
  revert i windows. induction fuel as [|fuel IH]; intros i windows.
  - cbn. now rewrite app_nil_r.
  - cbn [windows_loop].
    destruct (2000 * Z.of_nat i <? timeElapsed) eqn:E.
    + apply Z.ltb_lt, window_open in E.
      replace (Spec.windowCount timeElapsed - i)%nat
        with (S (Spec.windowCount timeElapsed - S i))%nat by lia.
      change (in_window (2000 * Z.of_nat i) (2000 * Z.of_nat i + windowSize))
        with (Spec.inWindow i).
      replace (2000 * Z.of_nat i + windowSize) with (2000 * Z.of_nat (S i))
        by (unfold windowSize; lia).
      rewrite IH. cbn [Nat.min seq]. rewrite (omap_cons_sample keystrokes).
      assert (Spec.sample keystrokes i
              = match length (List.filter (Spec.inWindow i) keystrokes) with
                | O => None
                | S _ as count => Some ((Z2f (Z.of_nat count) / 5) / (2000 / 60000))%float
                end) as -> by reflexivity.
      destruct (length (List.filter (Spec.inWindow i) keystrokes)) as [|n] eqn:En.
      * reflexivity.
      * assert ((0 <? Z.of_nat (S n)) = true) as -> by (apply Z.ltb_lt; lia).
        rewrite <- app_assoc. reflexivity.
    + apply Z.ltb_ge in E.
      assert (~ (i < Spec.windowCount timeElapsed)%nat) as Hclosed
        by (rewrite <- window_open; lia).
      replace (Spec.windowCount timeElapsed - i)%nat with 0%nat by lia.
      rewrite Nat.min_0_r. cbn. now rewrite app_nil_r.
Qed.

Lemma time_windows_samples keystrokes timeElapsed :
  time_windows keystrokes timeElapsed = Spec.samples keystrokes timeElapsed.
Proof.
  unfold time_windows, Spec.samples.
  rewrite (windows_loop_samples _ keystrokes timeElapsed 0 []). cbn [app].
  rewrite Nat.sub_0_r, Nat.min_r; [reflexivity|].
  unfold loop_fuel, Spec.windowCount, windowSize.
  destruct (Z_lt_le_dec (timeElapsed + 1999) 0) as [Hneg|Hpos].
  - assert ((timeElapsed + 1999) / 2000 < 0) by (apply Z.div_lt_upper_bound; lia). lia.
  - pose proof (Z.div_mod (timeElapsed + 1999) 2000 ltac:(lia)).
    pose proof (Z.mod_pos_bound (timeElapsed + 1999) 2000 ltac:(lia)).
    pose proof (Z.div_mod timeElapsed 2000 ltac:(lia)).
    pose proof (Z.mod_pos_bound timeElapsed 2000 ltac:(lia)).
    lia.
Qed.

Lemma sum_from_fold (xs : list float) (acc : float) :
  fold_left (fun a b => a + b)%float xs acc = Spec.sum_from acc xs.
Proof. revert acc. induction xs as [|x xs IH]; intros acc; [reflexivity|apply IH]. Qed.

Lemma sum_from_squares (f : float -> float) (xs : list float) (acc : float) :
  fold_left (fun a x => a + f x)%float xs acc = Spec.sum_from acc (map f xs).
Proof. revert acc. induction xs as [|x xs IH]; intros acc; [reflexivity|apply IH]. Qed.

Lemma mean_of_mu windows : mean_of windows = Spec.mu windows.
Proof. unfold mean_of, Spec.mu, Spec.sum, reduce. now rewrite sum_from_fold. Qed.

(** The coefficient [calculateConsistency] computes is the standard
    deviation over the mean. *)
Lemma coefficientOfVariation_CV windows : coefficientOfVariation windows = Spec.CV windows.
Proof.
  unfold coefficientOfVariation, Spec.CV, Spec.sigma, variance_of, reduce, Math_pow2.
  rewrite !mean_of_mu, (sum_from_squares (fun x => (x - Spec.mu windows) * (x - Spec.mu windows))%float).
  reflexivity.
Qed.

(** The consistency [calculateTypingStats] returns is the formula over the
    windowed samples. *)
Lemma consistency_formula keystrokes text timeElapsed :
  consistency (calculateTypingStats keystrokes text timeElapsed)
  = Spec.consistency keystrokes timeElapsed.
Proof.
  unfold calculateTypingStats, calculateConsistency, Spec.consistency.
  rewrite time_windows_samples, coefficientOfVariation_CV.
  destruct (Z.of_nat (length keystrokes) =? 0) eqn:E0.
  - apply Z.eqb_eq in E0.
    replace (Z.of_nat (length keystrokes) <? 10) with true by lia. reflexivity.
  - cbn [orb]. destruct (timeElapsed <=? 0) eqn:Et.
    + rewrite orb_true_r. reflexivity.
    + rewrite orb_false_r. cbn [consistency].
      destruct (Z.of_nat (length keystrokes) <? 10); [reflexivity|]. cbn [orb].
      destruct (Z.of_nat (length (Spec.samples keystrokes timeElapsed)) <? 2);
        [reflexivity|].
      apply clamp_idem.
Qed.

Lemma wpm_of_formula ks text t :
  0 < Z.of_nat (length ks) ->
  wpm (calculateTypingStats ks text t) = Spec.wpm_of (Z.of_nat (length ks)) t.
Proof.
  intros Hn. rewrite wpm_formula. unfold Spec.wpm_of.
  replace (Z.of_nat (length ks) =? 0) with false by lia. reflexivity.
Qed.

End StatsFacts.

Section TestFacts.
Import TestEvents.

(** What an accepted keystroke sends: the statistics of the log with this
    keystroke, over the time since the start; and, when that completes the
    test, the result over the time up to the end. *)
Lemma test_keystroke_accepted socket clock data st s :
  RateLimiter.allowed
    (fst (RateLimiter.checkKeystrokeRate (Socket.userId socket) (Clock.checked clock)
            (Server.buckets st)))
    = true ->
  keystrokeSchema data = true ->
  Server.activeTestSessions st !! Keystroke.testId data = Some s ->
  TestSession.userId s = Socket.userId socket ->
  TestSession.isCompleted s = false ->
  let start := default (Clock.started clock) (TestSession.startTime s) in
  let log := TestSession.keystrokes s ++ [keystrokeData (Clock.stamped clock) data] in
  let elapsed := Clock.measured clock - start in
  let total := Clock.ended clock - start in
  let finalStats :=
    of_stats (SocketHelpers.calculateTypingStats log (TestSession.words s) total) in
  let result := resultOf s finalStats total (Clock.ended clock) in
  snd (test_keystroke socket clock data st)
  = emit (Socket.id socket)
      (test_stats_update
         (statsUpdateOf (Keystroke.testId data)
            (SocketHelpers.calculateTypingStats log (TestSession.words s) elapsed) elapsed))
    :: (if shouldComplete s (Keystroke.position data) elapsed then
          [emit (Socket.id socket) (test_result result);
           io_emit (friend_test_completed (Socket.userId socket) (Socket.username socket)
                      (FinalStats.wpm finalStats) (FinalStats.accuracy finalStats) result)]
        else []).
Proof.
  intros Hrate Hschema Hfound Howner Hopen. cbv zeta. unfold test_keystroke.
  destruct (RateLimiter.checkKeystrokeRate _ _ _) as [res bs]. cbn [fst] in Hrate.
  rewrite Hrate, Hschema. cbn [negb Server.set_buckets Server.activeTestSessions].
  rewrite Hfound, Howner, String.eqb_refl, Hopen. cbn [negb].
  match goal with
  | |- context [shouldComplete ?s' ?p ?e] =>
      change (shouldComplete s' p e) with (shouldComplete s p e)
  end.
  destruct (shouldComplete s _ _); [|reflexivity].
  unfold completeTestSession.
  cbn [TestSession.isCompleted TestSession.push_keystroke TestSession.set_startTime
       TestSession.complete TestSession.startTime].
  rewrite Hopen. reflexivity.
Qed.

(** What [test:completed] sends for a running test: the client's
    [finalStats], over the server's time. *)
Lemma test_completed_result socket now done st s start :
  testCompletedSchema done = true ->
  Server.activeTestSessions st !! TestCompleted.testId done = Some s ->
  TestSession.userId s = Socket.userId socket ->
  TestSession.isCompleted s = false ->
  TestSession.startTime s = Some start ->
  let finalStats := TestCompleted.finalStats done in
  let result := resultOf s finalStats (now - start) now in
  snd (test_completed socket now done st)
  = [emit (Socket.id socket) (test_result result);
     io_emit (friend_test_completed (Socket.userId socket) (Socket.username socket)
                (FinalStats.wpm finalStats) (FinalStats.accuracy finalStats) result)].
Proof.
  intros Hschema Hfound Howner Hopen Hstart. cbv zeta. unfold test_completed.
  rewrite Hschema, Hfound, Howner, String.eqb_refl. cbn [negb].
  unfold completeTestSession. rewrite Hopen.
  cbn [TestSession.complete TestSession.startTime]. rewrite Hstart. reflexivity.
Qed.

End TestFacts.
(** C2, as stated, fails: ten keystrokes, none of them correct, in one
    minute are published as 2 wpm, where the formula over the correct
    keystrokes gives 0. *)
Lemma wpm_counterexample :
  Scenario.tenWrong <> [] /\ 0 < 60000
  /\ SocketHelpers.wpm (SocketHelpers.calculateTypingStats Scenario.tenWrong "words" 60000)
     <> Spec.wpm Scenario.tenWrong 60000.
Proof.
  split; [discriminate|]. split; [lia|].
  apply float_neq; vm_compute; reflexivity.
Qed.

(** C2, amended. The wpm that an accepted keystroke publishes, in its
    [test:stats_update] and in the [test:result] of a test that this
    keystroke completes, is max(0, round((n / 5) / (elapsed_ms / 60000)))
    with n the number of keystrokes of the log, this one included, correct
    or not, and 0 when no time has elapsed; the elapsed time runs from the
    first keystroke to the handler's reading of the clock (to the end time
    for the result). A [test:result] that [test:completed] asks for carries
    the wpm the client sent. *)
Theorem wpm_counts_every_keystroke (socket : Socket.t) (clock : Clock.t)
    (data : Keystroke.t) (st : Server.t) (s : TestSession.t) :
  RateLimiter.allowed
    (fst (RateLimiter.checkKeystrokeRate (Socket.userId socket) (Clock.checked clock)
            (Server.buckets st)))
    = true ->
  TestEvents.keystrokeSchema data = true ->
  Server.activeTestSessions st !! Keystroke.testId data = Some s ->
  TestSession.userId s = Socket.userId socket ->
  TestSession.isCompleted s = false ->
  let start := default (Clock.started clock) (TestSession.startTime s) in
  let n := Z.of_nat (length (TestSession.keystrokes s)) + 1 in
  let elapsed := Clock.measured clock - start in
  omap TestLife.wpmOf (TestEvents.metrics (snd (TestEvents.test_keystroke socket clock data st)))
  = Spec.wpm_of n elapsed
    :: (if TestEvents.shouldComplete s (Keystroke.position data) elapsed
        then [Spec.wpm_of n (Clock.ended clock - start)] else [])
  /\ forall (now : Z) (done : TestCompleted.t) (t0 : Z),
       TestEvents.testCompletedSchema done = true ->
       TestCompleted.testId done = Keystroke.testId data ->
       TestSession.startTime s = Some t0 ->
       omap TestLife.wpmOf
         (TestEvents.metrics (snd (TestEvents.test_completed socket now done st)))
       = [FinalStats.wpm (TestCompleted.finalStats done)].
Proof.
  intros Hrate Hschema Hfound Howner Hopen start n elapsed. split.
  - rewrite (test_keystroke_accepted socket clock data st s Hrate Hschema Hfound Howner Hopen).
    assert (forall t,
              SocketHelpers.wpm
                (SocketHelpers.calculateTypingStats
                   (TestSession.keystrokes s
                      ++ [TestEvents.keystrokeData (Clock.stamped clock) data])
                   (TestSession.words s) t)
              = Spec.wpm_of n t) as Hwpm.
    { intros t. rewrite wpm_of_formula; rewrite length_app; cbn [length]; [|lia].
      subst n. f_equal. lia. }
    fold start. fold elapsed.
    destruct (TestEvents.shouldComplete s (Keystroke.position data) elapsed);
      cbn [TestEvents.metrics omap list_omap TestLife.wpmOf TestEvents.statsUpdateOf
           StatsUpdate.wpm TestEvents.resultOf TestResult.wpm TestEvents.of_stats
           FinalStats.wpm];
      rewrite !Hwpm; reflexivity.
  - intros now done t0 Hdone Hid Hstart. rewrite <- Hid in Hfound.
    rewrite (test_completed_result socket now done st s t0 Hdone Hfound Howner Hopen Hstart).
    reflexivity.
Qed.

(** C6, as stated, fails: ten keystrokes spread over two 2-second windows
    give two windowed samples, fewer than five, and a consistency of 100. *)
Lemma consistency_counterexample :
  Z.of_nat (length (SocketHelpers.time_windows Scenario.tenWrong 4000)) < 5
  /\ SocketHelpers.consistency
       (SocketHelpers.calculateTypingStats Scenario.tenWrong "words" 4000)
     <> 0%float.
Proof.
  split; [vm_compute; reflexivity|].
  intros H. apply (f_equal (fun x => (x =? 100)%float)) in H.
  vm_compute in H. discriminate.
Qed.

(** C6, amended. The consistency that [calculateTypingStats] computes, and
    that an accepted keystroke publishes in its [test:stats_update], is
    max(0, min(100, round(100 - 100 CV))) with CV the standard deviation
    over the mean of the wpm samples of the non-empty 2-second windows (1
    should the mean not be positive); it is 0 whenever the log has fewer
    than 10 keystrokes, no time has elapsed, or fewer than 2 windows hold a
    keystroke. The [test:result] of a test that the keystroke completes
    carries the same formula over the time up to the end ([|| 0] applied);
    a [test:result] that [test:completed] asks for carries the client's
    consistency. *)
Theorem consistency_of_windows (socket : Socket.t) (clock : Clock.t)
    (data : Keystroke.t) (st : Server.t) (s : TestSession.t) :
  RateLimiter.allowed
    (fst (RateLimiter.checkKeystrokeRate (Socket.userId socket) (Clock.checked clock)
            (Server.buckets st)))
    = true ->
  TestEvents.keystrokeSchema data = true ->
  Server.activeTestSessions st !! Keystroke.testId data = Some s ->
  TestSession.userId s = Socket.userId socket ->
  TestSession.isCompleted s = false ->
  let start := default (Clock.started clock) (TestSession.startTime s) in
  let log :=
    TestSession.keystrokes s ++ [TestEvents.keystrokeData (Clock.stamped clock) data] in
  let elapsed := Clock.measured clock - start in
  (forall keystrokes text timeElapsed,
     SocketHelpers.consistency
       (SocketHelpers.calculateTypingStats keystrokes text timeElapsed)
     = Spec.consistency keystrokes timeElapsed)
  /\ omap TestLife.consistencyOf
       (TestEvents.metrics (snd (TestEvents.test_keystroke socket clock data st)))
     = Spec.consistency log elapsed
       :: (if TestEvents.shouldComplete s (Keystroke.position data) elapsed
           then [TestEvents.or_zero (Some (Spec.consistency log (Clock.ended clock - start)))]
           else [])
  /\ forall (now : Z) (done : TestCompleted.t) (t0 : Z),
       TestEvents.testCompletedSchema done = true ->
       TestCompleted.testId done = Keystroke.testId data ->
       TestSession.startTime s = Some t0 ->
       omap TestLife.consistencyOf
         (TestEvents.metrics (snd (TestEvents.test_completed socket now done st)))
       = [TestEvents.or_zero (FinalStats.consistency (TestCompleted.finalStats done))].
Proof.
  intros Hrate Hschema Hfound Howner Hopen start log elapsed.
  split; [exact consistency_formula|]. split.
  - rewrite (test_keystroke_accepted socket clock data st s Hrate Hschema Hfound Howner Hopen).
    fold start. fold log. fold elapsed.
    destruct (TestEvents.shouldComplete s (Keystroke.position data) elapsed);
      cbn [TestEvents.metrics omap list_omap TestLife.consistencyOf TestEvents.statsUpdateOf
           StatsUpdate.consistency TestEvents.resultOf TestResult.consistency
           TestEvents.of_stats FinalStats.consistency];
      rewrite !consistency_formula; reflexivity.
  - intros now done t0 Hdone Hid Hstart. rewrite <- Hid in Hfound.
    rewrite (test_completed_result socket now done st s t0 Hdone Hfound Howner Hopen Hstart).
    reflexivity.
Qed.

(** C1, as stated, fails: two sessions that receive the same keys at the
    same times publish different metrics when the clients differ in the
    [correct] flags and the [finalStats] they send. *)
Lemma client_claims_counterexample :
  map (fun r => (fst r, TestEvents.observed (snd r))) Scenario.modestRun
  = map (fun r => (fst r, TestEvents.observed (snd r))) Scenario.boastfulRun
  /\ TestEvents.metrics (snd (TestEvents.run Scenario.alice Scenario.modestRun Server.init))
     <> TestEvents.metrics (snd (TestEvents.run Scenario.alice Scenario.boastfulRun Server.init)).
Proof.
  split; [reflexivity|].
  intros H.
  apply (f_equal (map (fun m => match m with
                                | test_stats_update u => StatsUpdate.errors u
                                | _ => 0
                                end))) in H.
  vm_compute in H. discriminate.
Qed.

(** C1, amended. The metrics an accepted keystroke publishes, the first
    keystroke of a test included, are [calculateTypingStats] of the stored
    log with this keystroke and of the server's elapsed time: in
    [test:stats_update] over the time since the start, and, when the
    keystroke completes the test, in [test:result] over the time up to the
    end. Those statistics read the log through its timestamps and its
    client-supplied [correct] flags only, and their wpm and position
    through its length only. A [test:result] that [test:completed] asks
    for carries the client's [finalStats] and the server's elapsed time. *)
Theorem metrics_from_log_and_client (socket : Socket.t) (clock : Clock.t)
    (data : Keystroke.t) (st : Server.t) (s : TestSession.t) :
  RateLimiter.allowed
    (fst (RateLimiter.checkKeystrokeRate (Socket.userId socket) (Clock.checked clock)
            (Server.buckets st)))
    = true ->
  TestEvents.keystrokeSchema data = true ->
  Server.activeTestSessions st !! Keystroke.testId data = Some s ->
  TestSession.userId s = Socket.userId socket ->
  TestSession.isCompleted s = false ->
  let start := default (Clock.started clock) (TestSession.startTime s) in
  let log :=
    TestSession.keystrokes s ++ [TestEvents.keystrokeData (Clock.stamped clock) data] in
  let elapsed := Clock.measured clock - start in
  let total := Clock.ended clock - start in
  TestEvents.metrics (snd (TestEvents.test_keystroke socket clock data st))
  = test_stats_update
      (TestEvents.statsUpdateOf (Keystroke.testId data)
         (SocketHelpers.calculateTypingStats log (TestSession.words s) elapsed) elapsed)
    :: (if TestEvents.shouldComplete s (Keystroke.position data) elapsed then
          [test_result
             (TestEvents.resultOf s
                (TestEvents.of_stats
                   (SocketHelpers.calculateTypingStats log (TestSession.words s) total))
                total (Clock.ended clock))]
        else [])
  /\ (forall ks1 ks2 text1 text2 t,
        map SocketHelpers.timestamp ks1 = map SocketHelpers.timestamp ks2 ->
        map SocketHelpers.correct ks1 = map SocketHelpers.correct ks2 ->
        SocketHelpers.calculateTypingStats ks1 text1 t
        = SocketHelpers.calculateTypingStats ks2 text2 t)
  /\ (forall ks1 ks2 text1 text2 t,
        length ks1 = length ks2 ->
        SocketHelpers.wpm (SocketHelpers.calculateTypingStats ks1 text1 t)
        = SocketHelpers.wpm (SocketHelpers.calculateTypingStats ks2 text2 t)
        /\ SocketHelpers.stats_position (SocketHelpers.calculateTypingStats ks1 text1 t)
           = SocketHelpers.stats_position (SocketHelpers.calculateTypingStats ks2 text2 t))
  /\ forall (now : Z) (done : TestCompleted.t) (t0 : Z),
       TestEvents.testCompletedSchema done = true ->
       TestCompleted.testId done = Keystroke.testId data ->
       TestSession.startTime s = Some t0 ->
       TestEvents.metrics (snd (TestEvents.test_completed socket now done st))
       = [test_result
            (TestEvents.resultOf s (TestCompleted.finalStats done) (now - t0) now)].
Proof.
  intros Hrate Hschema Hfound Howner Hopen start log elapsed total.
  split; [|split; [|split]].
  - rewrite (test_keystroke_accepted socket clock data st s Hrate Hschema Hfound Howner Hopen).
    fold start. fold log. fold elapsed. fold total.
    destruct (TestEvents.shouldComplete s (Keystroke.position data) elapsed); reflexivity.
  - intros ks1 ks2 text1 text2 t. apply calculateTypingStats_ext.
  - intros ks1 ks2 text1 text2 t Hlen.
    rewrite !wpm_formula, !position_formula, Hlen. split; reflexivity.
  - intros now done t0 Hdone Hid Hstart. rewrite <- Hid in Hfound.
    rewrite (test_completed_result socket now done st s t0 Hdone Hfound Howner Hopen Hstart).
    reflexivity.
Qed.

(** Alice's second keystroke on her running test [T], the clock ticking
    while the handler runs. *)
Lemma wpm_counts_every_keystroke_witness :
  let socket := Scenario.alice in
  let clock := Examples.slowClock in
  let data := Scenario.keystrokeA in
  let st := Scenario.startedT in
  let s := Scenario.sessionT in
  let start := default (Clock.started clock) (TestSession.startTime s) in
  let n := Z.of_nat (length (TestSession.keystrokes s)) + 1 in
  let elapsed := Clock.measured clock - start in
  omap TestLife.wpmOf (TestEvents.metrics (snd (TestEvents.test_keystroke socket clock data st)))
  = Spec.wpm_of n elapsed
    :: (if TestEvents.shouldComplete s (Keystroke.position data) elapsed
        then [Spec.wpm_of n (Clock.ended clock - start)] else [])
  /\ forall (now : Z) (done : TestCompleted.t) (t0 : Z),
       TestEvents.testCompletedSchema done = true ->
       TestCompleted.testId done = Keystroke.testId data ->
       TestSession.startTime s = Some t0 ->
       omap TestLife.wpmOf
         (TestEvents.metrics (snd (TestEvents.test_completed socket now done st)))
       = [FinalStats.wpm (TestCompleted.finalStats done)].
Proof.
  apply (wpm_counts_every_keystroke Scenario.alice Examples.slowClock Scenario.keystrokeA
           Scenario.startedT Scenario.sessionT); vm_compute; reflexivity.
Defined.

Lemma consistency_of_windows_witness :
  let socket := Scenario.alice in
  let clock := Examples.slowClock in
  let data := Scenario.keystrokeA in
  let st := Scenario.startedT in
  let s := Scenario.sessionT in
  let start := default (Clock.started clock) (TestSession.startTime s) in
  let log :=
    TestSession.keystrokes s ++ [TestEvents.keystrokeData (Clock.stamped clock) data] in
  let elapsed := Clock.measured clock - start in
  (forall keystrokes text timeElapsed,
     SocketHelpers.consistency
       (SocketHelpers.calculateTypingStats keystrokes text timeElapsed)
     = Spec.consistency keystrokes timeElapsed)
  /\ omap TestLife.consistencyOf
       (TestEvents.metrics (snd (TestEvents.test_keystroke socket clock data st)))
     = Spec.consistency log elapsed
       :: (if TestEvents.shouldComplete s (Keystroke.position data) elapsed
           then [TestEvents.or_zero (Some (Spec.consistency log (Clock.ended clock - start)))]
           else [])
  /\ forall (now : Z) (done : TestCompleted.t) (t0 : Z),
       TestEvents.testCompletedSchema done = true ->
       TestCompleted.testId done = Keystroke.testId data ->
       TestSession.startTime s = Some t0 ->
       omap TestLife.consistencyOf
         (TestEvents.metrics (snd (TestEvents.test_completed socket now done st)))
       = [TestEvents.or_zero (FinalStats.consistency (TestCompleted.finalStats done))].
Proof.
  apply (consistency_of_windows Scenario.alice Examples.slowClock Scenario.keystrokeA
           Scenario.startedT Scenario.sessionT); vm_compute; reflexivity.
Defined.

Lemma metrics_from_log_and_client_witness :
  let socket := Scenario.alice in
  let clock := Examples.slowClock in
  let data := Scenario.keystrokeA in
  let st := Scenario.startedT in
  let s := Scenario.sessionT in
  let start := default (Clock.started clock) (TestSession.startTime s) in
  let log :=
    TestSession.keystrokes s ++ [TestEvents.keystrokeData (Clock.stamped clock) data] in
  let elapsed := Clock.measured clock - start in
  let total := Clock.ended clock - start in
  TestEvents.metrics (snd (TestEvents.test_keystroke socket clock data st))
  = test_stats_update
      (TestEvents.statsUpdateOf (Keystroke.testId data)
         (SocketHelpers.calculateTypingStats log (TestSession.words s) elapsed) elapsed)
    :: (if TestEvents.shouldComplete s (Keystroke.position data) elapsed then
          [test_result
             (TestEvents.resultOf s
                (TestEvents.of_stats
                   (SocketHelpers.calculateTypingStats log (TestSession.words s) total))
                total (Clock.ended clock))]
        else [])
  /\ (forall ks1 ks2 text1 text2 t,
        map SocketHelpers.timestamp ks1 = map SocketHelpers.timestamp ks2 ->
        map SocketHelpers.correct ks1 = map SocketHelpers.correct ks2 ->
        SocketHelpers.calculateTypingStats ks1 text1 t
        = SocketHelpers.calculateTypingStats ks2 text2 t)
  /\ (forall ks1 ks2 text1 text2 t,
        length ks1 = length ks2 ->
        SocketHelpers.wpm (SocketHelpers.calculateTypingStats ks1 text1 t)
        = SocketHelpers.wpm (SocketHelpers.calculateTypingStats ks2 text2 t)
        /\ SocketHelpers.stats_position (SocketHelpers.calculateTypingStats ks1 text1 t)
           = SocketHelpers.stats_position (SocketHelpers.calculateTypingStats ks2 text2 t))
  /\ forall (now : Z) (done : TestCompleted.t) (t0 : Z),
       TestEvents.testCompletedSchema done = true ->
       TestCompleted.testId done = Keystroke.testId data ->
       TestSession.startTime s = Some t0 ->
       TestEvents.metrics (snd (TestEvents.test_completed socket now done st))
       = [test_result
            (TestEvents.resultOf s (TestCompleted.finalStats done) (now - t0) now)].
Proof.
  apply (metrics_from_log_and_client Scenario.alice Examples.slowClock Scenario.keystrokeA
           Scenario.startedT Scenario.sessionT); vm_compute; reflexivity.
Defined.

(** ** The order of JavaScript numbers *)

Section FloatOrder.

Lemma SFcompare_antisym x y :
  SFcompare y x = option_map CompOpp (SFcompare x y).
Proof.
  destruct x as [s1|s1| |s1 m1 e1], y as [s2|s2| |s2 m2 e2]; cbn;
    try reflexivity; try (destruct s1; reflexivity); try (destruct s2; reflexivity);
    try (destruct s1, s2; reflexivity).
  destruct s1, s2; cbn; try reflexivity.
  - rewrite (Z.compare_antisym e1 e2). destruct (e1 ?= e2) eqn:E; cbn; try reflexivity.
    do 2 f_equal. symmetry. apply (Pos.compare_cont_antisym m1 m2 Eq).
  - rewrite (Z.compare_antisym e1 e2). destruct (e1 ?= e2) eqn:E; cbn; try reflexivity.
    f_equal. symmetry. apply (Pos.compare_cont_antisym m1 m2 Eq).
Qed.

Lemma ltb_asym (x y : float) : (x <? y)%float = true -> (y <? x)%float = false.
Proof.
  rewrite !ltb_spec. unfold SFltb. rewrite (SFcompare_antisym (Prim2SF x) (Prim2SF y)).
  destruct (SFcompare (Prim2SF x) (Prim2SF y)) as [[]|]; cbn; congruence.
Qed.

Lemma leb_not_gt (x y : float) : (x <=? y)%float = true -> (y <? x)%float = false.
Proof.
  rewrite ltb_spec, leb_spec. unfold SFltb, SFleb.
  rewrite (SFcompare_antisym (Prim2SF x) (Prim2SF y)).
  destruct (SFcompare (Prim2SF x) (Prim2SF y)) as [[]|]; cbn; congruence.
Qed.

(** A number at least a positive one is neither NaN nor zero. *)
Lemma above_truthy (c d : float) m e :
  Prim2SF c = S754_finite false m e ->
  (c <=? d)%float = true ->
  is_nan d = false /\ is_zero d = false.
Proof.
  intros Hc. rewrite leb_spec, Hc. unfold is_nan, is_zero. rewrite !eqb_spec.
  change (Prim2SF zero) with (S754_zero false).
  unfold SFleb, SFeqb.
  destruct (Prim2SF d) as [s|s| |s m' e']; cbn; try discriminate.
  - destruct s; cbn; auto.
  - destruct s; cbn; intros _; rewrite Z.compare_refl, Pos.compare_cont_refl; cbn; auto.
Qed.










End FloatOrder.

(** ** Races: joining *)

(** C7 on concrete runs. Alice is in race [R], which is full: her second
    [race:join] is answered with RACE_FULL alone, not with the joined
    state, because the handler tests the occupancy (and the status) before
    the membership. In the race for five that she and Bob are in, the same
    request reaches the handler's re-join branch while the countdown runs,
    and is answered with RACE_STARTED once the race is active. The race
    registry is the same after each. *)
Theorem rejoin_refused :
  JSMap.has "alice" (Race.players (Scenario.raceR Scenario.fullRace)) = true
  /\ snd (RaceEvents.race_join Scenario.alice 2000 "R" Scenario.fullRace)
     = [emitError Scenario.alice 2002 "RACE_FULL" "Race is full" NoDetails]
  /\ Server.activeRaces (fst (RaceEvents.race_join Scenario.alice 2000 "R" Scenario.fullRace))
     = Server.activeRaces Scenario.fullRace
  /\ snd (RaceEvents.race_join Scenario.alice 2000 "R" Examples.roomyRace)
     = [socket_join "s1" (RaceEvents.room "R");
        emit "s1"
          (race_joined (RaceEvents.serializeRace (Scenario.raceR Examples.roomyRace))
             (Scenario.playerR "alice" Examples.roomyRace))]
  /\ snd (RaceEvents.race_join Scenario.alice 9000 "R" Examples.roomyActive)
     = [emitError Scenario.alice 2003 "RACE_STARTED" "Race has already started" NoDetails].
Proof. repeat split; vm_compute; reflexivity. Qed.

(** ** Races: ranks at completion *)

Section RankFacts.
Import RaceEvents.

Lemma sort_insert_perm {A} (comparefn : A -> A -> float) x l :
  sort_insert comparefn x l ≡ₚ x :: l.
Proof.
  induction l as [|y l IH]; cbn; [reflexivity|].
  destruct (0 <? comparefn x y)%float; [|reflexivity].
  rewrite IH. apply perm_swap.
Qed.

(** Sorting rearranges: whatever the comparison says. *)
Lemma sort_perm {A} (comparefn : A -> A -> float) l : sort comparefn l ≡ₚ l.
Proof.
  induction l as [|x l IH]; cbn; [reflexivity|].
  rewrite sort_insert_perm, IH. reflexivity.
Qed.

Lemma partition_perm {A} (p : A -> bool) l :
  List.filter p l ++ List.filter (fun x => negb (p x)) l ≡ₚ l.
Proof.
  induction l as [|x l IH]; cbn; [reflexivity|].
  destruct (p x); cbn.
  - rewrite IH. reflexivity.
  - rewrite <- Permutation_middle, IH. reflexivity.
Qed.

Lemma rankingOrder_perm players : rankingOrder players ≡ₚ players.
Proof. unfold rankingOrder. rewrite sort_perm. apply partition_perm. Qed.

Lemma numbered_ranks (l : list (string * Player.t)) k :
  map rankOf
    (imap (fun index e =>
             (fst e, Player.set_rank (Some (Z.of_nat (k + index) + 1)) (snd e))) l)
  = ranksFrom (S k) (length l).
Proof.
  unfold ranksFrom. revert k. induction l as [|e l IH]; intros k; [reflexivity|].
  rewrite imap_cons. cbn [map length seq]. f_equal.
  - unfold rankOf. cbn. f_equal. lia.
  - rewrite <- (IH (S k)). f_equal. apply imap_ext. intros i x _. cbn.
    repeat f_equal. lia.
Qed.

Lemma numbered_keys (l : list (string * Player.t)) (f : nat -> Player.t -> Player.t) :
  map fst (imap (fun index e => (fst e, f index (snd e))) l) = map fst l.
Proof.
  revert f. induction l as [|e l IH]; intros f; [reflexivity|].
  rewrite imap_cons. cbn [map]. f_equal. apply (IH (fun i => f (S i))).
Qed.

Lemma rankedPlayers_ranks players :
  map rankOf (rankedPlayers players) = ranksFrom 1 (length players).
Proof.
  unfold rankedPlayers. fold (rankingOrder players).
  rewrite <- (Permutation_length (rankingOrder_perm players)).
  apply (numbered_ranks (rankingOrder players) 0).
Qed.

Lemma rankedPlayers_keys players :
  JSMap.keys (rankedPlayers players) ≡ₚ JSMap.keys players.
Proof.
  unfold rankedPlayers, JSMap.keys. fold (rankingOrder players).
  rewrite (numbered_keys _ (fun index p => Player.set_rank (Some (Z.of_nat index + 1)) p)).
  apply Permutation_map, rankingOrder_perm.
Qed.

Lemma get_cons {V} k k' (v : V) m :
  JSMap.get k ((k', v) :: m) = if String.eqb k' k then Some v else JSMap.get k m.
Proof. unfold JSMap.get. cbn. destruct (String.eqb k' k); reflexivity. Qed.

Lemma get_is_Some {V} k (m : list (string * V)) :
  In k (JSMap.keys m) -> is_Some (JSMap.get k m).
Proof.
  induction m as [|[k' v] m IH]; [intros []|].
  change (In k (JSMap.keys ((k', v) :: m))) with (k' = k \/ In k (JSMap.keys m)).
  intros [->|Hin]; rewrite get_cons.
  - rewrite String.eqb_refl. eauto.
  - destruct (String.eqb k' k); [eauto|auto].
Qed.

Lemma omap_ext_in {A B} (f g : A -> option B) l :
  (forall x, In x l -> f x = g x) -> omap f l = omap g l.
Proof.
  induction l as [|x l IH]; intros H; [reflexivity|]. cbn.
  rewrite (H x (or_introl eq_refl)), IH; [reflexivity|].
  intros y Hy. apply H. right. exact Hy.
Qed.

Lemma entries_own {V} (m : list (string * V)) :
  NoDup (JSMap.keys m) -> omap (JSMap.entry m) (JSMap.keys m) = m.
Proof.
  induction m as [|[k v] m IH]; intros Hnd; [reflexivity|].
  cbn in Hnd. apply NoDup_cons in Hnd as [Hk Hnd].
  cbn -[JSMap.get]. unfold JSMap.entry at 1. rewrite get_cons, String.eqb_refl.
  cbn -[JSMap.get]. f_equal.
  transitivity (omap (JSMap.entry m) (JSMap.keys m)); [|exact (IH Hnd)].
  apply omap_ext_in. intros k' Hk'.
  unfold JSMap.entry. rewrite get_cons.
  destruct (String.eqb_spec k k') as [->|Hne]; [|reflexivity].
  exfalso. apply Hk, list_elem_of_In, Hk'.
Qed.

Lemma writeBack_entries updated players :
  (forall k, In k (JSMap.keys players) -> In k (JSMap.keys updated)) ->
  writeBack updated players = omap (JSMap.entry updated) (JSMap.keys players).
Proof.
  induction players as [|[k p] players IH]; intros Hin; [reflexivity|].
  cbn -[JSMap.get]. unfold JSMap.entry at 1.
  destruct (get_is_Some k updated (Hin k (or_introl eq_refl))) as [v Hv].
  rewrite Hv. cbn -[JSMap.get]. f_equal. apply IH. intros k' Hk'. apply Hin. right. exact Hk'.
Qed.

(** Writing back players ranked under their own keys rearranges them. *)
Lemma writeBack_perm updated players :
  NoDup (JSMap.keys updated) ->
  JSMap.keys updated ≡ₚ JSMap.keys players ->
  writeBack updated players ≡ₚ updated.
Proof.
  intros Hnd Hperm. rewrite writeBack_entries.
  - rewrite <- Hperm. rewrite entries_own by exact Hnd. reflexivity.
  - intros k Hk. apply (Permutation_in k (Permutation_sym Hperm) Hk).
Qed.

Lemma writeBack_keys updated players :
  JSMap.keys (writeBack updated players) = JSMap.keys players.
Proof.
  unfold writeBack, JSMap.keys. rewrite map_map. reflexivity.
Qed.

(** C3. When a race is completed, [endRace] leaves every roster entry with
    one rank and the ranks of the roster are a rearrangement of 1..|roster|;
    the rankings of the [race:completed] it publishes carry exactly the
    ranks 1, 2, ..., |roster|, one entry per player. *)
Theorem completion_ranks (now : Z) (race : Race.t) :
  Race.status race <> finished ->
  NoDup (JSMap.keys (Race.players race)) ->
  let race' := fst (fst (endRace now race)) in
  let n := length (Race.players race) in
  Race.status race' = finished
  /\ JSMap.keys (Race.players race') = JSMap.keys (Race.players race)
  /\ map rankOf (Race.players race') ≡ₚ ranksFrom 1 n
  /\ (forall start, Race.startTime race = Some start ->
        exists results,
          snd (fst (endRace now race))
          = [io_to (room (Race.id race)) (race_completed results)]
          /\ map Ranking.rank (Results.rankings results) = ranksFrom 1 n
          /\ Results.totalPlayers results = Z.of_nat n).
Proof.
  intros Hstatus Hnd. unfold endRace.
  rewrite bool_decide_eq_false_2 by exact Hstatus.
  assert (Hback : writeBack (rankedPlayers (Race.players race)) (Race.players race)
                  ≡ₚ rankedPlayers (Race.players race)).
  { apply writeBack_perm; [|apply rankedPlayers_keys].
    rewrite rankedPlayers_keys. exact Hnd. }
  cbn [Race.set_status Race.set_endTime Race.set_players Race.players Race.startTime Race.id].
  split; [|split; [|split]].
  - destruct (Race.startTime race); reflexivity.
  - destruct (Race.startTime race); cbn; apply writeBack_keys.
  - assert (Hranks : map rankOf (writeBack (rankedPlayers (Race.players race))
                                   (Race.players race))
                     ≡ₚ ranksFrom 1 (length (Race.players race))).
    { rewrite Hback, rankedPlayers_ranks. reflexivity. }
    destruct (Race.startTime race); cbn; exact Hranks.
  - intros start ->. cbn. eexists. split; [reflexivity|]. cbn. split.
    + unfold JSMap.values. rewrite !map_map.
      rewrite <- (rankedPlayers_ranks (Race.players race)). reflexivity.
    + unfold JSMap.size, writeBack. rewrite length_map. reflexivity.
Qed.
End RankFacts.

(** On the running race [R]. *)
Lemma completion_ranks_witness :
  let race' := fst (fst (RaceEvents.endRace 9000 (Scenario.raceR Scenario.activeRace))) in
  let n := length (Race.players (Scenario.raceR Scenario.activeRace)) in
  Race.status race' = finished
  /\ JSMap.keys (Race.players race')
     = JSMap.keys (Race.players (Scenario.raceR Scenario.activeRace))
  /\ map RaceEvents.rankOf (Race.players race') ≡ₚ RaceEvents.ranksFrom 1 n
  /\ (forall start, Race.startTime (Scenario.raceR Scenario.activeRace) = Some start ->
        exists results,
          snd (fst (RaceEvents.endRace 9000 (Scenario.raceR Scenario.activeRace)))
          = [io_to (RaceEvents.room (Race.id (Scenario.raceR Scenario.activeRace)))
               (race_completed results)]
          /\ map Ranking.rank (Results.rankings results) = RaceEvents.ranksFrom 1 n
          /\ Results.totalPlayers results = Z.of_nat n).
Proof.
  apply (completion_ranks 9000 (Scenario.raceR Scenario.activeRace)).
  - vm_compute. discriminate.
  - apply (bool_decide_unpack _). vm_compute. reflexivity.
Defined.

(** ** Races: rosters and the registry *)

Section RosterFacts.
Import RaceEvents.

Lemma set_keys {V} k (v : V) m :
  JSMap.keys (JSMap.set k v m)
  = if JSMap.has k m then JSMap.keys m else JSMap.keys m ++ [k].
Proof.
  induction m as [|[k' v'] m IH]; [reflexivity|].
  unfold JSMap.has in *. rewrite get_cons. simpl JSMap.set.
  destruct (String.eqb_spec k' k) as [->|Hne]; [reflexivity|].
  change (JSMap.keys ((k', v') :: JSMap.set k v m))
    with (k' :: JSMap.keys (JSMap.set k v m)).
  rewrite IH. destruct (JSMap.get k m); reflexivity.
Qed.

Lemma has_keys {V} k (m : list (string * V)) :
  JSMap.has k m = true <-> In k (JSMap.keys m).
Proof.
  unfold JSMap.has. induction m as [|[k' v'] m IH]; [cbn; split; [discriminate|tauto]|].
  rewrite get_cons. cbn [JSMap.keys map fst In].
  destruct (String.eqb_spec k' k) as [->|Hne]; [tauto|].
  rewrite IH. cbn [JSMap.keys]. tauto.
Qed.

Lemma set_nonempty {V} k (v : V) m : JSMap.set k v m <> [].
Proof. destruct m as [|[k' v'] m]; cbn; [discriminate|]. destruct (String.eqb k' k); discriminate. Qed.

Lemma set_NoDup {V} k (v : V) m :
  NoDup (JSMap.keys m) -> NoDup (JSMap.keys (JSMap.set k v m)).
Proof.
  intros Hnd. rewrite set_keys. destruct (JSMap.has k m) eqn:E; [exact Hnd|].
  apply NoDup_app. split; [exact Hnd|]. split; [|apply NoDup_singleton].
  intros x Hx Hx'. apply list_elem_of_singleton in Hx'. subst x.
  apply list_elem_of_In, has_keys in Hx. congruence.
Qed.

Lemma delete_keys {V} k (m : list (string * V)) :
  JSMap.keys (JSMap.delete k m)
  = List.filter (fun k' => negb (String.eqb k' k)) (JSMap.keys m).
Proof.
  unfold JSMap.delete, JSMap.keys.
  induction m as [|[k' v'] m IH]; [reflexivity|]. simpl.
  destruct (String.eqb k' k); simpl; rewrite IH; reflexivity.
Qed.

Lemma filter_NoDup {A} (p : A -> bool) l : NoDup l -> NoDup (List.filter p l).
Proof.
  induction 1 as [|x l Hx Hnd IH]; cbn; [constructor|].
  destruct (p x); [|exact IH]. constructor; [|exact IH].
  intros Hin. apply Hx. apply list_elem_of_In in Hin. apply filter_In in Hin as [Hin _].
  apply list_elem_of_In. exact Hin.
Qed.

Lemma delete_NoDup {V} k (m : list (string * V)) :
  NoDup (JSMap.keys m) -> NoDup (JSMap.keys (JSMap.delete k m)).
Proof. intros H. rewrite delete_keys. apply filter_NoDup, H. Qed.

Lemma writeBack_nonempty updated players : players <> [] -> writeBack updated players <> [].
Proof. destruct players; [congruence|discriminate]. Qed.

Lemma endRace_wellFormed now race :
  wellFormed race -> wellFormed (fst (fst (endRace now race))).
Proof.
  intros [Hne Hnd]. unfold endRace.
  destruct (bool_decide (Race.status race = finished)); [split; assumption|].
  cbn [Race.set_status Race.set_endTime Race.set_players Race.players Race.startTime].
  destruct (Race.startTime race); unfold wellFormed; simpl (Race.players _);
    (split; [apply writeBack_nonempty, Hne | rewrite writeBack_keys; exact Hnd]).
Qed.

Lemma checkRaceCompletion_wellFormed now race :
  wellFormed race -> wellFormed (fst (fst (checkRaceCompletion now race))).
Proof.
  intros H. unfold checkRaceCompletion.
  destruct (_ =? _); [apply endRace_wellFormed, H|].
  destruct (Race.mode race); [|exact H].
  destruct (Race.startTime race); [|exact H].
  destruct (_ <=? _)%float; [apply endRace_wellFormed, H|exact H].
Qed.

Lemma startRaceCountdown_players race :
  Race.players (fst (startRaceCountdown race)) = Race.players race.
Proof. unfold startRaceCountdown. destruct (_ || _); reflexivity. Qed.

Lemma countdownTick_players now race :
  Race.players (fst (countdownTick now race)) = Race.players race.
Proof. unfold countdownTick. destruct (Race.countdownInterval race) as [[|n]|]; reflexivity. Qed.

Lemma raceTimeoutFired_wellFormed now race :
  wellFormed race -> wellFormed (fst (raceTimeoutFired now race)).
Proof.
  intros H. unfold raceTimeoutFired. destruct (Race.raceTimeout race); [|exact H].
  destruct (bool_decide _); [|exact H].
  pose proof (endRace_wellFormed now (Race.set_raceTimeout false race) H) as H'.
  destruct (endRace now (Race.set_raceTimeout false race)) as [[r e] c]. exact H'.
Qed.

Lemma wellFormed_insert races id race :
  rostersWellFormed races -> wellFormed race -> rostersWellFormed (<[id := race]> races).
Proof.
  intros Hinv Hwf id' race'. rewrite lookup_insert. case_decide.
  - intros [= <-]. exact Hwf.
  - apply Hinv.
Qed.

Lemma wellFormed_delete races id :
  rostersWellFormed races -> rostersWellFormed (delete id races).
Proof.
  intros Hinv id' race'. rewrite lookup_delete. case_decide; [discriminate|apply Hinv].
Qed.

Lemma wellFormed_players m race :
  m <> [] -> NoDup (JSMap.keys m) -> wellFormed (Race.set_players m race).
Proof. intros. split; assumption. Qed.

Lemma wellFormed_same race race' :
  Race.players race' = Race.players race -> wellFormed race -> wellFormed race'.
Proof. unfold wellFormed. intros ->. trivial. Qed.

Ltac roster_side :=
  repeat first
    [ assumption
    | apply set_nonempty
    | apply set_NoDup
    | apply delete_NoDup
    | match goal with
      | H : rostersWellFormed ?races, L : ?races !! _ = Some ?race
        |- NoDup (JSMap.keys (Race.players ?race)) => exact (proj2 (H _ _ L))
      | H : rostersWellFormed ?races, L : ?races !! _ = Some ?race
        |- wellFormed ?race => exact (H _ _ L)
      end ].

Lemma race_create_wellFormed socket now raceId data st :
  rostersWellFormed (Server.activeRaces st) ->
  rostersWellFormed (Server.activeRaces (fst (race_create socket now raceId data st))).
Proof.
  intros Hinv. unfold race_create.
  destruct (RateLimiter.checkGeneralRate _ _ _) as [res bs].
  destruct (negb (RateLimiter.allowed res)); [exact Hinv|].
  destruct (negb (raceCreateSchema data)); [exact Hinv|].
  cbn [fst store Server.activeRaces Server.set_races Server.set_buckets Race.id].
  apply wellFormed_insert; [exact Hinv|].
  split; cbn; [discriminate|]. apply NoDup_singleton.
Qed.

Lemma race_join_wellFormed socket now raceId st :
  rostersWellFormed (Server.activeRaces st) ->
  rostersWellFormed (Server.activeRaces (fst (race_join socket now raceId st))).
Proof.
  intros Hinv. unfold race_join.
  destruct (RateLimiter.checkGeneralRate _ _ _) as [res bs].
  destruct (negb (RateLimiter.allowed res)); [exact Hinv|].
  destruct (negb (TestEvents.nonempty raceId)); [exact Hinv|].
  cbn [Server.activeRaces Server.set_buckets].
  destruct (Server.activeRaces st !! raceId) as [race|] eqn:Hrace; [|exact Hinv].
  destruct (_ <=? _)%float; [exact Hinv|].
  destruct (bool_decide (_ = active)); [exact Hinv|].
  destruct (bool_decide (_ = finished)); [exact Hinv|].
  destruct (JSMap.get _ _); [exact Hinv|].
  match goal with |- context [if ?c then _ else _] => destruct c end.
  - destruct (startRaceCountdown _) as [race' effs] eqn:Es.
    cbn [fst Server.activeRaces Server.set_races].
    apply wellFormed_insert; [exact Hinv|].
    apply (wellFormed_same (Race.set_players
             (JSMap.set (Socket.userId socket)
                (Player.fresh (Socket.userId socket) (Socket.username socket) now)
                (Race.players race)) race)).
    + pose proof (startRaceCountdown_players (Race.set_players
             (JSMap.set (Socket.userId socket)
                (Player.fresh (Socket.userId socket) (Socket.username socket) now)
                (Race.players race)) race)) as Hp.
      rewrite Es in Hp. exact Hp.
    + apply wellFormed_players; roster_side.
  - cbn [fst Server.activeRaces Server.set_races].
    apply wellFormed_insert; [exact Hinv|]. apply wellFormed_players; roster_side.
Qed.

Lemma race_leave_wellFormed socket raceId st :
  rostersWellFormed (Server.activeRaces st) ->
  rostersWellFormed (Server.activeRaces (fst (race_leave socket raceId st))).
Proof.
  intros Hinv. unfold race_leave.
  destruct (negb (TestEvents.nonempty raceId)); [exact Hinv|].
  destruct (Server.activeRaces st !! raceId) as [race|] eqn:Hrace; [|exact Hinv].
  destruct (JSMap.has _ _); [|exact Hinv].
  cbn [fst Server.activeRaces Server.set_races Race.players Race.set_players].
  destruct (JSMap.size _ =? 0) eqn:Esize.
  - apply wellFormed_delete, Hinv.
  - apply wellFormed_insert; [exact Hinv|]. apply wellFormed_players; [|roster_side].
    intros Heq. rewrite Heq in Esize. discriminate.
Qed.

Lemma checked_wellFormed now race race' effects c :
  checkRaceCompletion now race = (race', effects, c) -> wellFormed race -> wellFormed race'.
Proof.
  intros E H. pose proof (checkRaceCompletion_wellFormed now race H) as H'.
  rewrite E in H'. exact H'.
Qed.

Lemma race_progress_wellFormed socket now data st :
  rostersWellFormed (Server.activeRaces st) ->
  rostersWellFormed (Server.activeRaces (fst (race_progress socket now data st))).
Proof.
  intros Hinv. unfold race_progress.
  destruct (RateLimiter.checkRaceProgressRate _ _ _) as [res bs].
  destruct (negb (RateLimiter.allowed res)); [exact Hinv|].
  destruct (negb (raceProgressSchema data)); [exact Hinv|].
  cbn [Server.activeRaces Server.set_buckets].
  destruct (Server.activeRaces st !! _) as [race|] eqn:Hrace; [|exact Hinv].
  destruct (JSMap.get _ _) as [player|]; [|exact Hinv].
  destruct (negb (bool_decide _)); [exact Hinv|].
  destruct (_ && _).
  - cbn [Race.startTime Race.set_players]. destruct (Race.startTime race).
    + destruct (checkRaceCompletion _ _) as [[race' effs] c] eqn:Ec.
      apply checked_wellFormed in Ec; [|apply wellFormed_players; roster_side].
      destruct c; cbn [fst Server.activeRaces Server.set_races];
        apply wellFormed_insert; assumption.
    + cbn [fst Server.activeRaces Server.set_races].
      apply wellFormed_insert; [exact Hinv|]. apply wellFormed_players; roster_side.
  - cbn [fst Server.activeRaces Server.set_races].
    apply wellFormed_insert; [exact Hinv|]. apply wellFormed_players; roster_side.
Qed.

Lemma race_finish_wellFormed socket now data st :
  rostersWellFormed (Server.activeRaces st) ->
  rostersWellFormed (Server.activeRaces (fst (race_finish socket now data st))).
Proof.
  intros Hinv. unfold race_finish.
  destruct (negb (raceFinishSchema data)); [exact Hinv|].
  destruct (Server.activeRaces st !! _) as [race|] eqn:Hrace; [|exact Hinv].
  destruct (JSMap.get _ _) as [player|]; [|exact Hinv].
  destruct (Player.isFinished player); [exact Hinv|].
  destruct (checkRaceCompletion _ _) as [[race' effs] c] eqn:Ec.
  apply checked_wellFormed in Ec; [|apply wellFormed_players; roster_side].
  destruct c; cbn [fst Server.activeRaces Server.set_races];
    apply wellFormed_insert; assumption.
Qed.

Lemma race_message_races socket now raceId text st :
  Server.activeRaces (fst (race_message socket now raceId text st)) = Server.activeRaces st.
Proof.
  unfold race_message.
  destruct (RateLimiter.checkChatMessageRate _ _ _) as [res bs].
  destruct (negb (RateLimiter.allowed res)); [reflexivity|].
  destruct (negb (raceMessageSchema raceId text)); [reflexivity|].
  cbn [Server.activeRaces Server.set_buckets].
  destruct (Server.activeRaces st !! raceId); [|reflexivity].
  destruct (negb _); reflexivity.
Qed.

Lemma cleanup_wellFormed socket st :
  rostersWellFormed (Server.activeRaces st) ->
  rostersWellFormed (Server.activeRaces (fst (cleanupUserSessions socket st))).
Proof.
  intros Hinv id race'. unfold cleanupUserSessions.
  cbn [fst Server.activeRaces Server.set_races]. rewrite lookup_omap.
  destruct (Server.activeRaces st !! id) as [race|] eqn:Hrace; [|discriminate].
  cbn. unfold leaveOnDisconnect.
  destruct (JSMap.has _ _); [|intros [= <-]; exact (Hinv _ _ Hrace)].
  cbn [Race.players Race.set_players].
  destruct (JSMap.size _ =? 0) eqn:Esize; [discriminate|]. intros [= <-].
  apply wellFormed_players; [|roster_side].
  intros Heq. rewrite Heq in Esize. discriminate.
Qed.

Lemma onTimer_wellFormed f raceId st :
  (forall race, wellFormed race -> wellFormed (fst (f race))) ->
  rostersWellFormed (Server.activeRaces st) ->
  rostersWellFormed (Server.activeRaces (fst (onTimer f raceId st))).
Proof.
  intros Hf Hinv. unfold onTimer.
  destruct (Server.activeRaces st !! raceId) as [race|] eqn:Hrace; [|exact Hinv].
  pose proof (Hf race (Hinv _ _ Hrace)) as Hwf.
  destruct (f race) as [race' effs]. cbn [fst Server.activeRaces Server.set_races] in *.
  apply wellFormed_insert; assumption.
Qed.

(** No event leaves a race with an empty roster, or a key twice, in the
    registry. *)
Lemma step_wellFormed now ev st :
  rostersWellFormed (Server.activeRaces st) ->
  rostersWellFormed (Server.activeRaces (fst (step now ev st))).
Proof.
  intros Hinv. destruct ev; cbn [step].
  - apply race_create_wellFormed, Hinv.
  - apply race_join_wellFormed, Hinv.
  - apply race_leave_wellFormed, Hinv.
  - apply race_progress_wellFormed, Hinv.
  - apply race_finish_wellFormed, Hinv.
  - rewrite race_message_races. exact Hinv.
  - apply cleanup_wellFormed, Hinv.
  - apply onTimer_wellFormed; [|exact Hinv].
    intros race. apply wellFormed_same, countdownTick_players.
  - apply onTimer_wellFormed; [|exact Hinv]. apply raceTimeoutFired_wellFormed.
Qed.

Lemma run_cons_fst now ev evs st :
  fst (RaceEvents.run ((now, ev) :: evs) st) = fst (RaceEvents.run evs (fst (step now ev st))).
Proof.
  cbn [RaceEvents.run]. destruct (step now ev st) as [st' out]. cbn [fst].
  destruct (RaceEvents.run evs st'). reflexivity.
Qed.

Lemma run_wellFormed evs st :
  rostersWellFormed (Server.activeRaces st) ->
  rostersWellFormed (Server.activeRaces (fst (RaceEvents.run evs st))).
Proof.
  revert st. induction evs as [|[now ev] evs IH]; intros st Hinv; [exact Hinv|].
  rewrite run_cons_fst. apply IH, step_wellFormed, Hinv.
Qed.

Lemma size_keys {V} (m : list (string * V)) : JSMap.size m = Z.of_nat (length (JSMap.keys m)).
Proof. unfold JSMap.size, JSMap.keys. rewrite length_map. reflexivity. Qed.

(** The last player leaving deletes the race, whatever its status. *)
Lemma leave_last socket raceId st race :
  Server.activeRaces st !! raceId = Some race ->
  JSMap.keys (Race.players race) = [Socket.userId socket] ->
  TestEvents.nonempty raceId = true ->
  Server.activeRaces (fst (race_leave socket raceId st)) !! raceId = None.
Proof.
  intros Hrace Hkeys Hid. unfold race_leave. rewrite Hid, Hrace. cbn [negb].
  assert (Hhas : JSMap.has (Socket.userId socket) (Race.players race) = true).
  { apply has_keys. rewrite Hkeys. left. reflexivity. }
  rewrite Hhas. cbn [Race.players Race.set_players].
  rewrite size_keys, delete_keys, Hkeys. cbn [List.filter].
  rewrite String.eqb_refl. cbn [negb length Z.of_nat Z.eqb fst Server.activeRaces Server.set_races].
  apply lookup_delete_eq.
Qed.

Lemma absent_insert (races : gmap string Race.t) id id' race race' :
  races !! id = None -> races !! id' = Some race -> <[id' := race']> races !! id = None.
Proof.
  intros Hnone Hsome. rewrite lookup_insert_ne; [exact Hnone|]. congruence.
Qed.

Lemma absent_delete (races : gmap string Race.t) id id' :
  races !! id = None -> delete id' races !! id = None.
Proof. intros Hnone. rewrite lookup_delete. case_decide; [reflexivity|exact Hnone]. Qed.

(** A race that is not in the registry stays out of it until a
    [race:create] draws its id. *)
Lemma absent_step raceId now ev st :
  Server.activeRaces st !! raceId = None ->
  creates raceId ev = false ->
  Server.activeRaces (fst (step now ev st)) !! raceId = None.
Proof.
  intros Hnone Hev. destruct ev; cbn [step creates] in *.
  - unfold race_create.
    destruct (RateLimiter.checkGeneralRate _ _ _) as [res bs].
    destruct (negb (RateLimiter.allowed res)); [exact Hnone|].
    destruct (negb (raceCreateSchema data)); [exact Hnone|].
    cbn [fst store Server.activeRaces Server.set_races Server.set_buckets Race.id].
    rewrite lookup_insert_ne; [exact Hnone|].
    intros ->. rewrite String.eqb_refl in Hev. discriminate.
  - unfold race_join.
    destruct (RateLimiter.checkGeneralRate _ _ _) as [res bs].
    destruct (negb (RateLimiter.allowed res)); [exact Hnone|].
    destruct (negb (TestEvents.nonempty raceId0)); [exact Hnone|].
    cbn [Server.activeRaces Server.set_buckets].
    destruct (Server.activeRaces st !! raceId0) as [race|] eqn:Hrace; [|exact Hnone].
    destruct (_ <=? _)%float; [exact Hnone|].
    destruct (bool_decide (_ = active)); [exact Hnone|].
    destruct (bool_decide (_ = finished)); [exact Hnone|].
    destruct (JSMap.get _ _); [exact Hnone|].
    match goal with |- context [if ?c then _ else _] => destruct c end;
      [destruct (startRaceCountdown _)|];
      cbn [fst Server.activeRaces Server.set_races]; eapply absent_insert; eassumption.
  - unfold race_leave.
    destruct (negb (TestEvents.nonempty raceId0)); [exact Hnone|].
    destruct (Server.activeRaces st !! raceId0) as [race|] eqn:Hrace; [|exact Hnone].
    destruct (JSMap.has _ _); [|exact Hnone].
    cbn [fst Server.activeRaces Server.set_races].
    destruct (_ =? 0); [apply absent_delete, Hnone|eapply absent_insert; eassumption].
  - unfold race_progress.
    destruct (RateLimiter.checkRaceProgressRate _ _ _) as [res bs].
    destruct (negb (RateLimiter.allowed res)); [exact Hnone|].
    destruct (negb (raceProgressSchema data)); [exact Hnone|].
    cbn [Server.activeRaces Server.set_buckets].
    destruct (Server.activeRaces st !! RaceProgress.raceId data) as [race|] eqn:Hrace;
      [|exact Hnone].
    destruct (JSMap.get _ _) as [player|]; [|exact Hnone].
    destruct (negb (bool_decide _)); [exact Hnone|].
    destruct (_ && _); [cbn [Race.startTime Race.set_players]; destruct (Race.startTime race);
                        [destruct (checkRaceCompletion _ _) as [[race' effs] []]|]|];
      cbn [fst Server.activeRaces Server.set_races]; eapply absent_insert; eassumption.
  - unfold race_finish.
    destruct (negb (raceFinishSchema data)); [exact Hnone|].
    destruct (Server.activeRaces st !! RaceFinish.raceId data) as [race|] eqn:Hrace;
      [|exact Hnone].
    destruct (JSMap.get _ _) as [player|]; [|exact Hnone].
    destruct (Player.isFinished player); [exact Hnone|].
    destruct (checkRaceCompletion _ _) as [[race' effs] []];
      cbn [fst Server.activeRaces Server.set_races]; eapply absent_insert; eassumption.
  - rewrite race_message_races. exact Hnone.
  - unfold cleanupUserSessions. cbn [fst Server.activeRaces Server.set_races].
    rewrite lookup_omap, Hnone. reflexivity.
  - unfold onTimer.
    destruct (Server.activeRaces st !! raceId0) as [race|] eqn:Hrace; [|exact Hnone].
    destruct (countdownTick now race).
    cbn [fst Server.activeRaces Server.set_races]. eapply absent_insert; eassumption.
  - unfold onTimer.
    destruct (Server.activeRaces st !! raceId0) as [race|] eqn:Hrace; [|exact Hnone].
    destruct (raceTimeoutFired now race).
    cbn [fst Server.activeRaces Server.set_races]. eapply absent_insert; eassumption.
Qed.

Lemma absent_run raceId evs st :
  Server.activeRaces st !! raceId = None ->
  forallb (fun e => negb (creates raceId (snd e))) evs = true ->
  Server.activeRaces (fst (RaceEvents.run evs st)) !! raceId = None.
Proof.
  revert st. induction evs as [|[now ev] evs IH]; intros st Hnone Hevs; [exact Hnone|].
  cbn [forallb snd] in Hevs. apply andb_true_iff in Hevs as [Hev Hevs].
  rewrite run_cons_fst. apply IH; [|exact Hevs].
  apply absent_step; [exact Hnone|]. destruct (creates raceId ev); [discriminate|reflexivity].
Qed.

Lemma progress_not_found socket now data st :
  Server.activeRaces st !! RaceProgress.raceId data = None ->
  RateLimiter.allowed
    (fst (RateLimiter.checkRaceProgressRate (Socket.userId socket) now (Server.buckets st)))
    = true ->
  raceProgressSchema data = true ->
  snd (race_progress socket now data st)
  = [emitError socket 2001 "RACE_NOT_FOUND" "Race not found" NoDetails].
Proof.
  intros Hnone Hrate Hschema. unfold race_progress.
  destruct (RateLimiter.checkRaceProgressRate _ _ _) as [res bs]. cbn [fst] in Hrate.
  rewrite Hrate, Hschema. cbn [negb Server.activeRaces Server.set_buckets].
  rewrite Hnone. reflexivity.
Qed.

Lemma message_not_found socket now raceId text st :
  Server.activeRaces st !! raceId = None ->
  RateLimiter.allowed
    (fst (RateLimiter.checkChatMessageRate (Socket.userId socket) now (Server.buckets st)))
    = true ->
  raceMessageSchema raceId text = true ->
  snd (race_message socket now raceId text st)
  = [emitError socket 2001 "RACE_NOT_FOUND" "Race not found" NoDetails].
Proof.
  intros Hnone Hrate Hschema. unfold race_message.
  destruct (RateLimiter.checkChatMessageRate _ _ _) as [res bs]. cbn [fst] in Hrate.
  rewrite Hrate, Hschema. cbn [negb Server.activeRaces Server.set_buckets].
  rewrite Hnone. reflexivity.
Qed.

End RosterFacts.

(** C10. In every state the handlers and timers can reach, each race of the
    registry has a player; when the last player leaves, [race:leave] deletes
    the race at once, whatever its status, and from then on, until a
    [race:create] draws the id again, a [race:progress] or [race:message]
    for it that passes the rate limit and the schema is answered with
    RACE_NOT_FOUND. *)
Theorem last_leave_deletes_race
    (history later : list (Z * RaceEvents.event)) (socket sender : Socket.t)
    (raceId : string) (race : Race.t) (now : Z) (data : RaceProgress.t) (text : string) :
  let st := fst (RaceEvents.run history Server.init) in
  let left := fst (RaceEvents.race_leave socket raceId st) in
  let st' := fst (RaceEvents.run later left) in
  Server.activeRaces st !! raceId = Some race ->
  JSMap.keys (Race.players race) = [Socket.userId socket] ->
  TestEvents.nonempty raceId = true ->
  forallb (fun e => negb (RaceEvents.creates raceId (snd e))) later = true ->
  RaceProgress.raceId data = raceId ->
  RateLimiter.allowed
    (fst (RateLimiter.checkRaceProgressRate (Socket.userId sender) now (Server.buckets st')))
    = true ->
  RaceEvents.raceProgressSchema data = true ->
  RateLimiter.allowed
    (fst (RateLimiter.checkChatMessageRate (Socket.userId sender) now (Server.buckets st')))
    = true ->
  RaceEvents.raceMessageSchema raceId text = true ->
  (forall id r, Server.activeRaces st !! id = Some r -> Race.players r <> [])
  /\ Server.activeRaces left !! raceId = None
  /\ Server.activeRaces st' !! raceId = None
  /\ snd (RaceEvents.race_progress sender now data st')
     = [emitError sender 2001 "RACE_NOT_FOUND" "Race not found" NoDetails]
  /\ snd (RaceEvents.race_message sender now raceId text st')
     = [emitError sender 2001 "RACE_NOT_FOUND" "Race not found" NoDetails].
Proof.
  intros st left st' Hrace Hlast Hid Hlater Hdata Hprogress Hschema Hchat Htext.
  assert (Hleft : Server.activeRaces left !! raceId = None)
    by (apply (leave_last socket raceId st race); assumption).
  assert (Hgone : Server.activeRaces st' !! raceId = None)
    by (apply absent_run; assumption).
  split; [|split; [exact Hleft|split; [exact Hgone|split]]].
  - intros id r Hr.
    assert (Hinv : RaceEvents.rostersWellFormed (Server.activeRaces st)).
    { apply run_wellFormed. intros id' r'. cbn. rewrite lookup_empty. discriminate. }
    exact (proj1 (Hinv id r Hr)).
  - apply progress_not_found; [rewrite Hdata|..]; assumption.
  - apply message_not_found; assumption.
Qed.

(** Alice is alone in race [R] and leaves; Bob then asks about it. *)
Lemma last_leave_deletes_race_witness :
  let st := fst (RaceEvents.run Scenario.aliceAlone Server.init) in
  let left := fst (RaceEvents.race_leave Scenario.alice "R" st) in
  let st' := fst (RaceEvents.run [(3000, RaceEvents.CountdownTick "R");
                                  (3500, RaceEvents.Join Scenario.bob "R")] left) in
  (forall id r, Server.activeRaces st !! id = Some r -> Race.players r <> [])
  /\ Server.activeRaces left !! "R" = None
  /\ Server.activeRaces st' !! "R" = None
  /\ snd (RaceEvents.race_progress Scenario.bob 4000 (Scenario.progressR true) st')
     = [emitError Scenario.bob 2001 "RACE_NOT_FOUND" "Race not found" NoDetails]
  /\ snd (RaceEvents.race_message Scenario.bob 4000 "R" "anyone here" st')
     = [emitError Scenario.bob 2001 "RACE_NOT_FOUND" "Race not found" NoDetails].
Proof.
  apply (last_leave_deletes_race Scenario.aliceAlone
           [(3000, RaceEvents.CountdownTick "R"); (3500, RaceEvents.Join Scenario.bob "R")]
           Scenario.alice Scenario.bob "R"
           (Scenario.raceR (fst (RaceEvents.run Scenario.aliceAlone Server.init)))
           4000 (Scenario.progressR true) "anyone here");
    vm_compute; reflexivity.
Defined.

(** ** Races: the status and the finished flag on concrete runs *)

(** C4 on a concrete run. Both players of a race send [race:finish] while
    the countdown runs: [endRace] marks the race finished (and throws before
    it can publish), the countdown's last tick then sets it active again,
    and the race timeout finishes it a second time. The status goes
    waiting, countdown, finished, active, finished. *)
Theorem status_regresses :
  RaceEvents.statusTrace "R" Scenario.finishedEarly Server.init
  = [Some waiting; Some countdown; Some countdown; Some finished;
     Some finished; Some finished; Some finished; Some finished; Some finished;
     Some active; Some finished].
Proof. vm_compute. reflexivity. Qed.

(** C9 on a concrete run. In an active race Alice reports [isFinished] true,
    then false, then sends [race:finish]: her flag goes true, false, true
    and her finish time, 13000 ms by the server's clock, is overwritten with
    the 99 ms she claims. *)
Theorem finished_flag_regresses :
  RaceEvents.playerTrace "R" "alice" Scenario.finishedTwice Server.init
  = [Some (false, None); Some (false, None); Some (false, None); Some (false, None);
     Some (false, None); Some (false, None); Some (false, None); Some (false, None);
     Some (true, Some 13000%float);
     Some (false, Some 13000%float);
     Some (true, Some 99%float)].
Proof. vm_compute. reflexivity. Qed.

(** ** Races: capacity *)

Section CapacityFacts.
Import RaceEvents.







Lemma size_set_new {V} k (v : V) m :
  JSMap.has k m = false -> JSMap.size (JSMap.set k v m) = JSMap.size m + 1.
Proof.
  intros Hnew. rewrite !size_keys, set_keys, Hnew, length_app. cbn. lia.
Qed.












End CapacityFacts.


(** * Further properties *)

(** ** The rate limiter, class by class *)

Section LimiterFacts.
Import RateLimiter Monitoring.

Lemma limits_period_pos ty : 0 < period (limits ty).
Proof. destruct ty; vm_compute; reflexivity. Qed.

Lemma limits_capacity_pos ty : 0 < Limit.tokens (limits ty).
Proof. destruct ty; vm_compute; reflexivity. Qed.

Lemma windowBound_eq l width :
  0 < period l -> 0 < width ->
  windowBound l width = Limit.tokens l + (width - 1) / period l.
Proof.
  intros Hp Hw. unfold windowBound.
  assert ((width + period l - 2) / period l <= (width - 1) / period l + 1).
  { replace ((width - 1) / period l + 1) with ((width - 1 + 1 * period l) / period l)
      by (rewrite Z.div_add by lia; reflexivity).
    apply Z.div_le_mono; lia. }
  lia.
Qed.

(** X1. On a clock that does not run backwards, and between two runs of
    [cleanup], every class of the limiter admits in every window of
    [width] ms at most its capacity plus one event per refill period that
    ends inside the window: [tokens + (width - 1) / (window / refillRate)]
    events of one identity. *)
Theorem rate_window_bound (calls : list call) (key : string) (ty : limitType)
    (lo width : Z) :
  StronglySorted Z.le (map call_now calls) ->
  0 < width ->
  accepted_in key ty lo width (fst (run calls ∅))
  <= Limit.tokens (limits ty) + (width - 1) / period (limits ty).
Proof.
  intros Hs Hw.
  rewrite accepted_in_bucket, lookup_empty.
  rewrite <- (windowBound_eq _ _ (limits_period_pos ty) Hw).
  apply window_bound; auto using limits_period_pos, limits_capacity_pos.
  - unfold timesOf. now apply StronglySorted_filter_map.
  - exact I.
Qed.

(** A first check creates a full bucket and passes. *)
Lemma checkBucket_new l now :
  0 < period l -> 0 < Limit.tokens l ->
  checkBucket l now (newBucket l now)
  = ({| allowed := true; remaining := Limit.tokens l - 1;
        resetTime := now + Limit.window l; retryAfter := None |},
     {| Bucket.tokens := Limit.tokens l - 1; Bucket.lastRefill := now;
        Bucket.createdAt := now |}).
Proof.
  intros Hp Hc. unfold checkBucket, newBucket.
  cbn [Bucket.lastRefill Bucket.tokens Bucket.createdAt].
  rewrite Z.sub_diag, Z.div_0_l by lia. cbn [Z.ltb Z.compare].
  cbn [Bucket.lastRefill Bucket.tokens Bucket.createdAt].
  destruct (0 <? Limit.tokens l) eqn:E; [reflexivity | lia].
Qed.

(** A refusal leaves the bucket as it was: empty, and less than one period
    after its last refill. *)
Lemma checkBucket_denied l now b :
  0 < period l -> 0 < Limit.tokens l ->
  0 <= Bucket.tokens b -> Bucket.lastRefill b <= now ->
  allowed (fst (checkBucket l now b)) = false ->
  snd (checkBucket l now b) = b
  /\ Bucket.tokens b = 0
  /\ retryAfter (fst (checkBucket l now b)) = Some (period l - (now - Bucket.lastRefill b))
  /\ 0 <= now - Bucket.lastRefill b < period l.
Proof.
  intros Hp Hc Ht Hl. unfold checkBucket. cbv zeta.
  destruct (0 <? (now - Bucket.lastRefill b) / period l) eqn:Ea;
    cbn [Bucket.tokens Bucket.lastRefill Bucket.createdAt].
  - destruct (0 <? Z.min _ _) eqn:Et; cbn; [discriminate | lia].
  - destruct (0 <? Bucket.tokens b) eqn:Et; cbn; [discriminate | ].
    intros _. repeat split; try lia.
    apply Z.ltb_ge in Ea.
    destruct (Z.lt_ge_cases (now - Bucket.lastRefill b) (period l)) as [|Hge]; [assumption|].
    assert (1 <= (now - Bucket.lastRefill b) / period l); [|lia].
    apply Z.div_le_lower_bound; lia.
Qed.

(** An empty bucket lets an event through exactly from one period after
    its last refill on. *)
Lemma checkBucket_empty l now b :
  0 < period l -> 0 < Limit.tokens l ->
  Bucket.tokens b = 0 ->
  allowed (fst (checkBucket l now b)) = (Bucket.lastRefill b + period l <=? now).
Proof.
  intros Hp Hc Ht. unfold checkBucket. cbv zeta.
  destruct (0 <? (now - Bucket.lastRefill b) / period l) eqn:Ea;
    cbn [Bucket.tokens Bucket.lastRefill Bucket.createdAt].
  - apply Z.ltb_lt in Ea.
    assert (period l <= now - Bucket.lastRefill b).
    { destruct (Z.lt_ge_cases (now - Bucket.lastRefill b) (period l)) as [Hlt|]; [|assumption].
      destruct (Z.lt_ge_cases (now - Bucket.lastRefill b) 0).
      - assert ((now - Bucket.lastRefill b) / period l < 0)
          by (apply Z.div_lt_upper_bound; lia).
        lia.
      - rewrite Z.div_small in Ea by lia. lia. }
    destruct (0 <? Z.min _ _) eqn:Et; cbn; [symmetry; apply Z.leb_le; lia | lia].
  - apply Z.ltb_ge in Ea. rewrite Ht. cbn.
    symmetry. apply Z.leb_gt.
    destruct (Z.lt_ge_cases (now - Bucket.lastRefill b) (period l)); [lia|].
    assert (1 <= (now - Bucket.lastRefill b) / period l); [|lia].
    apply Z.div_le_lower_bound; lia.
Qed.

(** X2. The [retryAfter] of a refusal is honest. When [checkRate] refuses
    an identity (on a bucket that holds no debt and was not refilled in the
    future), it names a wait [r] with [0 < r <= window / refillRate]; asked
    again with nothing in between, the limiter lets that identity through
    exactly from [now + r] on. *)
Theorem retry_after_honest (key : string) (ty : limitType) (now : Z)
    (buckets : gmap string Bucket.t) :
  (forall b, buckets !! bucketKey ty key = Some b ->
             0 <= Bucket.tokens b /\ Bucket.lastRefill b <= now) ->
  allowed (fst (checkRate key ty now buckets)) = false ->
  exists r,
    retryAfter (fst (checkRate key ty now buckets)) = Some r
    /\ 0 < r <= period (limits ty)
    /\ forall now', now <= now' ->
         allowed (fst (checkRate key ty now' (snd (checkRate key ty now buckets))))
         = (now + r <=? now').
Proof.
  intros Hb. rewrite checkRate_bucket. cbn [fst snd].
  destruct (buckets !! bucketKey ty key) as [b|] eqn:E; cbn [from_option id].
  - destruct (Hb b eq_refl) as [Ht Hl]. intros Hd.
    destruct (checkBucket_denied _ _ _ (limits_period_pos ty) (limits_capacity_pos ty)
                Ht Hl Hd) as (Hsame & Hz & Hr & Hel).
    exists (period (limits ty) - (now - Bucket.lastRefill b)).
    split; [assumption|]. split; [lia|].
    intros now' Hn. rewrite checkRate_bucket. cbn [fst].
    rewrite lookup_insert_eq. cbn [from_option id]. rewrite Hsame.
    rewrite (checkBucket_empty _ _ _ (limits_period_pos ty) (limits_capacity_pos ty) Hz).
    f_equal. lia.
  - rewrite (checkBucket_new _ _ (limits_period_pos ty) (limits_capacity_pos ty)).
    discriminate.
Qed.

Lemma checkBucket_range l now b :
  0 < period l -> 0 < Limit.tokens l ->
  0 <= Bucket.tokens b <= Limit.tokens l ->
  0 <= Bucket.tokens (snd (checkBucket l now b)) < Limit.tokens l.
Proof.
  intros Hp Hc Ht. unfold checkBucket. cbv zeta.
  destruct (0 <? (now - Bucket.lastRefill b) / period l) eqn:Ea;
    cbn [Bucket.tokens Bucket.lastRefill Bucket.createdAt].
  - destruct (0 <? Z.min _ _) eqn:Et; cbn; lia.
  - destruct (0 <? Bucket.tokens b) eqn:Et; cbn; lia.
Qed.

Lemma run_inRange calls bs :
  (forall k b, bs !! k = Some b -> inRange k b) ->
  forall k b, snd (run calls bs) !! k = Some b -> inRange k b.
Proof.
  revert bs. induction calls as [|c calls IH]; intros bs Hbs k b; [apply Hbs|].
  rewrite run_cons. cbn [snd]. apply IH. clear k b. intros k b.
  rewrite checkRate_bucket. cbn [snd].
  destruct (decide (bucketKey (call_type c) (call_key c) = k)) as [<-|Hne].
  - rewrite lookup_insert_eq. intros [= <-].
    exists (call_type c), (call_key c). split; [reflexivity|].
    apply checkBucket_range; auto using limits_period_pos, limits_capacity_pos.
    destruct (bs !! bucketKey (call_type c) (call_key c)) as [b|] eqn:E; cbn.
    + destruct (Hbs _ _ E) as (ty & key & Hk & Hr).
      apply bucketKey_inj in Hk as [<- _]. lia.
    + pose proof (limits_capacity_pos (call_type c)). lia.
  - rewrite lookup_insert_ne by assumption. apply Hbs.
Qed.

(** X3. Whatever is asked of the limiter, and on whatever clock, every
    bucket it holds belongs to one of the five classes, under the key
    [class:identity], and holds at least 0 and fewer than the class's
    capacity of tokens. *)
Theorem buckets_in_range (calls : list call) (k : string) (b : Bucket.t) :
  snd (run calls ∅) !! k = Some b ->
  exists ty key,
    k = bucketKey ty key /\ 0 <= Bucket.tokens b < Limit.tokens (limits ty).
Proof.
  apply run_inRange. intros k' b'. rewrite lookup_empty. discriminate.
Qed.

Lemma hits_true key ty c : hits key ty c = true <-> call_key c = key /\ call_type c = ty.
Proof.
  unfold hits. rewrite andb_true_iff, !bool_decide_eq_true. reflexivity.
Qed.

(** The decisions of one identity on one class are those of its own
    bucket, replayed on its own checks. *)
Lemma decisions_bucket key ty calls bs :
  decisionsOf key ty (fst (run calls bs))
  = runBucket (limits ty) (timesOf key ty calls) (bs !! bucketKey ty key).
Proof.
  revert bs. induction calls as [|c calls IH]; intros bs; [reflexivity|].
  rewrite run_cons. cbn [fst]. unfold decisionsOf, timesOf in *.
  cbn [List.filter fst snd].
  destruct (hits key ty c) eqn:Eh.
  - apply hits_true in Eh as [<- <-]. cbn [map fst snd].
    rewrite runBucket_cons. rewrite IH.
    rewrite checkRate_bucket. cbn [fst snd]. rewrite lookup_insert_eq. reflexivity.
  - rewrite IH. f_equal. apply checkRate_other.
    intros [= -> ->]. unfold hits in Eh.
    rewrite !bool_decide_eq_true_2 in Eh by reflexivity. discriminate.
Qed.

(** X4. The decisions an identity gets on a class depend on the times of
    its own checks on that class only: what other identities ask, what it
    asks on other classes, and identities whose names contain a colon,
    change none of them. *)
Theorem checks_isolated (calls calls' : list call) (key : string) (ty : limitType) :
  timesOf key ty calls = timesOf key ty calls' ->
  decisionsOf key ty (fst (run calls ∅)) = decisionsOf key ty (fst (run calls' ∅)).
Proof.
  intros H. rewrite !decisions_bucket, H. reflexivity.
Qed.

Lemma checkBucket_createdAt l now b :
  Bucket.createdAt (snd (checkBucket l now b)) = Bucket.createdAt b.
Proof.
  unfold checkBucket. cbv zeta.
  destruct (0 <? (now - Bucket.lastRefill b) / period l);
    cbn [Bucket.tokens Bucket.lastRefill Bucket.createdAt].
  - destruct (0 <? Z.min _ _); reflexivity.
  - destruct (0 <? Bucket.tokens b); reflexivity.
Qed.

Lemma run_createdAt calls bs k b :
  bs !! k = Some b ->
  exists b', snd (run calls bs) !! k = Some b' /\ Bucket.createdAt b' = Bucket.createdAt b.
Proof.
  revert bs b. induction calls as [|c calls IH]; intros bs b Hk; [eauto|].
  rewrite run_cons. cbn [snd].
  rewrite checkRate_bucket. cbn [snd].
  destruct (decide (bucketKey (call_type c) (call_key c) = k)) as [<-|Hne].
  - rewrite Hk. cbn [from_option id].
    edestruct IH as (b' & Hb' & Hc); [apply lookup_insert_eq|].
    exists b'. split; [exact Hb'|]. rewrite Hc. apply checkBucket_createdAt.
  - apply IH. rewrite lookup_insert_ne by assumption. exact Hk.
Qed.

Lemma cleanup_lookup now bs k :
  cleanup now bs !! k
  = match bs !! k with
    | Some b => if decide (10 * 60 * 1000 < now - Bucket.createdAt b) then None else Some b
    | None => None
    end.
Proof.
  unfold cleanup. rewrite map_lookup_filter.
  destruct (bs !! k) as [b|]; cbn; [|reflexivity].
  destruct (decide (10 * 60 * 1000 < now - Bucket.createdAt b)).
  - rewrite option_guard_False; [reflexivity|]. cbn. tauto.
  - rewrite option_guard_True; [reflexivity|]. cbn. assumption.
Qed.

(** X5. A bucket lives ten minutes from its first check, however it is
    used: [cleanup] at time [now] drops the bucket that a first check
    created at [t0] exactly when [now - t0] exceeds 600000 ms and leaves it
    untouched otherwise; after the drop the identity's next check passes
    on a full bucket. *)
Theorem cleanup_by_age (key : string) (ty : limitType) (t0 : Z) (calls : list call)
    (now : Z) :
  let first := {| call_key := key; call_type := ty; call_now := t0 |} in
  let buckets := snd (run (first :: calls) ∅) in
  (cleanup now buckets !! bucketKey ty key = None <-> 10 * 60 * 1000 < now - t0)
  /\ (now - t0 <= 10 * 60 * 1000 ->
      cleanup now buckets !! bucketKey ty key = buckets !! bucketKey ty key)
  /\ (10 * 60 * 1000 < now - t0 ->
      forall now',
        let res := fst (checkRate key ty now' (cleanup now buckets)) in
        allowed res = true /\ remaining res = Limit.tokens (limits ty) - 1).
Proof.
  cbv zeta. rewrite run_cons. cbn [snd call_key call_type call_now].
  rewrite checkRate_bucket, lookup_empty. cbn [snd from_option id].
  rewrite (checkBucket_new _ _ (limits_period_pos ty) (limits_capacity_pos ty)). cbn [snd].
  set (b0 := {| Bucket.tokens := _ |}).
  destruct (run_createdAt calls (<[bucketKey ty key := b0]> ∅) (bucketKey ty key) b0)
    as (b' & Hb' & Hc); [apply lookup_insert_eq|].
  cbn in Hc.
  pose proof (cleanup_lookup now
    (snd (run calls (<[bucketKey ty key := b0]> ∅))) (bucketKey ty key)) as Hl.
  rewrite Hb', Hc in Hl.
  destruct (decide (10 * 60 * 1000 < now - t0)) as [Hold|Hyoung].
  - split; [split; [intros _; exact Hold | intros _; exact Hl]|].
    split; [lia|]. intros _ now'.
    rewrite checkRate_bucket, Hl. cbn [fst from_option id].
    rewrite (checkBucket_new _ _ (limits_period_pos ty) (limits_capacity_pos ty)). cbn. auto.
  - split; [split; [rewrite Hl; discriminate | lia]|].
    split; [intros _; rewrite Hl, Hb'; reflexivity | lia].
Qed.

Lemma beforeColon_bucketKey ty key : beforeColon (bucketKey ty key) = limitName ty.
Proof. destruct ty; reflexivity. Qed.

Lemma limitName_inj ty ty' : limitName ty = limitName ty' -> ty = ty'.
Proof. destruct ty, ty'; cbn; intros H; simplify_eq; reflexivity. Qed.

Lemma byType_count (l : list string) (t : string) :
  foldr (fun key byType =>
           let type := beforeColon key in
           <[type := default 0 (byType !! type) + 1]> byType) (∅ : gmap string Z) l !! t
  = if typeCount t l =? 0 then None else Some (typeCount t l).
Proof.
  unfold typeCount. induction l as [|k l IH]; [reflexivity|].
  cbn [foldr List.filter]. cbv zeta.
  destruct (String.eqb (beforeColon k) t) eqn:E.
  - apply String.eqb_eq in E. subst t. rewrite lookup_insert_eq, IH.
    cbn [length]. set (n := length _).
    assert ((Z.of_nat (S n) =? 0) = false) as -> by (apply Z.eqb_neq; lia).
    destruct (Z.eqb_spec (Z.of_nat n) 0); cbn [from_option id]; f_equal; lia.
  - apply String.eqb_neq in E. rewrite lookup_insert_ne by assumption. apply IH.
Qed.

(** The keys of a replay are those of its calls. *)
Lemma run_dom calls bs k :
  is_Some (snd (run calls bs) !! k)
  <-> is_Some (bs !! k)
      \/ exists c, In c calls /\ k = bucketKey (call_type c) (call_key c).
Proof.
  revert bs. induction calls as [|c calls IH]; intros bs.
  - cbn. split; [auto|]. intros [H|(c & [] & _)]. exact H.
  - rewrite run_cons. cbn [snd]. rewrite IH, checkRate_bucket. cbn [snd].
    destruct (decide (bucketKey (call_type c) (call_key c) = k)) as [<-|Hne].
    + rewrite lookup_insert_eq. split; intros _.
      * right. exists c. split; [left; reflexivity | reflexivity].
      * left. eauto.
    + rewrite lookup_insert_ne by assumption. split.
      * intros [H|(c' & Hin & ->)]; [auto|].
        right. exists c'. split; [right; exact Hin | reflexivity].
      * intros [H|(c' & [<-|Hin] & ->)]; [auto | congruence |].
        right. exists c'. auto.
Qed.

Lemma keys_of_class calls ty :
  List.filter (fun k => String.eqb (beforeColon k) (limitName ty))
    (map fst (map_to_list (snd (run calls ∅))))
  ≡ₚ map (bucketKey ty) (identities ty calls).
Proof.
  apply NoDup_Permutation.
  - apply List.NoDup_filter, NoDup_ListNoDup, NoDup_fst_map_to_list.
  - apply NoDup_ListNoDup, NoDup_fmap_2.
    + intros k k' H. apply bucketKey_inj in H. tauto.
    + apply NoDup_remove_dups.
  - intros k. rewrite List.filter_In, !in_map_iff. unfold identities. split.
    + intros [([k' b] & <- & Hkb) Hp]. apply String.eqb_eq in Hp. cbn in Hp |- *.
      apply list_elem_of_In, elem_of_map_to_list in Hkb.
      assert (is_Some (snd (run calls ∅) !! k')) as Hs by eauto.
      apply run_dom in Hs as [Hs|(c & Hin & ->)].
      { rewrite lookup_empty in Hs. destruct Hs; discriminate. }
      rewrite beforeColon_bucketKey in Hp. apply limitName_inj in Hp. subst ty.
      exists (call_key c). split; [reflexivity|].
      apply list_elem_of_In, elem_of_remove_dups, list_elem_of_In, in_map_iff.
      exists c. split; [reflexivity|].
      apply List.filter_In. split; [exact Hin|].
      apply bool_decide_eq_true_2. reflexivity.
    + intros (key & <- & Hkey).
      apply list_elem_of_In, elem_of_remove_dups, list_elem_of_In, in_map_iff in Hkey
        as (c & <- & Hc).
      apply List.filter_In in Hc as [Hin Hty].
      apply bool_decide_eq_true_1 in Hty. subst ty.
      split; [|apply String.eqb_eq, beforeColon_bucketKey].
      assert (is_Some (snd (run calls ∅) !! bucketKey (call_type c) (call_key c)))
        as [b Hb].
      { apply run_dom. right. eauto. }
      exists (bucketKey (call_type c) (call_key c), b).
      split; [reflexivity|]. apply list_elem_of_In, elem_of_map_to_list. exact Hb.
Qed.

Lemma keys_of_run calls :
  map fst (map_to_list (snd (run calls ∅)))
  ≡ₚ remove_dups (map (fun c => bucketKey (call_type c) (call_key c)) calls).
Proof.
  apply NoDup_Permutation.
  - apply NoDup_ListNoDup, NoDup_fst_map_to_list.
  - apply NoDup_ListNoDup, NoDup_remove_dups.
  - intros k. rewrite in_map_iff. split.
    + intros ([k' b] & <- & Hkb). cbn.
      apply list_elem_of_In, elem_of_map_to_list in Hkb.
      assert (is_Some (snd (run calls ∅) !! k')) as Hs by eauto.
      apply run_dom in Hs as [Hs|(c & Hin & ->)].
      { rewrite lookup_empty in Hs. destruct Hs; discriminate. }
      apply list_elem_of_In, elem_of_remove_dups, list_elem_of_In, in_map_iff. eauto.
    + intros Hk.
      apply list_elem_of_In, elem_of_remove_dups, list_elem_of_In, in_map_iff in Hk
        as (c & <- & Hin).
      assert (is_Some (snd (run calls ∅) !! bucketKey (call_type c) (call_key c)))
        as [b Hb].
      { apply run_dom. right. eauto. }
      exists (bucketKey (call_type c) (call_key c), b).
      split; [reflexivity|]. apply list_elem_of_In, elem_of_map_to_list. exact Hb.
Qed.

(** X6. [getStats] counts identities. After any log of checks,
    [bucketsByType] holds under each class's name the number of distinct
    identities checked on that class (no entry when there is none), also
    for identities with a colon in their name, and [totalBuckets] is the
    number of distinct class-and-identity pairs. *)
Theorem getStats_counts (calls : list call) (ty : limitType) :
  let stats := getStats (snd (run calls ∅)) in
  let n := Z.of_nat (length (identities ty calls)) in
  bucketsByType stats !! limitName ty = (if n =? 0 then None else Some n)
  /\ totalBuckets stats
     = Z.of_nat (length (remove_dups
                           (map (fun c => bucketKey (call_type c) (call_key c)) calls))).
Proof.
  cbv zeta. unfold getStats. cbn [bucketsByType totalBuckets]. split.
  - rewrite byType_count. unfold typeCount.
    rewrite (Permutation_length (keys_of_class calls ty)), length_map. reflexivity.
  - rewrite <- (Permutation_length (keys_of_run calls)), length_map.
    rewrite length_map_to_list. reflexivity.
Qed.

End LimiterFacts.

Lemma chatter_sorted : StronglySorted Z.le (map RateLimiter.call_now Examples.chatter).
Proof. apply nondecreasing_sorted. vm_compute. reflexivity. Qed.

(** Bob's chatter: at most 5 + 4 messages in the first minute. *)
Lemma rate_window_bound_witness :
  RateLimiter.accepted_in "bob" RateLimiter.chatMessage 0 60000
    (fst (RateLimiter.run Examples.chatter ∅))
  <= Limit.tokens (RateLimiter.limits RateLimiter.chatMessage)
     + (60000 - 1) / RateLimiter.period (RateLimiter.limits RateLimiter.chatMessage).
Proof.
  apply (rate_window_bound Examples.chatter "bob" RateLimiter.chatMessage 0 60000).
  - exact chatter_sorted.
  - lia.
Defined.

(** Alice, refused at 20 ms on her spent keystroke bucket. *)
Lemma retry_after_honest_witness :
  exists r,
    RateLimiter.retryAfter
      (fst (RateLimiter.checkRate "alice" RateLimiter.keystroke 20
              (Server.buckets Scenario.drained))) = Some r
    /\ 0 < r <= RateLimiter.period (RateLimiter.limits RateLimiter.keystroke)
    /\ forall now', 20 <= now' ->
         RateLimiter.allowed
           (fst (RateLimiter.checkRate "alice" RateLimiter.keystroke now'
                   (snd (RateLimiter.checkRate "alice" RateLimiter.keystroke 20
                           (Server.buckets Scenario.drained)))))
         = (20 + r <=? now').
Proof.
  apply (retry_after_honest "alice" RateLimiter.keystroke 20 (Server.buckets Scenario.drained)).
  - intros b H. vm_compute in H. injection H as <-. vm_compute. split; discriminate.
  - vm_compute. reflexivity.
Defined.

(** Alice's spent bucket is in range. *)
Lemma buckets_in_range_witness :
  exists ty key,
    "keystroke:alice" = RateLimiter.bucketKey ty key
    /\ 0 <= Bucket.tokens Examples.spent < Limit.tokens (RateLimiter.limits ty).
Proof.
  apply (buckets_in_range Examples.alone "keystroke:alice" Examples.spent).
  vm_compute. reflexivity.
Defined.

(** Alice's twenty keystrokes get the same answers with and without Bob's
    chatter before them. *)
Lemma checks_isolated_witness :
  Monitoring.decisionsOf "alice" RateLimiter.keystroke
    (fst (RateLimiter.run Examples.alone ∅))
  = Monitoring.decisionsOf "alice" RateLimiter.keystroke
      (fst (RateLimiter.run Examples.crowded ∅)).
Proof.
  apply (checks_isolated Examples.alone Examples.crowded "alice" RateLimiter.keystroke).
  vm_compute. reflexivity.
Defined.

(** ** Statistics and validators of socketHelpers.js *)

Section HelperFacts.
Import JS SocketHelpers Validators.

Lemma max0_nonneg (x : float) : (Math_max 0 x <? 0)%float = false.
Proof.
  unfold Math_max. change (is_nan 0) with false. cbn [orb].
  destruct (is_nan x); [reflexivity|].
  destruct (0 <? x)%float eqn:E; [now apply ltb_asym|].
  destruct (x <? 0)%float; reflexivity.
Qed.

Lemma min100_le (x : float) : (100 <? Math_min 100 x)%float = false.
Proof.
  unfold Math_min. change (is_nan 100) with false. cbn [orb].
  destruct (is_nan x); [reflexivity|].
  destruct (100 <? x)%float eqn:E; [reflexivity|].
  destruct (x <? 100)%float eqn:E'; [now apply ltb_asym|].
  change (get_sign 100) with false. cbv iota. exact E.
Qed.

Lemma clamp_le (x : float) : (100 <? Math_max 0 (Math_min 100 x))%float = false.
Proof.
  pose proof (min100_le x) as H. revert H. generalize (Math_min 100 x). intros y Hy.
  unfold Math_max. change (is_nan 0) with false. cbn [orb].
  destruct (is_nan y); [reflexivity|].
  destruct (0 <? y)%float; [exact Hy|].
  destruct (y <? 0)%float; reflexivity.
Qed.

(** X7. Whatever the keystroke log and the elapsed time,
    [calculateTypingStats] never reports a wpm below 0, nor an accuracy or
    a consistency below 0 or above 100. *)
Theorem metrics_in_range (keystrokes : list keystroke) (text : string) (timeElapsed : Z) :
  let s := calculateTypingStats keystrokes text timeElapsed in
  (wpm s <? 0)%float = false
  /\ (accuracy s <? 0)%float = false /\ (100 <? accuracy s)%float = false
  /\ (consistency s <? 0)%float = false /\ (100 <? consistency s)%float = false.
Proof.
  cbv zeta. unfold calculateTypingStats.
  destruct ((Z.of_nat (length keystrokes) =? 0) || (timeElapsed <=? 0));
    cbn [wpm accuracy consistency].
  - repeat split; reflexivity.
  - repeat split; auto using max0_nonneg, clamp_le.
Qed.

(** The window loop collects at most one value per window begun. *)
Lemma windows_loop_length fuel ks t start acc :
  Z.of_nat (length (windows_loop fuel ks t start acc))
  <= Z.of_nat (length acc) + Z.max 0 ((t - start + (windowSize - 1)) / windowSize).
Proof.
  revert start acc. induction fuel as [|fuel IH]; intros start acc; cbn [windows_loop].
  - lia.
  - destruct (Z.ltb_spec start t) as [Hlt|Hge]; [|lia]. cbv zeta.
    etransitivity; [apply IH|].
    assert ((t - (start + windowSize) + (windowSize - 1)) / windowSize
            = (t - start + (windowSize - 1)) / windowSize - 1) as ->.
    { replace (t - (start + windowSize) + (windowSize - 1))
        with (t - start + (windowSize - 1) + (-1) * windowSize) by lia.
      rewrite Z.div_add by (unfold windowSize; lia). lia. }
    assert (1 <= (t - start + (windowSize - 1)) / windowSize).
    { apply Z.div_le_lower_bound; unfold windowSize; lia. }
    destruct (0 <? Z.of_nat (length _)); [rewrite length_app; cbn [length]|]; lia.
Qed.

(** X8. No consistency is reported for the first two seconds: with an
    elapsed time of at most 2000 ms, [calculateTypingStats] gives
    consistency 0 whatever was typed (there is one window at most, and
    two are needed). *)
Theorem no_consistency_before_two_seconds (keystrokes : list keystroke) (text : string)
    (timeElapsed : Z) :
  timeElapsed <= 2000 ->
  consistency (calculateTypingStats keystrokes text timeElapsed) = 0%float.
Proof.
  intros Ht. unfold calculateTypingStats.
  destruct ((Z.of_nat (length keystrokes) =? 0) || (timeElapsed <=? 0));
    cbn [consistency]; [reflexivity|].
  unfold calculateConsistency.
  destruct (Z.of_nat (length keystrokes) <? 10); [reflexivity|].
  destruct (Z.ltb_spec (Z.of_nat (length (time_windows keystrokes timeElapsed))) 2)
    as [|Hge]; [reflexivity|].
  exfalso. unfold time_windows in Hge.
  pose proof (windows_loop_length (loop_fuel timeElapsed) keystrokes timeElapsed 0 []) as Hl.
  cbn [length] in Hl.
  assert ((timeElapsed - 0 + (windowSize - 1)) / windowSize < 2); [|lia].
  unfold windowSize. apply Z.div_lt_upper_bound; lia.
Qed.

(** X9. What [validateKeystroke] accepts: exactly the objects whose
    [testId] is a string, whose [timestamp] and [position] are numbers not
    below 0 (NaN passes), whose [key] is a string of length 1 and whose
    [correct] is a boolean. *)
Theorem validateKeystroke_accepts (keystroke : keystrokeObject) :
  validateKeystroke keystroke = valid
  <-> exists testId timestamp key correct position,
        keystroke = {| ko_testId := str testId; ko_timestamp := number timestamp;
                       ko_key := str key; ko_correct := boolean correct;
                       ko_position := number position |}
        /\ (timestamp <? 0)%float = false
        /\ String.length key = 1%nat
        /\ (position <? 0)%float = false.
Proof.
  destruct keystroke as [i t k c p]. split.
  - unfold validateKeystroke.
    cbn [ko_testId ko_timestamp ko_key ko_correct ko_position firstMissing].
    destruct i as [| |i| | |]; cbn; try discriminate;
    destruct t as [| | |t| |]; cbn; try discriminate;
    destruct k as [| |k| | |]; cbn; try discriminate;
    destruct c as [| | | |c|]; cbn; try discriminate;
    destruct p as [| | |p| |]; cbn; try discriminate;
    try (destruct (t <? 0)%float; discriminate).
    all: try (destruct (t <? 0)%float, (Z.of_nat (String.length k) =? 1); discriminate).
    destruct (t <? 0)%float eqn:Et; cbn; [discriminate|].
    destruct (Z.eqb_spec (Z.of_nat (String.length k)) 1); cbn; [|discriminate].
    destruct (p <? 0)%float eqn:Ep; cbn; [discriminate|].
    intros _. exists i, t, k, c, p. repeat split; auto. lia.
  - intros (i' & t' & k' & c' & p' & [= -> -> -> -> ->] & Ht & Hk & Hp).
    unfold validateKeystroke. cbn. rewrite Ht, Hp, Hk. reflexivity.
Qed.

Lemma inside (lo hi d : float) m e :
  Prim2SF lo = S754_finite false m e ->
  TestEvents.between lo hi d = true ->
  outside lo hi (Some d) = false.
Proof.
  intros Hlo. unfold TestEvents.between, outside. intros H.
  apply andb_prop in H as [H1 H2].
  destruct (above_truthy _ _ _ _ Hlo H1) as [-> ->].
  rewrite (leb_not_gt _ _ H1), (leb_not_gt _ _ H2). reflexivity.
Qed.

(** X10. The second validation of [race:create] never fires:
    [validateRaceConfig] finds no error in a configuration that the
    creation schema accepted. *)
Theorem schema_implies_config (data : RaceCreate.t) :
  RaceEvents.raceCreateSchema data = true ->
  validateRaceConfig (raceConfigOf data) = [].
Proof.
  unfold RaceEvents.raceCreateSchema. intros H.
  apply andb_prop in H as [H HF]. apply andb_prop in H as [H HE].
  apply andb_prop in H as [H HD]. apply andb_prop in H as [H HC].
  apply andb_prop in H as [HA HB].
  apply Z.leb_le in HA, HB.
  unfold validateRaceConfig, raceConfigOf.
  cbn [rc_name rc_mode rc_duration rc_wordCount rc_maxPlayers].
  assert (String.eqb (RaceCreate.name data) EmptyString = false) as ->.
  { destruct (RaceCreate.name data); [cbn in HA; lia | reflexivity]. }
  assert ((50 <? Z.of_nat (String.length (RaceCreate.name data))) = false) as ->
    by (apply Z.ltb_ge; lia).
  assert (outside 2 20 (Some (default 5%float (RaceCreate.maxPlayers data))) = false) as ->.
  { destruct (RaceCreate.maxPlayers data) as [m|]; [|reflexivity].
    cbn in HF |- *. exact (inside 2 20 m _ _ eq_refl HF). }
  destruct (RaceCreate.mode data); cbn [modeName].
  - destruct (RaceCreate.duration data) as [d|]; [|discriminate].
    cbn in HC. change (String.eqb "time" "time") with true.
    change (String.eqb "time" "words") with false.
    cbn [orb negb andb app].
    rewrite (inside 15 300 d _ _ eq_refl HC). reflexivity.
  - destruct (RaceCreate.wordCount data) as [w|]; [|discriminate].
    cbn in HD. change (String.eqb "words" "time") with false.
    change (String.eqb "words" "words") with true.
    cbn [orb negb andb app].
    rewrite (inside 10 200 w _ _ eq_refl HD). reflexivity.
Qed.

End HelperFacts.

(** Ten keystrokes in two seconds. *)
Lemma no_consistency_before_two_seconds_witness :
  SocketHelpers.consistency (SocketHelpers.calculateTypingStats Scenario.tenWrong "words" 2000)
  = 0%float.
Proof.
  apply (no_consistency_before_two_seconds Scenario.tenWrong "words" 2000). lia.
Defined.

(** The duel passes both validations. *)
Lemma schema_implies_config_witness :
  Validators.validateRaceConfig (Validators.raceConfigOf Scenario.duel) = [].
Proof.
  apply (schema_implies_config Scenario.duel). vm_compute. reflexivity.
Defined.

(** ** Test sessions over their life *)

Section SessionFacts.
Import TestEvents TestLife.

Lemma extends_refl s : extends s s.
Proof.
  unfold extends. repeat split; auto. exists []. now rewrite app_nil_r.
Qed.

Lemma extends_trans s1 s2 s3 : extends s1 s2 -> extends s2 s3 -> extends s1 s3.
Proof.
  intros (Hi & Hu & Hm & Hw & (m1 & Hk) & Hs & Hc)
         (Hi' & Hu' & Hm' & Hw' & (m2 & Hk') & Hs' & Hc').
  unfold extends. repeat split; try congruence.
  - exists (m1 ++ m2). rewrite Hk', Hk, app_assoc. reflexivity.
  - auto.
  - intros H1. specialize (Hc H1). subst s2. auto.
Qed.

Lemma completeTestSession_session socket now s p :
  fst (completeTestSession socket now s p)
  = if TestSession.isCompleted s then s else TestSession.complete now s.
Proof.
  unfold completeTestSession. destruct (TestSession.isCompleted s); [reflexivity|].
  destruct (TestSession.startTime (TestSession.complete now s)); reflexivity.
Qed.

Lemma extends_complete now s :
  TestSession.isCompleted s = false -> extends s (TestSession.complete now s).
Proof.
  intros H. unfold extends, TestSession.complete. cbn. repeat split; auto.
  - exists []. now rewrite app_nil_r.
  - congruence.
Qed.

(** What one request does to a session that is in the registry: its owner's
    [test:leave] removes it; anything else leaves a later version of it,
    and the very same session when the sender is not its owner. *)
Lemma handle_session socket clock req st tid s :
  Server.activeTestSessions st !! tid = Some s ->
  (Server.activeTestSessions (fst (handle socket clock req st)) !! tid = None
   /\ leaves tid req = true /\ TestSession.userId s = Socket.userId socket)
  \/ (exists s',
        Server.activeTestSessions (fst (handle socket clock req st)) !! tid = Some s'
        /\ extends s s'
        /\ (TestSession.userId s <> Socket.userId socket -> s' = s)).
Proof.
  intros Hs.
  assert (exists s', Server.activeTestSessions st !! tid = Some s' /\ extends s s'
                     /\ (TestSession.userId s <> Socket.userId socket -> s' = s)) as Hsame
    by (exists s; auto using extends_refl).
  destruct req as [words data|data|data|testId]; cbn [handle].
  - right. unfold test_join.
    destruct (RateLimiter.checkGeneralRate _ _ _) as [res bs].
    destruct (RateLimiter.allowed res); cbn [negb]; [|exact Hsame].
    destruct (testJoinSchema data); cbn [negb]; [|exact Hsame].
    cbn [Server.set_buckets Server.activeTestSessions].
    destruct (Server.activeTestSessions st !! TestJoin.testId data) as [s0|] eqn:E.
    + destruct (String.eqb _ _); exact Hsame.
    + cbn [fst Server.set_tests Server.activeTestSessions].
      rewrite lookup_insert_ne by congruence. exact Hsame.
  - right. unfold test_keystroke.
    destruct (RateLimiter.checkKeystrokeRate _ _ _) as [res bs].
    destruct (RateLimiter.allowed res); cbn [negb]; [|exact Hsame].
    destruct (keystrokeSchema data); cbn [negb]; [|exact Hsame].
    cbn [Server.set_buckets Server.activeTestSessions].
    destruct (Server.activeTestSessions st !! Keystroke.testId data) as [s0|] eqn:E;
      [|exact Hsame].
    destruct (String.eqb (TestSession.userId s0) (Socket.userId socket)) eqn:Eu;
      cbn [negb]; [|exact Hsame].
    destruct (TestSession.isCompleted s0) eqn:Ec; [exact Hsame|].
    set (pushed := TestSession.push_keystroke _ _ _).
    assert (extends s0 pushed /\ TestSession.isCompleted pushed = false) as [Hp Hpc].
    { subst pushed. unfold extends, TestSession.push_keystroke, TestSession.set_startTime.
      cbn. repeat split; eauto; try congruence.
      intros t Ht. rewrite Ht. reflexivity. }
    match goal with |- context [if ?c then _ else _] => destruct c end.
    + pose proof (completeTestSession_session socket (Clock.ended clock) pushed None) as Hc.
      destruct (completeTestSession socket (Clock.ended clock) pushed None) as [s1 out].
      cbn [fst] in Hc.
      rewrite Hpc in Hc. subst s1.
      cbn [fst Server.set_tests Server.activeTestSessions].
      destruct (decide (Keystroke.testId data = tid)) as [Heq|Hne].
      * rewrite Heq in *. rewrite lookup_insert_eq. rewrite Hs in E. injection E as <-.
        eexists. split; [reflexivity|]. split.
        -- eapply extends_trans; [exact Hp | now apply extends_complete].
        -- apply String.eqb_eq in Eu. congruence.
      * rewrite lookup_insert_ne by assumption. exact Hsame.
    + cbn [fst Server.set_tests Server.activeTestSessions].
      destruct (decide (Keystroke.testId data = tid)) as [Heq|Hne].
      * rewrite Heq in *. rewrite lookup_insert_eq. rewrite Hs in E. injection E as <-.
        eexists. split; [reflexivity|]. split; [exact Hp|].
        apply String.eqb_eq in Eu. congruence.
      * rewrite lookup_insert_ne by assumption. exact Hsame.
  - right. unfold test_completed.
    destruct (testCompletedSchema data); cbn [negb]; [|exact Hsame].
    destruct (Server.activeTestSessions st !! TestCompleted.testId data) as [s0|] eqn:E;
      [|exact Hsame].
    destruct (String.eqb (TestSession.userId s0) (Socket.userId socket)) eqn:Eu;
      cbn [negb]; [|exact Hsame].
    pose proof (completeTestSession_session socket (Clock.ended clock) s0
                  (Some (TestCompleted.finalStats data))) as Hc.
    destruct (completeTestSession socket (Clock.ended clock) s0 _) as [s1 out].
    cbn [fst] in Hc.
    cbn [fst Server.set_tests Server.activeTestSessions].
    destruct (decide (TestCompleted.testId data = tid)) as [Heq|Hne].
    + rewrite Heq in *. rewrite lookup_insert_eq. rewrite Hs in E. injection E as <-.
      eexists. split; [reflexivity|]. split.
      * subst s1. destruct (TestSession.isCompleted s) eqn:Ec;
          [apply extends_refl | now apply extends_complete].
      * apply String.eqb_eq in Eu. congruence.
    + rewrite lookup_insert_ne by assumption. exact Hsame.
  - unfold test_leave. destruct (nonempty testId); cbn [negb]; [|right; exact Hsame].
    cbn [fst].
    destruct (Server.activeTestSessions st !! testId) as [s0|] eqn:E; [|right; exact Hsame].
    destruct (String.eqb (TestSession.userId s0) (Socket.userId socket)) eqn:Eu;
      [|right; exact Hsame].
    cbn [Server.set_tests Server.activeTestSessions].
    destruct (decide (testId = tid)) as [->|Hne].
    + left. rewrite lookup_delete_eq. rewrite Hs in E. injection E as <-.
      cbn [leaves]. rewrite String.eqb_refl. apply String.eqb_eq in Eu. auto.
    + right. rewrite lookup_delete_ne by assumption. exact Hsame.
Qed.

Lemma run_cons_state socket clock req reqs st :
  fst (run socket ((clock, req) :: reqs) st)
  = fst (run socket reqs (fst (handle socket clock req st))).
Proof.
  cbn [run]. destruct (handle socket clock req st) as [st' out]. cbn [fst].
  destruct (run socket reqs st'). reflexivity.
Qed.

(** X11. Nobody touches another user's test. Whatever a connection sends
    ([test:join], [test:keystroke], [test:completed], [test:leave], with
    any payload, in any number), a test session that belongs to another
    user stays in the registry exactly as it was. *)
Theorem foreign_session_untouched (socket : Socket.t) (reqs : list (Clock.t * request))
    (st : Server.t) (testId : string) (s : TestSession.t) :
  Server.activeTestSessions st !! testId = Some s ->
  TestSession.userId s <> Socket.userId socket ->
  Server.activeTestSessions (fst (run socket reqs st)) !! testId = Some s.
Proof.
  intros Hs Hu. revert st Hs. induction reqs as [|[now req] reqs IH]; intros st Hs;
    [exact Hs|].
  rewrite run_cons_state. apply IH.
  destruct (handle_session socket now req st testId s Hs)
    as [(_ & _ & Ho)|(s' & Hs' & _ & Hsame)].
  - contradiction.
  - rewrite Hs', (Hsame Hu). reflexivity.
Qed.

(** X12. A test session only grows. Through any requests other than a
    [test:leave] of it (and until the eviction timer of a completed
    session fires), a session stays in the registry with its owner, mode
    and text; its keystroke log is only appended to; its start time, once
    set, stays; and once completed it does not change at all. *)
Theorem session_only_grows (socket : Socket.t) (reqs : list (Clock.t * request))
    (st : Server.t) (testId : string) (s : TestSession.t) :
  Server.activeTestSessions st !! testId = Some s ->
  forallb (fun r => negb (leaves testId (snd r))) reqs = true ->
  exists s',
    Server.activeTestSessions (fst (run socket reqs st)) !! testId = Some s'
    /\ extends s s'.
Proof.
  revert st s. induction reqs as [|[now req] reqs IH]; intros st s Hs Hl.
  - exists s. auto using extends_refl.
  - cbn [forallb snd] in Hl. apply andb_prop in Hl as [Hl1 Hl2].
    rewrite run_cons_state.
    destruct (handle_session socket now req st testId s Hs)
      as [(_ & Hleave & _)|(s' & Hs' & He & _)].
    + rewrite Hleave in Hl1. discriminate.
    + destruct (IH _ _ Hs' Hl2) as (s'' & Hs'' & He'). exists s''. split; [exact Hs''|].
      eapply extends_trans; eassumption.
Qed.

Lemma typing_stats_counts keystrokes text timeElapsed :
  let s := SocketHelpers.calculateTypingStats keystrokes text timeElapsed in
  SocketHelpers.errors s = SocketHelpers.incorrectChars s
  /\ 0 <= SocketHelpers.correctChars s /\ 0 <= SocketHelpers.incorrectChars s
  /\ SocketHelpers.correctChars s + SocketHelpers.incorrectChars s
     = if (Z.of_nat (length keystrokes) =? 0) || (timeElapsed <=? 0) then 0
       else Z.of_nat (length keystrokes).
Proof.
  cbv zeta. unfold SocketHelpers.calculateTypingStats.
  destruct ((Z.of_nat (length keystrokes) =? 0) || (timeElapsed <=? 0));
    cbn [SocketHelpers.errors SocketHelpers.correctChars SocketHelpers.incorrectChars];
    [lia|].
  pose proof (List.filter_length_le SocketHelpers.correct keystrokes). lia.
Qed.

(** X13. The first keystroke measures its own handler. The keystroke that
    starts the clock is answered with a [test:stats_update] whose
    [timeElapsed] is the time [d] between two clock readings of the same
    handler run: the one that set the start time and the one taken for the
    statistics. When the clock did not tick in between, the update is the
    empty one (wpm 0, accuracy 100, consistency 0, no errors, no
    characters, no position), whatever the key and whether it was right.
    When it did, the log is counted over those [d] ms: the wpm is
    max(0, round((n / 5) / (d / 60000))) for the [n] keystrokes of the log
    (12000 for one keystroke and one tick). *)
Theorem first_keystroke_update (socket : Socket.t) (clock : Clock.t) (data : Keystroke.t)
    (st : Server.t) (s : TestSession.t) :
  RateLimiter.allowed
    (fst (RateLimiter.checkKeystrokeRate (Socket.userId socket) (Clock.checked clock)
            (Server.buckets st)))
    = true ->
  keystrokeSchema data = true ->
  Server.activeTestSessions st !! Keystroke.testId data = Some s ->
  TestSession.userId s = Socket.userId socket ->
  TestSession.isCompleted s = false ->
  TestSession.startTime s = None ->
  let d := Clock.measured clock - Clock.started clock in
  let n := Z.of_nat (length (TestSession.keystrokes s)) + 1 in
  exists u,
    hd_error (snd (test_keystroke socket clock data st))
    = Some (emit (Socket.id socket) (test_stats_update u))
    /\ StatsUpdate.timeElapsed u = d
    /\ (d <= 0 ->
        u = {| StatsUpdate.testId := Keystroke.testId data;
               StatsUpdate.wpm := 0; StatsUpdate.accuracy := 100;
               StatsUpdate.consistency := 0; StatsUpdate.errors := 0;
               StatsUpdate.position := None; StatsUpdate.timeElapsed := d;
               StatsUpdate.correctChars := 0; StatsUpdate.incorrectChars := 0 |})
    /\ (0 < d ->
        StatsUpdate.wpm u = Spec.wpm_of n d
        /\ StatsUpdate.position u = Some n
        /\ StatsUpdate.correctChars u + StatsUpdate.incorrectChars u = n).
Proof.
  intros Hrate Hschema Hfound Howner Hopen Hstart d n.
  rewrite (test_keystroke_accepted _ _ _ _ _ Hrate Hschema Hfound Howner Hopen).
  rewrite Hstart. cbn [from_option id hd_error]. fold d.
  eexists. split; [reflexivity|]. split; [reflexivity|]. split.
  - intros Hd. unfold SocketHelpers.calculateTypingStats.
    replace (d <=? 0) with true by lia. rewrite orb_true_r. reflexivity.
  - intros Hd.
    cbn [statsUpdateOf StatsUpdate.wpm StatsUpdate.position StatsUpdate.correctChars
         StatsUpdate.incorrectChars].
    pose proof (typing_stats_counts
                  (TestSession.keystrokes s ++ [keystrokeData (Clock.stamped clock) data])
                  (TestSession.words s) d) as Hc.
    cbv zeta in Hc. rewrite position_formula, wpm_of_formula.
    all: rewrite length_app in *; cbn [length] in *; try lia.
    assert (((Z.of_nat (length (TestSession.keystrokes s) + 1) =? 0) || (d <=? 0)) = false)
      as Hf by (apply orb_false_iff; split; [apply Z.eqb_neq | apply Z.leb_gt]; lia).
    rewrite Hf in *. destruct Hc as (_ & _ & _ & Hsum).
    subst n. repeat split; [f_equal; lia | f_equal; lia | lia].
Qed.

(** X14. Later updates count the log. Once the clock runs, an accepted
    keystroke is answered with a [test:stats_update] whose [position] and
    whose sum of correct and incorrect characters are the length of the
    keystroke log, this keystroke included (not the position the client
    sent), whose [errors] are the incorrect characters, and whose
    [timeElapsed] is the server's time since the first keystroke. *)
Theorem stats_update_counts_log (socket : Socket.t) (clock : Clock.t) (data : Keystroke.t)
    (st : Server.t) (s : TestSession.t) (start : Z) :
  RateLimiter.allowed
    (fst (RateLimiter.checkKeystrokeRate (Socket.userId socket) (Clock.checked clock)
            (Server.buckets st)))
    = true ->
  keystrokeSchema data = true ->
  Server.activeTestSessions st !! Keystroke.testId data = Some s ->
  TestSession.userId s = Socket.userId socket ->
  TestSession.isCompleted s = false ->
  TestSession.startTime s = Some start ->
  start < Clock.measured clock ->
  exists u,
    hd_error (snd (test_keystroke socket clock data st))
    = Some (emit (Socket.id socket) (test_stats_update u))
    /\ StatsUpdate.timeElapsed u = Clock.measured clock - start
    /\ StatsUpdate.position u = Some (Z.of_nat (length (TestSession.keystrokes s)) + 1)
    /\ StatsUpdate.correctChars u + StatsUpdate.incorrectChars u
       = Z.of_nat (length (TestSession.keystrokes s)) + 1
    /\ StatsUpdate.errors u = StatsUpdate.incorrectChars u
    /\ 0 <= StatsUpdate.correctChars u /\ 0 <= StatsUpdate.incorrectChars u.
Proof.
  intros Hrate Hschema Hfound Howner Hopen Hstart Hlater.
  rewrite (test_keystroke_accepted _ _ _ _ _ Hrate Hschema Hfound Howner Hopen).
  rewrite Hstart. cbn [from_option id hd_error].
  eexists. split; [reflexivity|].
  cbn [statsUpdateOf StatsUpdate.timeElapsed StatsUpdate.position StatsUpdate.correctChars
       StatsUpdate.incorrectChars StatsUpdate.errors].
  pose proof (typing_stats_counts
                (TestSession.keystrokes s ++ [keystrokeData (Clock.stamped clock) data])
                (TestSession.words s) (Clock.measured clock - start)) as Hc.
  cbv zeta in Hc. rewrite position_formula.
  rewrite length_app in *. cbn [length] in *.
  assert (((Z.of_nat (length (TestSession.keystrokes s) + 1) =? 0)
           || (Clock.measured clock - start <=? 0))
          = false) as Hf.
  { apply orb_false_iff. split; [apply Z.eqb_neq | apply Z.leb_gt]; lia. }
  rewrite Hf in *. destruct Hc as (He & Hc0 & Hi0 & Hsum).
  repeat split; try assumption; [f_equal; lia | lia].
Qed.

(** X15. [test:leave] undoes [test:join]. An admitted [test:join] of an
    id that is not in the registry puts a session of the caller there,
    with an empty log and no start time; the caller's [test:leave] of that
    id then leaves the registry of test sessions exactly as it was before
    the join. *)
Theorem leave_undoes_join (socket : Socket.t) (now : Z) (words : string)
    (data : TestJoin.t) (st : Server.t) :
  RateLimiter.allowed
    (fst (RateLimiter.checkGeneralRate (Socket.userId socket) now (Server.buckets st)))
    = true ->
  testJoinSchema data = true ->
  Server.activeTestSessions st !! TestJoin.testId data = None ->
  let joined := fst (test_join socket now words data st) in
  let left := fst (test_leave socket (TestJoin.testId data) joined) in
  (exists s, Server.activeTestSessions joined !! TestJoin.testId data = Some s
             /\ TestSession.userId s = Socket.userId socket
             /\ TestSession.keystrokes s = [] /\ TestSession.startTime s = None)
  /\ Server.activeTestSessions left = Server.activeTestSessions st
  /\ Server.buckets left = Server.buckets joined.
Proof.
  intros Hrate Hschema Hfresh. cbv zeta. unfold test_join.
  destruct (RateLimiter.checkGeneralRate _ _ _) as [res bs]. cbn [fst] in Hrate.
  rewrite Hrate, Hschema. cbn [negb Server.set_buckets Server.activeTestSessions].
  rewrite Hfresh. cbn [fst Server.set_tests Server.activeTestSessions].
  split.
  - eexists. rewrite lookup_insert_eq. split; [reflexivity|]. cbn. auto.
  - unfold test_leave.
    assert (nonempty (TestJoin.testId data) = true) as ->.
    { unfold testJoinSchema in Hschema. apply andb_prop in Hschema as [H _].
      apply andb_prop in H as [H _]. exact H. }
    cbn [negb fst Server.activeTestSessions Server.set_tests Server.set_buckets].
    rewrite lookup_insert_eq.
    cbn [TestSession.userId]. rewrite String.eqb_refl.
    cbn [Server.set_tests Server.activeTestSessions Server.buckets].
    rewrite delete_insert_id by assumption. auto.
Qed.

(** X16. A completed test is closed. On a session that is completed, its
    owner's further keystroke is refused with TEST_COMPLETED (3003) and a
    further [test:completed] is ignored without any message: no second
    result is published, and the registry does not change. *)
Theorem completed_test_is_closed (socket : Socket.t) (clock : Clock.t) (now : Z)
    (st : Server.t) (s : TestSession.t) (key : Keystroke.t) (done : TestCompleted.t) :
  Server.activeTestSessions st !! TestSession.testId s = Some s ->
  TestSession.userId s = Socket.userId socket ->
  TestSession.isCompleted s = true ->
  Keystroke.testId key = TestSession.testId s ->
  TestCompleted.testId done = TestSession.testId s ->
  RateLimiter.allowed
    (fst (RateLimiter.checkKeystrokeRate (Socket.userId socket) (Clock.checked clock)
            (Server.buckets st)))
    = true ->
  keystrokeSchema key = true ->
  testCompletedSchema done = true ->
  snd (test_keystroke socket clock key st)
  = [emitError socket 3003 "TEST_COMPLETED" "Test session is already completed" NoDetails]
  /\ Server.activeTestSessions (fst (test_keystroke socket clock key st))
     = Server.activeTestSessions st
  /\ snd (test_completed socket now done st) = []
  /\ Server.activeTestSessions (fst (test_completed socket now done st))
     = Server.activeTestSessions st.
Proof.
  intros Hs Hu Hc Hk Hd Hrate Hks Hds. repeat split.
  - unfold test_keystroke.
    destruct (RateLimiter.checkKeystrokeRate _ _ _) as [res bs]. cbn [fst] in Hrate.
    rewrite Hrate, Hks. cbn [negb Server.set_buckets Server.activeTestSessions].
    rewrite Hk, Hs, Hu, String.eqb_refl, Hc. reflexivity.
  - unfold test_keystroke.
    destruct (RateLimiter.checkKeystrokeRate _ _ _) as [res bs]. cbn [fst] in Hrate.
    rewrite Hrate, Hks. cbn [negb Server.set_buckets Server.activeTestSessions].
    rewrite Hk, Hs, Hu, String.eqb_refl, Hc. reflexivity.
  - unfold test_completed. rewrite Hds, Hd, Hs, Hu, String.eqb_refl. cbn [negb].
    unfold completeTestSession. rewrite Hc. reflexivity.
  - unfold test_completed. rewrite Hds, Hd, Hs, Hu, String.eqb_refl. cbn [negb].
    unfold completeTestSession. rewrite Hc.
    cbn [fst Server.set_tests Server.activeTestSessions].
    apply insert_id. exact Hs.
Qed.

End SessionFacts.

(** Bob sends a keystroke, a completion and a leave for Alice's test. *)
Lemma foreign_session_untouched_witness :
  Server.activeTestSessions
    (fst (TestEvents.run Scenario.bob
            [(Clock.instant 2000, Scenario.keyT true);
             (Clock.instant 3000, Scenario.completedT 250 100);
             (Clock.instant 4000, TestEvents.Leave "T")] Scenario.startedT)) !! "T"
  = Some Scenario.sessionT.
Proof.
  apply (foreign_session_untouched Scenario.bob _ Scenario.startedT "T" Scenario.sessionT).
  - vm_compute. reflexivity.
  - vm_compute. discriminate.
Defined.

(** Alice types on and completes her test. *)
Lemma session_only_grows_witness :
  exists s',
    Server.activeTestSessions
      (fst (TestEvents.run Scenario.alice
              [(Examples.slowClock, Scenario.keyT true);
               (Clock.instant 3000, Scenario.completedT 24 100)]
              Scenario.startedT)) !! "T" = Some s'
    /\ TestLife.extends Scenario.sessionT s'.
Proof.
  apply (session_only_grows Scenario.alice _ Scenario.startedT "T" Scenario.sessionT).
  - vm_compute. reflexivity.
  - vm_compute. reflexivity.
Defined.

(** Alice's first keystroke on test [T], the clock ticking once while the
    handler runs: 12000 wpm. *)
Lemma first_keystroke_update_witness :
  let clock := Examples.firstTick in
  let d := Clock.measured clock - Clock.started clock in
  let n := Z.of_nat (length (TestSession.keystrokes Examples.freshT)) + 1 in
  exists u,
    hd_error (snd (TestEvents.test_keystroke Scenario.alice clock Scenario.keystrokeA
                     Examples.joinedT))
    = Some (emit "s1" (test_stats_update u))
    /\ StatsUpdate.timeElapsed u = d
    /\ (d <= 0 ->
        u = {| StatsUpdate.testId := "T";
               StatsUpdate.wpm := 0; StatsUpdate.accuracy := 100;
               StatsUpdate.consistency := 0; StatsUpdate.errors := 0;
               StatsUpdate.position := None; StatsUpdate.timeElapsed := d;
               StatsUpdate.correctChars := 0; StatsUpdate.incorrectChars := 0 |})
    /\ (0 < d ->
        StatsUpdate.wpm u = Spec.wpm_of n d
        /\ StatsUpdate.position u = Some n
        /\ StatsUpdate.correctChars u + StatsUpdate.incorrectChars u = n).
Proof.
  apply (first_keystroke_update Scenario.alice Examples.firstTick Scenario.keystrokeA
           Examples.joinedT Examples.freshT); vm_compute; reflexivity.
Defined.

(** Alice's second keystroke, one second after the first. *)
Lemma stats_update_counts_log_witness :
  exists u,
    hd_error (snd (TestEvents.test_keystroke Scenario.alice Examples.slowClock
                     Scenario.keystrokeA Scenario.startedT))
    = Some (emit "s1" (test_stats_update u))
    /\ StatsUpdate.timeElapsed u = Clock.measured Examples.slowClock - 1000
    /\ StatsUpdate.position u
       = Some (Z.of_nat (length (TestSession.keystrokes Scenario.sessionT)) + 1)
    /\ StatsUpdate.correctChars u + StatsUpdate.incorrectChars u
       = Z.of_nat (length (TestSession.keystrokes Scenario.sessionT)) + 1
    /\ StatsUpdate.errors u = StatsUpdate.incorrectChars u
    /\ 0 <= StatsUpdate.correctChars u /\ 0 <= StatsUpdate.incorrectChars u.
Proof.
  apply (stats_update_counts_log Scenario.alice Examples.slowClock Scenario.keystrokeA
           Scenario.startedT Scenario.sessionT 1000); vm_compute; reflexivity.
Defined.

(** Alice joins test [T] on a fresh server and leaves it. *)
Lemma leave_undoes_join_witness :
  let joined := fst (TestEvents.test_join Scenario.alice 0 "the of and" Examples.joinData
                       Server.init) in
  let left := fst (TestEvents.test_leave Scenario.alice "T" joined) in
  (exists s, Server.activeTestSessions joined !! "T" = Some s
             /\ TestSession.userId s = "alice"
             /\ TestSession.keystrokes s = [] /\ TestSession.startTime s = None)
  /\ Server.activeTestSessions left = Server.activeTestSessions Server.init
  /\ Server.buckets left = Server.buckets joined.
Proof.
  apply (leave_undoes_join Scenario.alice 0 "the of and" Examples.joinData Server.init);
    vm_compute; reflexivity.
Defined.

(** Alice goes on after the modest run has completed her test. *)
Lemma completed_test_is_closed_witness :
  snd (TestEvents.test_keystroke Scenario.alice (Clock.instant 4000) Scenario.keystrokeA
         Examples.completedT)
  = [emitError Scenario.alice 3003 "TEST_COMPLETED" "Test session is already completed"
       NoDetails]
  /\ Server.activeTestSessions
       (fst (TestEvents.test_keystroke Scenario.alice (Clock.instant 4000)
               Scenario.keystrokeA Examples.completedT))
     = Server.activeTestSessions Examples.completedT
  /\ snd (TestEvents.test_completed Scenario.alice 4000 Examples.completion
            Examples.completedT) = []
  /\ Server.activeTestSessions
       (fst (TestEvents.test_completed Scenario.alice 4000 Examples.completion
               Examples.completedT))
     = Server.activeTestSessions Examples.completedT.
Proof.
  apply (completed_test_is_closed Scenario.alice (Clock.instant 4000) 4000
           Examples.completedT Examples.doneT Scenario.keystrokeA Examples.completion);
    vm_compute; reflexivity.
Defined.

(** ** Races over their life *)

Section LifeFacts.
Import RaceEvents RaceLife.

Lemma get_set_eq {V} k (v : V) m : JSMap.get k (JSMap.set k v m) = Some v.
Proof.
  induction m as [|[k' v'] m IH]; cbn [JSMap.set fst].
  - rewrite get_cons, String.eqb_refl. reflexivity.
  - destruct (String.eqb k' k) eqn:E.
    + rewrite get_cons, String.eqb_refl. reflexivity.
    + rewrite get_cons, E. exact IH.
Qed.

Lemma get_has {V} k (m : list (string * V)) v : JSMap.get k m = Some v -> JSMap.has k m = true.
Proof. unfold JSMap.has. now intros ->. Qed.

Lemma has_get_None {V} k (m : list (string * V)) : JSMap.has k m = false -> JSMap.get k m = None.
Proof. unfold JSMap.has. destruct (JSMap.get k m); [discriminate | reflexivity]. Qed.

Lemma get_In {V} k (m : list (string * V)) v : JSMap.get k m = Some v -> In (k, v) m.
Proof.
  induction m as [|[k' v'] m IH]; [discriminate|].
  rewrite get_cons. destruct (String.eqb k' k) eqn:E.
  - apply String.eqb_eq in E. intros [= ->]. left. congruence.
  - intros H. right. auto.
Qed.

Lemma has_delete {V} k (m : list (string * V)) : JSMap.has k (JSMap.delete k m) = false.
Proof.
  destruct (JSMap.has k (JSMap.delete k m)) eqn:E; [|reflexivity].
  apply has_keys in E. rewrite delete_keys in E. apply List.filter_In in E as [_ E].
  rewrite String.eqb_refl in E. discriminate.
Qed.

Lemma size_set_existing {V} k (v : V) m :
  JSMap.has k m = true -> JSMap.size (JSMap.set k v m) = JSMap.size m.
Proof. intros H. rewrite !size_keys, set_keys, H. reflexivity. Qed.

Lemma delete_size {V} k (m : list (string * V)) : JSMap.size (JSMap.delete k m) <= JSMap.size m.
Proof.
  unfold JSMap.size, JSMap.delete.
  pose proof (List.filter_length_le (fun e : string * V => negb (String.eqb (fst e) k)) m).
  lia.
Qed.

Lemma Forall_set {V} (P : string * V -> Prop) k v m :
  Forall P m -> P (k, v) -> Forall P (JSMap.set k v m).
Proof.
  intros Hm Hk. induction Hm as [|e m He Hm IH]; cbn [JSMap.set].
  - constructor; [exact Hk | constructor].
  - destruct (String.eqb (fst e) k); constructor; auto.
Qed.

Lemma checkRaceCompletion_op now r : rtc op r (fst (fst (checkRaceCompletion now r))).
Proof.
  unfold checkRaceCompletion.
  destruct (_ =? _); [apply rtc_once, op_end|].
  destruct (Race.mode r); [|apply rtc_refl].
  destruct (Race.startTime r); [|apply rtc_refl].
  destruct (_ <=? _)%float; [apply rtc_once, op_end | apply rtc_refl].
Qed.

Lemma registryStep_lookup races races' id r' :
  registryStep races races' ->
  races' !! id = Some r' ->
  exists r, races !! id = Some r /\ rtc op r r'.
Proof.
  intros [->|[(id' & r & r1 & Hr & Hop & ->)|(id' & ->)]] H.
  - eauto using rtc_refl.
  - destruct (decide (id' = id)) as [->|Hne].
    + rewrite lookup_insert_eq in H. injection H as <-. eauto.
    + rewrite lookup_insert_ne in H by assumption. eauto using rtc_refl.
  - destruct (decide (id' = id)) as [->|Hne].
    + rewrite lookup_delete_eq in H. discriminate.
    + rewrite lookup_delete_ne in H by assumption. eauto using rtc_refl.
Qed.

Lemma race_join_step socket now raceId st :
  registryStep (Server.activeRaces st)
    (Server.activeRaces (fst (race_join socket now raceId st))).
Proof.
  unfold race_join.
  destruct (RateLimiter.checkGeneralRate _ _ _) as [res bs].
  destruct (negb (RateLimiter.allowed res)); [left; reflexivity|].
  destruct (negb (TestEvents.nonempty raceId)); [left; reflexivity|].
  cbn [Server.activeRaces Server.set_buckets].
  destruct (Server.activeRaces st !! raceId) as [race|] eqn:Hrace; [|left; reflexivity].
  destruct (Race.maxPlayers race <=? JS.Z2f (JSMap.size (Race.players race)))%float
    eqn:Eroom; [left; reflexivity|].
  destruct (bool_decide (_ = active)) eqn:Ea; [left; reflexivity|].
  destruct (bool_decide (_ = finished)) eqn:Ef; [left; reflexivity|].
  apply bool_decide_eq_false in Ea, Ef.
  destruct (JSMap.get _ _) eqn:Eg; [left; reflexivity|].
  right; left. exists raceId, race.
  pose proof (op_join race socket now Ea Ef Eroom Eg) as Hj.
  match goal with |- context [if ?c then _ else _] => destruct c end.
  - match goal with |- context [startRaceCountdown ?r] =>
      pose proof (op_countdown r) as Hc; destruct (startRaceCountdown r) as [race' effs]
    end.
    cbn [fst Server.activeRaces Server.set_races] in *.
    exists race'. split; [exact Hrace|]. split; [|reflexivity].
    eapply rtc_l; [exact Hj|]. apply rtc_once. exact Hc.
  - cbn [fst Server.activeRaces Server.set_races].
    eexists. split; [exact Hrace|]. split; [|reflexivity]. apply rtc_once. exact Hj.
Qed.

Lemma race_leave_step socket raceId st :
  registryStep (Server.activeRaces st)
    (Server.activeRaces (fst (race_leave socket raceId st))).
Proof.
  unfold race_leave.
  destruct (negb (TestEvents.nonempty raceId)); [left; reflexivity|].
  destruct (Server.activeRaces st !! raceId) as [race|] eqn:Hrace; [|left; reflexivity].
  destruct (JSMap.has _ _); [|left; reflexivity].
  cbn [fst Server.activeRaces Server.set_races Race.players Race.set_players].
  destruct (JSMap.size _ =? 0).
  - right; right. eauto.
  - right; left. exists raceId, race. eexists. split; [exact Hrace|]. split; [|reflexivity].
    apply rtc_once, op_leave.
Qed.

Lemma race_progress_step socket now data st :
  registryStep (Server.activeRaces st)
    (Server.activeRaces (fst (race_progress socket now data st))).
Proof.
  unfold race_progress.
  destruct (RateLimiter.checkRaceProgressRate _ _ _) as [res bs].
  destruct (negb (RateLimiter.allowed res)); [left; reflexivity|].
  destruct (negb (raceProgressSchema data)); [left; reflexivity|].
  cbn [Server.activeRaces Server.set_buckets].
  destruct (Server.activeRaces st !! _) as [race|] eqn:Hrace; [|left; reflexivity].
  destruct (JSMap.get _ _) as [player|] eqn:Eg; [|left; reflexivity].
  destruct (negb (bool_decide _)); [left; reflexivity|].
  right; left. exists (RaceProgress.raceId data), race.
  pose proof (op_update race (Socket.userId socket) player (updateProgress data player)
                Eg eq_refl) as H1.
  set (race1 := Race.set_players _ race) in *.
  destruct (_ && _).
  - cbn [Race.startTime Race.set_players race1].
    destruct (Race.startTime race) as [startTime|].
    + set (p1 := updateProgress data player) in *.
      set (p2 := Player.set_finishTime _ p1).
      assert (op race1 (Race.set_players (JSMap.set (Socket.userId socket) p2
                                            (Race.players race1)) race1)) as H2.
      { apply (op_update race1 (Socket.userId socket) p1 p2);
          [apply get_set_eq | reflexivity]. }
      set (race2 := Race.set_players _ race1) in H2.
      set (p3 := Player.set_rank _ p2).
      assert (op race2 (Race.set_players (JSMap.set (Socket.userId socket) p3
                                            (Race.players race2)) race2)) as H3.
      { apply (op_update race2 (Socket.userId socket) p2 p3);
          [apply get_set_eq | reflexivity]. }
      set (race3 := Race.set_players _ race2) in H3.
      pose proof (checkRaceCompletion_op now race3) as H4.
      change (checkRaceCompletion now _) with (checkRaceCompletion now race3).
      destruct (checkRaceCompletion now race3) as [[race' effs] c].
      cbn [fst] in H4.
      exists race'. split; [exact Hrace|]. split.
      * eapply rtc_l; [exact H1|]. eapply rtc_l; [exact H2|]. eapply rtc_l; [exact H3|].
        exact H4.
      * destruct c; reflexivity.
    + eexists. split; [exact Hrace|]. split; [apply rtc_once; exact H1 | reflexivity].
  - eexists. split; [exact Hrace|]. split; [apply rtc_once; exact H1 | reflexivity].
Qed.

Lemma race_finish_step socket now data st :
  registryStep (Server.activeRaces st)
    (Server.activeRaces (fst (race_finish socket now data st))).
Proof.
  unfold race_finish.
  destruct (negb (raceFinishSchema data)); [left; reflexivity|].
  destruct (Server.activeRaces st !! _) as [race|] eqn:Hrace; [|left; reflexivity].
  destruct (JSMap.get _ _) as [player|] eqn:Eg; [|left; reflexivity].
  destruct (Player.isFinished player); [left; reflexivity|].
  right; left. exists (RaceFinish.raceId data), race.
  set (p1 := markFinished data player).
  pose proof (op_update race (Socket.userId socket) player p1 Eg eq_refl) as H1.
  set (race1 := Race.set_players _ race) in H1.
  set (p2 := Player.set_rank _ p1).
  assert (op race1 (Race.set_players (JSMap.set (Socket.userId socket) p2
                                        (Race.players race1)) race1)) as H2.
  { apply (op_update race1 (Socket.userId socket) p1 p2); [apply get_set_eq | reflexivity]. }
  set (race2 := Race.set_players _ race1) in H2.
  pose proof (checkRaceCompletion_op now race2) as H3.
  change (checkRaceCompletion now _) with (checkRaceCompletion now race2).
  destruct (checkRaceCompletion now race2) as [[race' effs] c]. cbn [fst] in H3.
  exists race'. split; [exact Hrace|]. split.
  - eapply rtc_l; [exact H1|]. eapply rtc_l; [exact H2|]. exact H3.
  - destruct c; reflexivity.
Qed.

Lemma onTimer_step f raceId st :
  (forall race, rtc op race (fst (f race))) ->
  registryStep (Server.activeRaces st) (Server.activeRaces (fst (onTimer f raceId st))).
Proof.
  intros Hf. unfold onTimer.
  destruct (Server.activeRaces st !! raceId) as [race|] eqn:Hrace; [|left; reflexivity].
  pose proof (Hf race) as H. destruct (f race) as [race' effs].
  cbn [fst Server.activeRaces Server.set_races] in *.
  right; left. exists raceId, race, race'. auto.
Qed.

Lemma raceTimeoutFired_op now race : rtc op race (fst (raceTimeoutFired now race)).
Proof.
  unfold raceTimeoutFired. destruct (Race.raceTimeout race); [|apply rtc_refl].
  destruct (bool_decide _).
  - pose proof (op_end (Race.set_raceTimeout false race) now) as H.
    destruct (endRace now (Race.set_raceTimeout false race)) as [[r e] c]. cbn [fst] in *.
    eapply rtc_l; [apply op_timeout|]. apply rtc_once. exact H.
  - apply rtc_once, op_timeout.
Qed.

(** Every race of the registry after an event was there before and has
    gone through mutations of the handlers, or was just created. *)
Lemma step_changes now ev st id r' :
  Server.activeRaces (fst (step now ev st)) !! id = Some r' ->
  (exists r, Server.activeRaces st !! id = Some r /\ rtc op r r')
  \/ (creates id ev = true /\ created id r').
Proof.
  destruct ev as [socket raceId data|socket raceId|socket raceId|socket data|socket data
                  |socket raceId text|socket|raceId|raceId]; cbn [step creates].
  - unfold race_create.
    destruct (RateLimiter.checkGeneralRate _ _ _) as [res bs].
    destruct (negb (RateLimiter.allowed res)); [left; eauto using rtc_refl|].
    destruct (raceCreateSchema data) eqn:Es; cbn [negb]; [|left; eauto using rtc_refl].
    cbn [fst store Server.activeRaces Server.set_races Server.set_buckets Race.id].
    destruct (decide (raceId = id)) as [->|Hne].
    + rewrite lookup_insert_eq. intros [= <-]. right.
      split; [apply String.eqb_refl|]. unfold created.
      cbn [Race.id Race.status Race.countdownStarted Race.maxPlayers Race.players].
      repeat split; eauto.
      unfold raceCreateSchema in Es. apply andb_prop in Es as [_ Es].
      destruct (RaceCreate.maxPlayers data); [exact Es | reflexivity].
    + rewrite lookup_insert_ne by assumption. left; eauto using rtc_refl.
  - intros H. left. eapply registryStep_lookup; [apply race_join_step | exact H].
  - intros H. left. eapply registryStep_lookup; [apply race_leave_step | exact H].
  - intros H. left. eapply registryStep_lookup; [apply race_progress_step | exact H].
  - intros H. left. eapply registryStep_lookup; [apply race_finish_step | exact H].
  - rewrite race_message_races. left; eauto using rtc_refl.
  - unfold cleanupUserSessions. cbn [fst Server.activeRaces Server.set_races].
    rewrite lookup_omap.
    destruct (Server.activeRaces st !! id) as [race|] eqn:Hrace; [|discriminate].
    cbn. unfold leaveOnDisconnect.
    destruct (JSMap.has _ _); [|intros [= <-]; left; eauto using rtc_refl].
    cbn [Race.players Race.set_players].
    destruct (JSMap.size _ =? 0); [discriminate|]. intros [= <-].
    left. exists race. split; [reflexivity|]. apply rtc_once, op_leave.
  - intros H. left. eapply registryStep_lookup; [|exact H].
    apply onTimer_step. intros race. apply rtc_once, op_tick.
  - intros H. left. eapply registryStep_lookup; [|exact H].
    apply onTimer_step. apply raceTimeoutFired_op.
Qed.

Lemma rankedPlayers_In k q players :
  In (k, q) (rankedPlayers players) ->
  exists p, In (k, p) players /\ Player.userId q = Player.userId p.
Proof.
  unfold rankedPlayers. fold (rankingOrder players).
  intros H. apply list_elem_of_In, list_elem_of_lookup in H as [i Hi].
  rewrite list_lookup_imap in Hi.
  destruct (rankingOrder players !! i) as [[k' p]|] eqn:E; [|discriminate].
  cbn in Hi. injection Hi as <- <-. exists p. split; [|reflexivity].
  apply list_elem_of_In. rewrite <- (rankingOrder_perm players).
  eapply list_elem_of_lookup_2. exact E.
Qed.

Lemma writeBack_owned updated players :
  (forall k q, In (k, q) updated ->
               exists p, In (k, p) players /\ Player.userId q = Player.userId p) ->
  Forall (fun e : string * Player.t => Player.userId (snd e) = fst e) players ->
  Forall (fun e : string * Player.t => Player.userId (snd e) = fst e)
    (writeBack updated players).
Proof.
  intros Hu Hp. unfold writeBack. apply List.Forall_forall. intros e He.
  apply in_map_iff in He as ([k p] & <- & Hin). cbn.
  rewrite List.Forall_forall in Hp.
  destruct (JSMap.get k updated) as [q|] eqn:Eg; cbn.
  - apply get_In, Hu in Eg as (p' & Hin' & ->). exact (Hp _ Hin').
  - exact (Hp _ Hin).
Qed.

Lemma writeBack_size updated players :
  JSMap.size (writeBack updated players) = JSMap.size players.
Proof. unfold JSMap.size, writeBack. rewrite length_map. reflexivity. Qed.

Lemma op_sound raceId r r' : op r r' -> sound raceId r -> sound raceId r'.
Proof.
  intros Hop (Hid & Hmax & Hsize & Hown).
  destruct Hop as [socket now Ha Hf Hroom Hg| |k p p' Hg Hu|k|now|now|].
  - unfold sound. cbn [Race.id Race.maxPlayers Race.players Race.set_players].
    repeat split; try assumption.
    + intros k Hk. rewrite size_set_new in Hk by (unfold JSMap.has; now rewrite Hg).
      destruct (decide (k = JSMap.size (Race.players r))) as [->|Hne];
        [exact Hroom | apply Hsize; lia].
    + apply Forall_set; [assumption | reflexivity].
  - unfold startRaceCountdown. destruct (_ || _); unfold sound; cbn; auto.
  - unfold sound. cbn [Race.id Race.maxPlayers Race.players Race.set_players].
    repeat split; try assumption.
    + intros k' Hk. rewrite size_set_existing in Hk by (eapply get_has; eassumption).
      auto.
    + apply Forall_set; [assumption|]. cbn. rewrite Hu.
      apply get_In in Hg. rewrite List.Forall_forall in Hown. exact (Hown _ Hg).
  - unfold sound. cbn [Race.id Race.maxPlayers Race.players Race.set_players].
    repeat split; try assumption.
    + intros k' Hk. pose proof (delete_size k (Race.players r)). apply Hsize. lia.
    + unfold JSMap.delete. apply List.Forall_forall. intros e He.
      apply List.filter_In in He as [He _]. rewrite List.Forall_forall in Hown. auto.
  - unfold endRace. destruct (bool_decide _); [unfold sound; auto|].
    cbn [Race.set_status Race.set_endTime Race.set_players Race.players Race.startTime].
    destruct (Race.startTime r); unfold sound;
      simpl (Race.id _); simpl (Race.maxPlayers _); simpl (Race.players _);
      (split; [assumption|]; split; [assumption|]; split;
       [rewrite writeBack_size; assumption
       | apply writeBack_owned; [intros k q; apply rankedPlayers_In | assumption]]).
  - unfold countdownTick.
    destruct (Race.countdownInterval r) as [[|n]|]; unfold sound; cbn; auto.
  - unfold sound. cbn. auto.
Qed.

Lemma changes_sound raceId r r' : rtc op r r' -> sound raceId r -> sound raceId r'.
Proof. induction 1; eauto using op_sound. Qed.

Lemma created_sound raceId r : created raceId r -> sound raceId r.
Proof.
  intros (Hid & _ & _ & Hmax & socket & now & Hp). unfold sound. rewrite Hp.
  repeat split; try assumption.
  - unfold JSMap.size. cbn [length]. intros k Hk. lia.
  - constructor; [reflexivity | constructor].
Qed.

Lemma run_sound evs st :
  (forall id r, Server.activeRaces st !! id = Some r -> sound id r) ->
  forall id r, Server.activeRaces (fst (RaceEvents.run evs st)) !! id = Some r -> sound id r.
Proof.
  revert st. induction evs as [|[now ev] evs IH]; intros st Hinv; [exact Hinv|].
  rewrite run_cons_fst. apply IH. intros id r Hr.
  apply step_changes in Hr as [(r0 & Hr0 & Hop)|[_ Hc]].
  - eapply changes_sound; eauto.
  - now apply created_sound.
Qed.


(** X18. Races and players are filed under their own names. After any
    history from server start, a race in the registry under [raceId] has
    [id] [raceId], every player of its roster is stored under the player's
    own [userId], and no user is in a roster twice. *)
Theorem roster_identities (evs : list (Z * event)) (raceId : string) (race : Race.t) :
  Server.activeRaces (fst (RaceEvents.run evs Server.init)) !! raceId = Some race ->
  Race.id race = raceId
  /\ Forall (fun e : string * Player.t => Player.userId (snd e) = fst e) (Race.players race)
  /\ NoDup (map Player.userId (JSMap.values (Race.players race))).
Proof.
  intros H.
  assert (sound raceId race) as (Hid & _ & _ & Hown).
  { eapply run_sound; [|exact H]. intros id r. cbn. rewrite lookup_empty. discriminate. }
  assert (wellFormed race) as [_ Hnd].
  { eapply run_wellFormed; [|exact H]. intros id r. cbn. rewrite lookup_empty.
    discriminate. }
  repeat split; try assumption.
  replace (map Player.userId (JSMap.values (Race.players race)))
    with (JSMap.keys (Race.players race)); [exact Hnd|].
  unfold JSMap.keys, JSMap.values. rewrite map_map.
  apply map_ext_in. intros e He. rewrite List.Forall_forall in Hown. symmetry. auto.
Qed.

Lemma progresses_refl r : progresses r r.
Proof. unfold progresses. repeat split; auto. lia. Qed.

Lemma stage_started r : started r <-> 2 <= stage r.
Proof.
  unfold started, stage. destruct (Race.status r); split; intros H; try lia; auto;
    destruct H; discriminate.
Qed.

Lemma stage_le_2 r : stage r <= 2.
Proof. unfold stage. destruct (Race.status r); lia. Qed.

Lemma progresses_trans r1 r2 r3 : progresses r1 r2 -> progresses r2 r3 -> progresses r1 r3.
Proof.
  intros (Hi & Hm & Ho & Hs & Hc & Hk) (Hi' & Hm' & Ho' & Hs' & Hc' & Hk').
  unfold progresses. repeat split; try congruence; try lia; auto.
  intros H1 k Hin. apply Hk; [assumption|]. apply Hk'; [|assumption].
  apply stage_started. apply stage_started in H1. lia.
Qed.

Ltac race_fields :=
  cbn [Race.id Race.maxPlayers Race.mode Race.status Race.countdownStarted Race.players
       Race.set_players Race.set_status Race.set_raceTimeout Race.set_countdownInterval
       Race.set_startTime Race.set_endTime Race.set_countdownStarted fst snd].

Lemma op_progresses r r' : op r r' -> progresses r r'.
Proof.
  intros Hop. pose proof (stage_le_2 r) as Hle.
  destruct Hop as [socket now Ha Hf Hroom Hg| |k p p' Hg Hu|k|now|now|].
  - unfold progresses, stage, started in *. race_fields. repeat split; auto; try lia.
    intros [H|H]; contradiction.
  - unfold startRaceCountdown.
    destruct (Race.countdownStarted r) eqn:Ec; cbn [orb]; [apply progresses_refl|].
    destruct (bool_decide (Race.status r = waiting)) eqn:Ew; cbn [negb];
      [|apply progresses_refl].
    apply bool_decide_eq_true in Ew.
    unfold progresses, stage, started in *. race_fields. rewrite Ew.
    repeat split; auto; try lia.
  - unfold progresses, stage, started in *. race_fields. repeat split; auto; try lia.
    intros _ k0. rewrite set_keys, (get_has _ _ _ Hg). auto.
  - unfold progresses, stage, started in *. race_fields. repeat split; auto; try lia.
    intros _ k0. rewrite delete_keys. intros H. apply List.filter_In in H. tauto.
  - unfold endRace. destruct (bool_decide _) eqn:Ef; [apply progresses_refl|].
    destruct (Race.startTime (Race.set_players _ _)); unfold progresses, stage, started in *;
      race_fields; (repeat split; auto; try lia; try (rewrite writeBack_keys; auto)).
  - unfold countdownTick.
    destruct (Race.countdownInterval r) as [[|n]|]; try apply progresses_refl;
      unfold progresses, stage, started in *; race_fields; repeat split; auto; lia.
  - unfold progresses, started, stage. race_fields. repeat split; auto. lia.
Qed.

Lemma changes_progresses r r' : rtc op r r' -> progresses r r'.
Proof.
  induction 1; [apply progresses_refl|].
  eapply progresses_trans; [apply op_progresses|]; eassumption.
Qed.

(** X19. A race only moves forward, and a started race takes nobody in.
    Through any events that do not create its id anew, a race that is
    still in the registry keeps its id, capacity and mode; its status
    never goes back from countdown to waiting nor from active or finished
    to countdown or waiting; its countdown, once started, stays started;
    and if it was active or finished, every player of its roster was
    already there. *)
Theorem race_progression (evs : list (Z * event)) (st : Server.t) (raceId : string)
    (race race' : Race.t) :
  Server.activeRaces st !! raceId = Some race ->
  forallb (fun e => negb (creates raceId (snd e))) evs = true ->
  Server.activeRaces (fst (RaceEvents.run evs st)) !! raceId = Some race' ->
  Race.id race' = Race.id race
  /\ Race.maxPlayers race' = Race.maxPlayers race
  /\ Race.mode race' = Race.mode race
  /\ stage race <= stage race'
  /\ (Race.countdownStarted race = true -> Race.countdownStarted race' = true)
  /\ (started race ->
      forall k, In k (JSMap.keys (Race.players race')) -> In k (JSMap.keys (Race.players race))).
Proof.
  change (Server.activeRaces st !! raceId = Some race ->
          forallb (fun e => negb (creates raceId (snd e))) evs = true ->
          Server.activeRaces (fst (RaceEvents.run evs st)) !! raceId = Some race' ->
          progresses race race').
  revert st race. induction evs as [|[now ev] evs IH]; intros st race Hr Hc Hr'.
  - cbn in Hr'. rewrite Hr in Hr'. injection Hr' as <-. apply progresses_refl.
  - cbn [forallb snd] in Hc. apply andb_prop in Hc as [Hc1 Hc2].
    rewrite run_cons_fst in Hr'.
    destruct (Server.activeRaces (fst (step now ev st)) !! raceId) as [r1|] eqn:E1.
    + pose proof E1 as E1'.
      apply step_changes in E1' as [(r0 & Hr0 & Hop)|[Hcr _]].
      * rewrite Hr in Hr0. injection Hr0 as <-.
        eapply progresses_trans; [apply changes_progresses; exact Hop|].
        eapply IH; eassumption.
      * rewrite Hcr in Hc1. discriminate.
    + rewrite (absent_run raceId evs _ E1 Hc2) in Hr'. discriminate.
Qed.

(** X20. Only members change a race. A [race:leave], [race:progress],
    [race:finish] or [race:message] of a connection whose user is not in
    the roster of a race, and that user's disconnect, leave the race
    exactly as it was. *)
Theorem outsider_changes_nothing (now : Z) (ev : event) (st : Server.t) (socket : Socket.t)
    (raceId : string) (race : Race.t) :
  memberEvent ev = Some socket ->
  Server.activeRaces st !! raceId = Some race ->
  JSMap.has (Socket.userId socket) (Race.players race) = false ->
  Server.activeRaces (fst (step now ev st)) !! raceId = Some race.
Proof.
  intros Hev Hrace Hout. pose proof (has_get_None _ _ Hout) as Hget.
  destruct ev as [s id data|s id|s id|s data|s data|s id text|s|id|id];
    cbn [memberEvent] in Hev; try discriminate; injection Hev as ->; cbn [step].
  - unfold race_leave.
    destruct (negb (TestEvents.nonempty id)); [exact Hrace|].
    destruct (Server.activeRaces st !! id) as [r|] eqn:Er; [|exact Hrace].
    destruct (decide (id = raceId)) as [->|Hne].
    + rewrite Hrace in Er. injection Er as <-. rewrite Hout. exact Hrace.
    + destruct (JSMap.has (Socket.userId socket) (Race.players r)); [|exact Hrace].
      cbn [fst Server.activeRaces Server.set_races].
      destruct (_ =? 0); [rewrite lookup_delete_ne | rewrite lookup_insert_ne]; assumption.
  - destruct (decide (RaceProgress.raceId data = raceId)) as [He|Hne].
    + unfold race_progress.
      destruct (RateLimiter.checkRaceProgressRate _ _ _) as [res bs].
      destruct (negb (RateLimiter.allowed res)); [exact Hrace|].
      destruct (negb (raceProgressSchema data)); [exact Hrace|].
      cbn [Server.activeRaces Server.set_buckets].
      rewrite He, Hrace, Hget. exact Hrace.
    + unfold race_progress.
      destruct (RateLimiter.checkRaceProgressRate _ _ _) as [res bs].
      destruct (negb (RateLimiter.allowed res)); [exact Hrace|].
      destruct (negb (raceProgressSchema data)); [exact Hrace|].
      cbn [Server.activeRaces Server.set_buckets].
      destruct (Server.activeRaces st !! RaceProgress.raceId data) as [r|]; [|exact Hrace].
      destruct (JSMap.get (Socket.userId socket) (Race.players r)); [|exact Hrace].
      destruct (negb (bool_decide _)); [exact Hrace|].
      destruct (_ && _).
      * destruct (Race.startTime _).
        -- destruct (checkRaceCompletion _ _) as [[r' e] []];
             cbn [fst Server.activeRaces Server.set_races];
             rewrite lookup_insert_ne; assumption.
        -- cbn [fst Server.activeRaces Server.set_races].
           rewrite lookup_insert_ne; assumption.
      * cbn [fst Server.activeRaces Server.set_races].
        rewrite lookup_insert_ne; assumption.
  - unfold race_finish.
    destruct (negb (raceFinishSchema data)); [exact Hrace|].
    destruct (decide (RaceFinish.raceId data = raceId)) as [He|Hne].
    + rewrite He, Hrace, Hget. exact Hrace.
    + destruct (Server.activeRaces st !! RaceFinish.raceId data) as [r|]; [|exact Hrace].
      destruct (JSMap.get (Socket.userId socket) (Race.players r)) as [p|]; [|exact Hrace].
      destruct (Player.isFinished p); [exact Hrace|].
      destruct (checkRaceCompletion _ _) as [[r' e] []];
        cbn [fst Server.activeRaces Server.set_races];
        rewrite lookup_insert_ne; assumption.
  - rewrite race_message_races. exact Hrace.
  - unfold cleanupUserSessions. cbn [fst Server.activeRaces Server.set_races].
    rewrite lookup_omap, Hrace. cbn. unfold leaveOnDisconnect. rewrite Hout. reflexivity.
Qed.

Lemma delete_absent {V} k (m : list (string * V)) :
  JSMap.has k m = false -> JSMap.delete k m = m.
Proof.
  intros H. unfold JSMap.delete. apply forallb_filter_id, forallb_forall.
  intros e He. apply negb_true_iff, String.eqb_neq. intros Heq.
  assert (JSMap.has k m = true) as Hin; [|congruence].
  apply has_keys. rewrite <- Heq. apply in_map. exact He.
Qed.

Lemma set_players_same r : Race.set_players (Race.players r) r = r.
Proof. destruct r. reflexivity. Qed.

(** X21. A disconnect clears the user out. After [cleanupUserSessions],
    the test sessions left are exactly those of other users, unchanged;
    the races left are exactly the old ones with the user deleted from the
    roster and nothing else changed (the other players, their order and
    their progress, the status, the timers), but for the races in which
    the user was alone, which are gone from the registry; no roster holds
    the user; and the rate limiter's buckets are as they were. *)
Theorem disconnect_cleans (socket : Socket.t) (st : Server.t) :
  let st' := fst (cleanupUserSessions socket st) in
  (forall testId s,
     Server.activeTestSessions st' !! testId = Some s
     <-> Server.activeTestSessions st !! testId = Some s
         /\ TestSession.userId s <> Socket.userId socket)
  /\ (forall raceId race',
        Server.activeRaces st' !! raceId = Some race'
        <-> exists race,
              Server.activeRaces st !! raceId = Some race
              /\ race' = Race.set_players
                           (JSMap.delete (Socket.userId socket) (Race.players race)) race
              /\ (JSMap.has (Socket.userId socket) (Race.players race) = true ->
                  JSMap.delete (Socket.userId socket) (Race.players race) <> []))
  /\ (forall raceId race',
        Server.activeRaces st' !! raceId = Some race' ->
        JSMap.has (Socket.userId socket) (Race.players race') = false
        /\ exists race,
             Server.activeRaces st !! raceId = Some race
             /\ JSMap.keys (Race.players race')
                = List.filter (fun k => negb (String.eqb k (Socket.userId socket)))
                    (JSMap.keys (Race.players race)))
  /\ (forall raceId race,
        Server.activeRaces st !! raceId = Some race ->
        JSMap.keys (Race.players race) = [Socket.userId socket] ->
        Server.activeRaces st' !! raceId = None)
  /\ Server.buckets st' = Server.buckets st.
Proof.
  cbv zeta. unfold cleanupUserSessions.
  cbn [fst Server.activeRaces Server.activeTestSessions Server.set_races Server.set_tests
       Server.buckets].
  split; [|split; [|split; [|split; [|reflexivity]]]].
  - intros testId s. rewrite map_lookup_filter_Some. cbn. tauto.
  - intros raceId race'. rewrite lookup_omap.
    destruct (Server.activeRaces st !! raceId) as [race|] eqn:Hrace.
    2:{ cbn. split; [discriminate | intros (race & Hr & _); discriminate]. }
    cbn. unfold leaveOnDisconnect.
    destruct (JSMap.has (Socket.userId socket) (Race.players race)) eqn:Eh.
    + cbn [Race.players Race.set_players]. unfold JSMap.size.
      destruct (JSMap.delete (Socket.userId socket) (Race.players race)) as [|e l] eqn:Ed.
      * cbn. split; [discriminate|]. intros (race0 & [= <-] & _ & Hne).
        rewrite Eh in Hne. specialize (Hne eq_refl). rewrite Ed in Hne. congruence.
      * cbn [length].
        assert ((Z.of_nat (S (length l)) =? 0) = false) as -> by (apply Z.eqb_neq; lia).
        split.
        -- intros [= <-]. exists race. rewrite Ed. repeat split; auto.
        -- intros (race0 & [= <-] & -> & _). rewrite Ed. reflexivity.
    + split.
      * intros [= <-]. exists race. rewrite (delete_absent _ _ Eh), set_players_same.
        repeat split; auto. rewrite Eh. discriminate.
      * intros (race0 & [= <-] & -> & _).
        rewrite (delete_absent _ _ Eh), set_players_same. reflexivity.
  - intros raceId race'. rewrite lookup_omap.
    destruct (Server.activeRaces st !! raceId) as [race|] eqn:Hrace; [|discriminate].
    cbn. unfold leaveOnDisconnect.
    destruct (JSMap.has _ _) eqn:Eh.
    + cbn [Race.players Race.set_players].
      destruct (_ =? 0); [discriminate|]. intros [= <-]. cbn [Race.players Race.set_players].
      split; [apply has_delete|]. exists race. split; [reflexivity | apply delete_keys].
    + intros [= <-]. split; [exact Eh|]. exists race. split; [reflexivity|].
      symmetry. apply forallb_filter_id, forallb_forall. intros k Hk.
      apply negb_true_iff, String.eqb_neq. intros ->.
      apply has_keys in Hk. congruence.
  - intros raceId race Hrace Hkeys. rewrite lookup_omap, Hrace. cbn.
    unfold leaveOnDisconnect.
    assert (JSMap.has (Socket.userId socket) (Race.players race) = true) as ->.
    { apply has_keys. rewrite Hkeys. left. reflexivity. }
    cbn [Race.players Race.set_players].
    rewrite size_keys, delete_keys, Hkeys. cbn [List.filter].
    rewrite String.eqb_refl. reflexivity.
Qed.

(** X22. A throttled request does nothing else. When the limiter refuses
    the sender of a [race:create], [race:join] (general class),
    [race:progress] (race-progress class) or [race:message] (chat class),
    the handler changes neither registry, spends nothing but the check on
    the bucket, and answers with the RATE_LIMITED error alone.
    [race:leave] and [race:finish] are not throttled. *)
Theorem throttled_event_changes_nothing (now : Z) (ev : event) (st : Server.t)
    (socket : Socket.t) (ty : RateLimiter.limitType) :
  throttleOf ev = Some (socket, ty) ->
  RateLimiter.allowed
    (fst (RateLimiter.checkRate (Socket.userId socket) ty now (Server.buckets st))) = false ->
  Server.activeRaces (fst (step now ev st)) = Server.activeRaces st
  /\ Server.activeTestSessions (fst (step now ev st)) = Server.activeTestSessions st
  /\ Server.buckets (fst (step now ev st))
     = snd (RateLimiter.checkRate (Socket.userId socket) ty now (Server.buckets st))
  /\ snd (step now ev st)
     = [emitRateLimitError socket
          (RateLimiter.retryAfter
             (fst (RateLimiter.checkRate (Socket.userId socket) ty now (Server.buckets st))))].
Proof.
  intros Hev Hdenied.
  destruct ev as [s id data|s id|s id|s data|s data|s id text|s|id|id];
    cbn [throttleOf] in Hev; try discriminate; injection Hev as -> <-; cbn [step].
  - unfold race_create, RateLimiter.checkGeneralRate.
    destruct (RateLimiter.checkRate _ _ _ _) as [res bs]. cbn [fst snd] in *.
    rewrite Hdenied. cbn. auto.
  - unfold race_join, RateLimiter.checkGeneralRate.
    destruct (RateLimiter.checkRate _ _ _ _) as [res bs]. cbn [fst snd] in *.
    rewrite Hdenied. cbn. auto.
  - unfold race_progress, RateLimiter.checkRaceProgressRate.
    destruct (RateLimiter.checkRate _ _ _ _) as [res bs]. cbn [fst snd] in *.
    rewrite Hdenied. cbn. auto.
  - unfold race_message, RateLimiter.checkChatMessageRate.
    destruct (RateLimiter.checkRate _ _ _ _) as [res bs]. cbn [fst snd] in *.
    rewrite Hdenied. cbn. auto.
Qed.

Lemma tickAt_idle times race :
  Race.countdownInterval race = None -> tickAt times race = (race, []).
Proof.
  intros H. induction times as [|t times IH]; [reflexivity|].
  cbn [tickAt]. unfold countdownTick. rewrite H, IH. reflexivity.
Qed.

(** X23. The countdown takes six ticks. [startRaceCountdown] on a waiting
    race announces [race:start] with countdown 5; the interval's first five
    firings broadcast 5, 4, 3, 2, 1 and leave the race in countdown; the
    sixth broadcasts [race:begin], makes the race active and sets its start
    time to that firing; later firings do nothing. *)
Theorem countdown_takes_six_ticks (race : Race.t) (t1 t2 t3 t4 t5 t6 : Z) :
  Race.status race = waiting ->
  Race.countdownStarted race = false ->
  let counting := fst (startRaceCountdown race) in
  let to := io_to (room (Race.id race)) in
  snd (startRaceCountdown race) = [to (race_start (Race.id race) 5)]
  /\ Race.status counting = countdown
  /\ snd (tickAt [t1; t2; t3; t4; t5; t6] counting)
     = [to (race_countdown 5); to (race_countdown 4); to (race_countdown 3);
        to (race_countdown 2); to (race_countdown 1); to (race_begin t6)]
  /\ Race.status (fst (tickAt [t1; t2; t3; t4; t5] counting)) = countdown
  /\ Race.status (fst (tickAt [t1; t2; t3; t4; t5; t6] counting)) = active
  /\ Race.startTime (fst (tickAt [t1; t2; t3; t4; t5; t6] counting)) = Some t6
  /\ forall later, tickAt later (fst (tickAt [t1; t2; t3; t4; t5; t6] counting))
                   = (fst (tickAt [t1; t2; t3; t4; t5; t6] counting), []).
Proof.
  intros Hw Hc. cbv zeta. unfold startRaceCountdown. rewrite Hw, Hc.
  repeat split; try reflexivity.
  intros later. apply tickAt_idle. reflexivity.
Qed.

Lemma endRace_players now race :
  Race.status race <> finished ->
  Race.players (fst (fst (endRace now race)))
  = writeBack (rankedPlayers (Race.players race)) (Race.players race).
Proof.
  intros Hs. unfold endRace. rewrite bool_decide_eq_false_2 by exact Hs.
  cbn [Race.set_status Race.set_endTime Race.set_players Race.players Race.startTime].
  destruct (Race.startTime race); reflexivity.
Qed.

Lemma sorted_finished players e :
  In e (sort byFinishTime (List.filter isFinished players)) ->
  In e players /\ isFinished e = true.
Proof.
  intros H. apply list_elem_of_In in H. rewrite sort_perm in H.
  apply list_elem_of_In, List.filter_In in H. exact H.
Qed.

(** An entry of the ranked list is a player of the roster with a rank: a
    finished one among the first ranks, an unfinished one behind them. *)
Lemma ranked_entry players k q :
  In (k, q) (rankedPlayers players) ->
  exists p i,
    In (k, p) players /\ q = Player.set_rank (Some i) p
    /\ if Player.isFinished p
       then 1 <= i <= Z.of_nat (length (List.filter isFinished players))
       else Z.of_nat (length (List.filter isFinished players)) < i
            <= Z.of_nat (length players).
Proof.
  unfold rankedPlayers. intros H.
  apply list_elem_of_In, list_elem_of_lookup in H as [j Hj].
  rewrite list_lookup_imap in Hj.
  set (done := sort byFinishTime (List.filter isFinished players)) in *.
  set (rest := List.filter (fun e => negb (isFinished e)) players) in *.
  assert (length done = length (List.filter isFinished players)) as Hlen
    by (apply Permutation_length, sort_perm).
  assert (length done + length rest = length players)%nat as Htot.
  { rewrite Hlen, <- length_app. apply Permutation_length, partition_perm. }
  destruct ((done ++ rest) !! j) as [[k' p]|] eqn:E; [|discriminate].
  cbn in Hj. injection Hj as <- <-.
  exists p, (Z.of_nat j + 1). apply lookup_app_Some in E as [E|[Hge E]].
  - pose proof (lookup_lt_Some _ _ _ E) as Hlt.
    apply list_elem_of_lookup_2, list_elem_of_In, sorted_finished in E as [Hin Hf].
    unfold isFinished in Hf. cbn in Hf. rewrite Hf. repeat split; auto; lia.
  - pose proof (lookup_lt_Some _ _ _ E) as Hlt.
    apply list_elem_of_lookup_2, list_elem_of_In, List.filter_In in E as [Hin Hf].
    unfold isFinished in Hf. cbn in Hf. apply negb_true_iff in Hf. rewrite Hf.
    repeat split; auto; lia.
Qed.

(** X24. Finishers rank first. When [endRace] ends a race, every player
    of the roster is as before but for the rank, and with [F] finished
    players the finished ones hold the ranks 1 to [F] and the unfinished
    ones the ranks [F + 1] to the size of the roster. *)
Theorem finished_rank_first (now : Z) (race : Race.t) (k : string) (q : Player.t) :
  Race.status race <> finished ->
  NoDup (JSMap.keys (Race.players race)) ->
  In (k, q) (Race.players (fst (fst (endRace now race)))) ->
  exists p i,
    In (k, p) (Race.players race) /\ q = Player.set_rank (Some i) p
    /\ if Player.isFinished p
       then 1 <= i <= Z.of_nat (length (List.filter isFinished (Race.players race)))
       else Z.of_nat (length (List.filter isFinished (Race.players race))) < i
            <= Z.of_nat (length (Race.players race)).
Proof.
  intros Hs Hnd. rewrite (endRace_players _ _ Hs). intros H.
  apply ranked_entry. apply list_elem_of_In. apply list_elem_of_In in H.
  rewrite <- (writeBack_perm (rankedPlayers (Race.players race)) (Race.players race));
    [exact H| |].
  - rewrite rankedPlayers_keys. exact Hnd.
  - apply rankedPlayers_keys.
Qed.

Lemma filter_none {A} (p : A -> bool) l :
  List.filter p l = [] -> List.filter (fun x => negb (p x)) l = l.
Proof.
  induction l as [|x l IH]; [reflexivity|]. cbn.
  destruct (p x); [discriminate|]. cbn. intros H. f_equal. auto.
Qed.

Lemma filter_imap_none (f : nat -> string * Player.t -> string * Player.t) l :
  (forall i e, isFinished (f i e) = isFinished e) ->
  Forall (fun e => isFinished e = false) l ->
  List.filter isFinished (imap f l) = [].
Proof.
  intros Hf Hl. revert f Hf. induction Hl as [|e l He Hl IH]; intros f Hf; [reflexivity|].
  rewrite imap_cons. cbn [List.filter]. rewrite Hf, He. apply IH. intros i x. apply Hf.
Qed.

(** X25. The winner holds rank 1. The [race:completed] broadcast of a
    started race with a non-empty roster names as winner the user of the
    first entry of its rankings, and that entry has rank 1, also when
    nobody finished (the winner is then the first of the roster). *)
Theorem winner_holds_rank_one (now : Z) (race : Race.t) (start : Z) :
  Race.status race <> finished ->
  Race.players race <> [] ->
  Race.startTime race = Some start ->
  exists results first rest,
    snd (fst (endRace now race)) = [io_to (room (Race.id race)) (race_completed results)]
    /\ Results.rankings results = first :: rest
    /\ Ranking.rank first = Some 1
    /\ Results.winner results = Some (Ranking.userId first).
Proof.
  intros Hs Hne Hstart. unfold endRace. rewrite bool_decide_eq_false_2 by exact Hs.
  cbn [Race.set_status Race.set_endTime Race.set_players Race.players Race.startTime Race.id].
  rewrite Hstart. cbn [fst snd].
  unfold rankedPlayers.
  set (rest := List.filter (fun e => negb (isFinished e)) (Race.players race)).
  set (f := fun (index : nat) (e : string * Player.t) =>
              (fst e, Player.set_rank (Some (Z.of_nat index + 1)) (snd e))).
  assert (forall i e, isFinished (f i e) = isFinished e) as Hf by reflexivity.
  pose proof (sort_perm byFinishTime (List.filter isFinished (Race.players race))) as Hp.
  destruct (sort byFinishTime (List.filter isFinished (Race.players race)))
    as [|e done'] eqn:Ed.
  - apply Permutation_nil in Hp.
    assert (rest = Race.players race) as -> by (apply filter_none; exact Hp).
    cbn [app].
    rewrite (filter_imap_none f (Race.players race) Hf).
    2:{ apply List.Forall_forall. intros x Hx.
        destruct (isFinished x) eqn:Ex; [|reflexivity].
        assert (In x (List.filter isFinished (Race.players race))) as Hin
          by (apply List.filter_In; auto).
        rewrite Hp in Hin. destruct Hin. }
    destruct (Race.players race) as [|[k0 p0] others] eqn:Ep; [congruence|].
    rewrite imap_cons. cbn [writeBack map fst snd f].
    change (f 0%nat (k0, p0)) with (k0, Player.set_rank (Some (Z.of_nat 0 + 1)) p0).
    rewrite get_cons, String.eqb_refl. cbn [from_option id].
    eexists _, _, _. split; [reflexivity|]. cbn. auto.
  - cbn [app]. rewrite imap_cons. cbn [List.filter].
    assert (isFinished e = true) as He.
    { apply (sorted_finished (Race.players race)). rewrite Ed. left. reflexivity. }
    rewrite Hf, He.
    eexists _, _, _. split; [reflexivity|]. cbn. auto.
Qed.

Lemma findIndex_found {A} (pred : A -> bool) l :
  (exists x, In x l /\ pred x = true) ->
  0 <= findIndex pred l < Z.of_nat (length l).
Proof.
  induction l as [|y l IH]; intros (x & Hin & Hx); [destruct Hin|].
  cbn [findIndex length]. destruct (pred y) eqn:Ey; [lia|].
  destruct Hin as [->|Hin]; [congruence|].
  specialize (IH (ex_intro _ x (conj Hin Hx))).
  destruct (Z.ltb_spec (findIndex pred l) 0); lia.
Qed.

(** X26. [race:finish] announces a real rank. When a member who is stored
    under the own user id and has not finished sends a valid
    [race:finish], the first thing sent is [race:player_finished] to the
    others in the room, with the sender's id, the finish time the client
    gave, and a rank between 1 and the number of players finished by then,
    the sender included: never 0, whatever the race's status. *)
Theorem finish_announces_rank (socket : Socket.t) (now : Z) (data : RaceFinish.t)
    (st : Server.t) (race : Race.t) (player : Player.t) :
  raceFinishSchema data = true ->
  Server.activeRaces st !! RaceFinish.raceId data = Some race ->
  JSMap.get (Socket.userId socket) (Race.players race) = Some player ->
  Player.userId player = Socket.userId socket ->
  Player.isFinished player = false ->
  exists m rest i,
    snd (race_finish socket now data st)
    = socket_to (Socket.id socket) (room (RaceFinish.raceId data)) (race_player_finished m)
        :: rest
    /\ PlayerFinished.playerId m = Socket.userId socket
    /\ PlayerFinished.finishTime m = Some (RaceFinish.finishTime data)
    /\ PlayerFinished.rank m = Some i
    /\ 1 <= i
       <= Z.of_nat (length (List.filter isFinished
                              (JSMap.set (Socket.userId socket) (markFinished data player)
                                 (Race.players race)))).
Proof.
  intros Hschema Hrace Hget Hid Hopen. unfold race_finish.
  rewrite Hschema, Hrace, Hget, Hopen. cbn [negb].
  set (players := JSMap.set (Socket.userId socket) (markFinished data player)
                    (Race.players race)).
  set (finishedPlayers := sort byFinishTime (List.filter isFinished players)).
  set (pred := fun e : string * Player.t =>
                 String.eqb (Player.userId (snd e)) (Socket.userId socket)).
  assert (0 <= findIndex pred finishedPlayers
          < Z.of_nat (length (List.filter isFinished players))) as Hrank.
  { rewrite <- (Permutation_length (sort_perm byFinishTime (List.filter isFinished players))).
    apply findIndex_found.
    exists (Socket.userId socket, markFinished data player). split.
    - apply list_elem_of_In. subst finishedPlayers. rewrite sort_perm.
      apply list_elem_of_In, List.filter_In. split; [|reflexivity].
      apply get_In, get_set_eq.
    - subst pred. cbn. rewrite Hid. apply String.eqb_refl. }
  destruct (checkRaceCompletion _ _) as [[race' completed] []];
    cbn [snd]; eexists _, _, _; (split; [reflexivity|]); cbn; repeat split; auto; lia.
Qed.

(** X27. A repeated [race:join] is invisible to the others. When the
    sender is already in the roster of the race, [race:join] changes no
    race and no test session, whatever the race's occupancy and status and
    whatever the limiter says, and everything it sends goes to the sender
    alone: nothing is broadcast to the room. *)
Theorem rejoin_is_private (socket : Socket.t) (now : Z) (raceId : string) (st : Server.t)
    (race : Race.t) (p : Player.t) :
  Server.activeRaces st !! raceId = Some race ->
  JSMap.get (Socket.userId socket) (Race.players race) = Some p ->
  Server.activeRaces (fst (race_join socket now raceId st)) = Server.activeRaces st
  /\ Server.activeTestSessions (fst (race_join socket now raceId st))
     = Server.activeTestSessions st
  /\ forallb (private socket) (snd (race_join socket now raceId st)) = true.
Proof.
  intros Hrace Hin. unfold race_join.
  destruct (RateLimiter.checkGeneralRate _ _ _) as [res bs].
  assert (forall code type message d,
            forallb (private socket) [emitError socket code type message d] = true) as Herr.
  { intros. cbn. now rewrite String.eqb_refl. }
  destruct (RateLimiter.allowed res); cbn [negb].
  2:{ repeat split; try reflexivity. unfold emitRateLimitError. apply Herr. }
  destruct (TestEvents.nonempty raceId); cbn [negb].
  2:{ repeat split; try reflexivity. apply Herr. }
  cbn [Server.set_buckets Server.activeRaces]. rewrite Hrace.
  destruct (_ <=? _)%float; [repeat split; try reflexivity; apply Herr|].
  destruct (bool_decide (Race.status race = active));
    [repeat split; try reflexivity; apply Herr|].
  destruct (bool_decide (Race.status race = finished));
    [repeat split; try reflexivity; apply Herr|].
  rewrite Hin. repeat split; try reflexivity. cbn. now rewrite String.eqb_refl.
Qed.

End LifeFacts.


(** Alice asks again to join the full race [R] she is in. *)
Lemma rejoin_is_private_witness :
  Server.activeRaces (fst (RaceEvents.race_join Scenario.alice 2000 "R" Scenario.fullRace))
  = Server.activeRaces Scenario.fullRace
  /\ Server.activeTestSessions
       (fst (RaceEvents.race_join Scenario.alice 2000 "R" Scenario.fullRace))
     = Server.activeTestSessions Scenario.fullRace
  /\ forallb (RaceLife.private Scenario.alice)
       (snd (RaceEvents.race_join Scenario.alice 2000 "R" Scenario.fullRace)) = true.
Proof.
  apply (rejoin_is_private Scenario.alice 2000 "R" Scenario.fullRace
           (Scenario.raceR Scenario.fullRace) (Scenario.playerR "alice" Scenario.fullRace));
    vm_compute; reflexivity.
Defined.

(** Race [R] after Bob came and went. *)
Lemma roster_identities_witness :
  let race := Scenario.raceR (fst (RaceEvents.run Scenario.aliceAlone Server.init)) in
  Race.id race = "R"
  /\ Forall (fun e : string * Player.t => Player.userId (snd e) = fst e) (Race.players race)
  /\ NoDup (map Player.userId (JSMap.values (Race.players race))).
Proof.
  apply (roster_identities Scenario.aliceAlone "R"
           (Scenario.raceR (fst (RaceEvents.run Scenario.aliceAlone Server.init)))).
  vm_compute. reflexivity.
Defined.

(** The full race [R] through its countdown. *)
Lemma race_progression_witness :
  let race := Scenario.raceR Scenario.fullRace in
  let race' := Scenario.raceR Scenario.activeRace in
  Race.id race' = Race.id race
  /\ Race.maxPlayers race' = Race.maxPlayers race
  /\ Race.mode race' = Race.mode race
  /\ RaceLife.stage race <= RaceLife.stage race'
  /\ (Race.countdownStarted race = true -> Race.countdownStarted race' = true)
  /\ (RaceLife.started race ->
      forall k, In k (JSMap.keys (Race.players race')) -> In k (JSMap.keys (Race.players race))).
Proof.
  apply (race_progression (Scenario.ticks 2000) Scenario.fullRace "R"
           (Scenario.raceR Scenario.fullRace) (Scenario.raceR Scenario.activeRace));
    vm_compute; reflexivity.
Defined.

(** Carol, who is not in race [R], sends [race:finish] for it. *)
Lemma outsider_changes_nothing_witness :
  Server.activeRaces
    (fst (RaceEvents.step 5000 (RaceEvents.Finish Scenario.carol (Scenario.finishR 10))
            Scenario.fullRace)) !! "R"
  = Some (Scenario.raceR Scenario.fullRace).
Proof.
  apply (outsider_changes_nothing 5000
           (RaceEvents.Finish Scenario.carol (Scenario.finishR 10)) Scenario.fullRace
           Scenario.carol "R" (Scenario.raceR Scenario.fullRace));
    vm_compute; reflexivity.
Defined.

(** Alice's eleventh progress report of the second. *)
Lemma throttled_event_changes_nothing_witness :
  let ev := RaceEvents.Progress Scenario.alice (Scenario.progressR false) in
  let check :=
    RateLimiter.checkRate "alice" RateLimiter.raceProgress 8000
      (Server.buckets Examples.hammered) in
  Server.activeRaces (fst (RaceEvents.step 8000 ev Examples.hammered))
  = Server.activeRaces Examples.hammered
  /\ Server.activeTestSessions (fst (RaceEvents.step 8000 ev Examples.hammered))
     = Server.activeTestSessions Examples.hammered
  /\ Server.buckets (fst (RaceEvents.step 8000 ev Examples.hammered)) = snd check
  /\ snd (RaceEvents.step 8000 ev Examples.hammered)
     = [emitRateLimitError Scenario.alice (RateLimiter.retryAfter (fst check))].
Proof.
  apply (throttled_event_changes_nothing 8000
           (RaceEvents.Progress Scenario.alice (Scenario.progressR false))
           Examples.hammered Scenario.alice RateLimiter.raceProgress);
    vm_compute; reflexivity.
Defined.

(** The countdown of race [R] as Alice created it. *)
Lemma countdown_takes_six_ticks_witness :
  let race := Scenario.raceR Examples.waitingRace in
  let counting := fst (RaceEvents.startRaceCountdown race) in
  let to := io_to (RaceEvents.room (Race.id race)) in
  let times := [1000; 2000; 3000; 4000; 5000; 6000] in
  snd (RaceEvents.startRaceCountdown race) = [to (race_start (Race.id race) 5)]
  /\ Race.status counting = countdown
  /\ snd (RaceLife.tickAt times counting)
     = [to (race_countdown 5); to (race_countdown 4); to (race_countdown 3);
        to (race_countdown 2); to (race_countdown 1); to (race_begin 6000)]
  /\ Race.status (fst (RaceLife.tickAt [1000; 2000; 3000; 4000; 5000] counting)) = countdown
  /\ Race.status (fst (RaceLife.tickAt times counting)) = active
  /\ Race.startTime (fst (RaceLife.tickAt times counting)) = Some 6000
  /\ forall later, RaceLife.tickAt later (fst (RaceLife.tickAt times counting))
                   = (fst (RaceLife.tickAt times counting), []).
Proof.
  apply (countdown_takes_six_ticks (Scenario.raceR Examples.waitingRace)
           1000 2000 3000 4000 5000 6000); vm_compute; reflexivity.
Defined.

(** Alice in the running race, ended at 9000 with nobody finished. *)
Lemma finished_rank_first_witness :
  let race := Scenario.raceR Scenario.activeRace in
  exists p i,
    In ("alice", p) (Race.players race) /\ Examples.aliceRanked = Player.set_rank (Some i) p
    /\ if Player.isFinished p
       then 1 <= i
            <= Z.of_nat (length (List.filter RaceEvents.isFinished (Race.players race)))
       else Z.of_nat (length (List.filter RaceEvents.isFinished (Race.players race))) < i
            <= Z.of_nat (length (Race.players race)).
Proof.
  apply (finished_rank_first 9000 (Scenario.raceR Scenario.activeRace) "alice"
           Examples.aliceRanked).
  - vm_compute. discriminate.
  - apply (bool_decide_unpack _). vm_compute. reflexivity.
  - vm_compute. left. reflexivity.
Defined.

(** The running race, ended at 9000. *)
Lemma winner_holds_rank_one_witness :
  exists results first rest,
    snd (fst (RaceEvents.endRace 9000 (Scenario.raceR Scenario.activeRace)))
    = [io_to (RaceEvents.room (Race.id (Scenario.raceR Scenario.activeRace)))
         (race_completed results)]
    /\ Results.rankings results = first :: rest
    /\ Ranking.rank first = Some 1
    /\ Results.winner results = Some (Ranking.userId first).
Proof.
  apply (winner_holds_rank_one 9000 (Scenario.raceR Scenario.activeRace) 7000).
  - vm_compute. discriminate.
  - vm_compute. discriminate.
  - vm_compute. reflexivity.
Defined.

(** Alice finishes the running race. *)
Lemma finish_announces_rank_witness :
  exists m rest i,
    snd (RaceEvents.race_finish Scenario.alice 20000 (Scenario.finishR 13000)
           Scenario.activeRace)
    = socket_to "s1" (RaceEvents.room "R") (race_player_finished m) :: rest
    /\ PlayerFinished.playerId m = "alice"
    /\ PlayerFinished.finishTime m = Some 13000%float
    /\ PlayerFinished.rank m = Some i
    /\ 1 <= i
       <= Z.of_nat (length (List.filter RaceEvents.isFinished
                              (JSMap.set "alice"
                                 (RaceEvents.markFinished (Scenario.finishR 13000)
                                    (Scenario.playerR "alice" Scenario.activeRace))
                                 (Race.players (Scenario.raceR Scenario.activeRace))))).
Proof.
  apply (finish_announces_rank Scenario.alice 20000 (Scenario.finishR 13000)
           Scenario.activeRace (Scenario.raceR Scenario.activeRace)
           (Scenario.playerR "alice" Scenario.activeRace)); vm_compute; reflexivity.
Defined.
